(** * SecureNetFileXfer: the framed transfer protocol, client and server

    A shallow embedding of [SecureNetFileXferClient.py] and
    [SecureNetFileXferServer.py].  Sockets, the TLS layer and the file
    system are the environment: every call the programs make on them is
    answered from an explicit script carried in the state, so that each
    theorem quantifies over the behaviours of the environment.

    What the environment is taken to do:
    - a script is finite: a read or a poll is asked to try again finitely
      often, after which a read returns what is in flight and a poll says
      that data is there;
    - [recv] returns no bytes only at the end of the stream;
    - [close], [print] and the calls on the file written by the server do
      not raise, and [assert] statements are executed;
    - time is not modelled: a timeout is an answer of the call that waits. *)

From Stdlib Require Import ZArith NArith Lia List String Ascii Bool.
From Stdlib Require Import Strings.Byte.
From stdpp Require Import gmap.

Import ListNotations.
Local Open Scope N_scope.

Ltac Zify.zify_post_hook ::= Z.to_euclidean_division_equations.

(** ** Bytes and Python strings *)

(** A [bytes] object. *)
Abbreviation bytes := (list byte).

(** A Python [str]: its sequence of Unicode code points. *)
Abbreviation pystr := (list N).

(** The byte whose value is [n mod 256]. *)
Definition byte_of_N (n : N) : byte :=
  match Byte.of_N (n mod 256) with
  | Some b => b
  | None => x00
  end.

(** ** [int.to_bytes(4, byteorder='big')] and [int.from_bytes(.., 'big')] *)

Module BigEndian.

(** [int.from_bytes(bs, byteorder='big')], for a [bytes] of any length. *)
Definition from_bytes (bs : bytes) : N :=
  fold_left (fun acc b => acc * 256 + Byte.to_N b) bs 0.

(** [n.to_bytes(4, byteorder='big')]; [None] stands for the
    [OverflowError] Python raises when [n] does not fit. *)
Definition to_bytes4 (n : N) : option bytes :=
  if n <? 2 ^ 32
  then Some [ byte_of_N (n / 2 ^ 24); byte_of_N (n / 2 ^ 16);
              byte_of_N (n / 2 ^ 8); byte_of_N n ]
  else None.

End BigEndian.

(** ** UTF-8: [str.encode()] and [bytes.decode()] with their defaults *)

Module Utf8.

Definition is_surrogate (c : N) : bool := (0xD800 <=? c) && (c <=? 0xDFFF).

(** One code point; [None] is the [UnicodeEncodeError] raised for a lone
    surrogate. *)
Definition encode_cp (c : N) : option bytes :=
  if c <? 0x80 then Some [byte_of_N c]
  else if c <? 0x800 then
    Some [byte_of_N (0xC0 + c / 64); byte_of_N (0x80 + c mod 64)]
  else if c <? 0x10000 then
    if is_surrogate c then None
    else Some [byte_of_N (0xE0 + c / 4096);
               byte_of_N (0x80 + (c / 64) mod 64);
               byte_of_N (0x80 + c mod 64)]
  else if c <? 0x110000 then
    Some [byte_of_N (0xF0 + c / 262144);
          byte_of_N (0x80 + (c / 4096) mod 64);
          byte_of_N (0x80 + (c / 64) mod 64);
          byte_of_N (0x80 + c mod 64)]
  else None.

(** [s.encode()]. *)
Fixpoint encode (s : pystr) : option bytes :=
  match s with
  | [] => Some []
  | c :: s' =>
      match encode_cp c, encode s' with
      | Some b, Some bs => Some (b ++ bs)
      | _, _ => None
      end
  end.

(** A continuation byte, [10xxxxxx]. *)
Definition is_cont (b : byte) : bool :=
  (0x80 <=? Byte.to_N b) && (Byte.to_N b <? 0xC0).

Definition payload (b : byte) : N := Byte.to_N b - 0x80.

(** [bs.decode()], strict: overlong forms, surrogates, code points above
    U+10FFFF and truncated sequences are rejected ([None] is the
    [UnicodeDecodeError]). *)
Fixpoint decode (bs : bytes) : option pystr :=
  match bs with
  | [] => Some []
  | b0 :: r0 =>
      let n0 := Byte.to_N b0 in
      if n0 <? 0x80 then option_map (cons n0) (decode r0)
      else if n0 <? 0xC2 then None
      else if n0 <? 0xE0 then
        match r0 with
        | b1 :: r1 =>
            if is_cont b1
            then option_map (cons ((n0 - 0xC0) * 64 + payload b1)) (decode r1)
            else None
        | _ => None
        end
      else if n0 <? 0xF0 then
        match r0 with
        | b1 :: b2 :: r2 =>
            let c := (n0 - 0xE0) * 4096 + payload b1 * 64 + payload b2 in
            if is_cont b1 && is_cont b2 && negb (c <? 0x800)
               && negb (is_surrogate c)
            then option_map (cons c) (decode r2)
            else None
        | _ => None
        end
      else if n0 <? 0xF5 then
        match r0 with
        | b1 :: b2 :: b3 :: r3 =>
            let c := (n0 - 0xF0) * 262144 + payload b1 * 4096
                     + payload b2 * 64 + payload b3 in
            if is_cont b1 && is_cont b2 && is_cont b3
               && negb (c <? 0x10000) && (c <? 0x110000)
            then option_map (cons c) (decode r3)
            else None
        | _ => None
        end
      else None
  end.

End Utf8.

(** ** Exceptions *)

(** The exceptions the two programs raise, catch or let through.  Each
    constructor stands for a Python class together with its subclasses that
    no handler of the programs tells apart. *)
Inductive exn : Type :=
| SSLWantReadError                  (* ssl.SSLWantReadError *)
| SSLError (msg : string)           (* any other ssl.SSLError, with its str() *)
| ConnectionError (msg : string)    (* ConnectionError: reset, broken pipe, ... *)
| OSError (msg : string)            (* any other OSError, socket.timeout included *)
| UnicodeDecodeError
| UnicodeEncodeError
| OverflowError
| ZeroDivisionError
| FileNotFoundError
| AssertionError (msg : string)
| ValueError (msg : string).

(** [isinstance(e, C)] for the classes named in [except] clauses.  In
    Python [SSLWantReadError] is a subclass of [SSLError], and the two
    Unicode errors are subclasses of [ValueError]. *)
Definition is_SSLWantReadError (e : exn) : bool :=
  match e with SSLWantReadError => true | _ => false end.

Definition is_SSLError (e : exn) : bool :=
  match e with SSLWantReadError | SSLError _ => true | _ => false end.

Definition is_ConnectionError (e : exn) : bool :=
  match e with ConnectionError _ => true | _ => false end.

Definition is_ValueError (e : exn) : bool :=
  match e with
  | ValueError _ | UnicodeDecodeError | UnicodeEncodeError => true
  | _ => false
  end.

Definition is_Exception (e : exn) : bool := true.

(** [str(e)], as far as a handler inspects it. *)
Definition exn_str (e : exn) : string :=
  match e with
  | SSLError m | ConnectionError m | OSError m | AssertionError m
  | ValueError m => m
  | _ => EmptyString
  end.

(** [needle in hay] on Python strings holding plain text. *)
Fixpoint str_contains (needle hay : string) : bool :=
  String.prefix needle hay
  || match hay with
     | EmptyString => false
     | String _ hay' => str_contains needle hay'
     end.

(** ** A state-and-exception monad *)

(** The result of running a piece of Python: a value, a raised exception,
    or [Stuck] when a loop of the model ran out of iterations (shown below
    not to happen). *)
Inductive res (A : Type) : Type :=
| Ok (a : A)
| Raise (e : exn)
| Stuck.
Arguments Ok {A} a.
Arguments Raise {A} e.
Arguments Stuck {A}.

Section Monad.
Context {W : Type}.

Definition M (A : Type) : Type := W -> res A * W.

Definition ret {A} (a : A) : M A := fun w => (Ok a, w).

Definition raise {A} (e : exn) : M A := fun w => (Raise e, w).

Definition stuck {A} : M A := fun w => (Stuck, w).

Definition bind {A B} (m : M A) (k : A -> M B) : M B :=
  fun w =>
    match m w with
    | (Ok a, w') => k a w'
    | (Raise e, w') => (Raise e, w')
    | (Stuck, w') => (Stuck, w')
    end.

Definition modify (f : W -> W) : M unit := fun w => (Ok tt, f w).

Definition gets {A} (f : W -> A) : M A := fun w => (Ok (f w), w).

(** One [except C as e: h] clause. *)
Definition handler (A : Type) : Type := ((exn -> bool) * (exn -> M A))%type.

Fixpoint dispatch {A} (hs : list (handler A)) (e : exn) : M A :=
  match hs with
  | [] => raise e
  | (cls, h) :: hs' => if cls e then h e else dispatch hs' e
  end.

(** [try: m  except C1: h1  except C2: h2 ...]: the first clause whose
    class matches runs; an exception no clause matches goes on. *)
Definition try_except {A} (m : M A) (hs : list (handler A)) : M A :=
  fun w =>
    match m w with
    | (Raise e, w') => dispatch hs e w'
    | r => r
    end.

(** [try: m  finally: f]: [f] runs on every way out of [m]; an exception
    raised by [f] replaces the outcome of [m]. *)
Definition try_finally {A} (m : M A) (f : M unit) : M A :=
  fun w =>
    match m w with
    | (Stuck, w') => (Stuck, w')
    | (r, w') =>
        match f w' with
        | (Ok _, w'') => (r, w'')
        | (Raise e, w'') => (Raise e, w'')
        | (Stuck, w'') => (Stuck, w'')
        end
    end.

(** [try: m  except: pass]. *)
Definition swallow (m : M unit) : M unit :=
  try_except m [(fun _ => true, fun _ => ret tt)].

End Monad.
Arguments M : clear implicits.

Notation "'let*' x ':=' m 'in' k" := (bind m (fun x => k))
  (at level 10, x name, m at level 100, k at level 200, only parsing).
Notation "m ';;;' k" := (bind m (fun _ => k))
  (at level 100, k at level 200, right associativity, only parsing).

(** An environment call that goes wrong when its script says so. *)
Definition may_raise {W} (err : option exn) : M W unit :=
  match err with
  | Some e => raise e
  | None => ret tt
  end.

(** ** The server: [SecureNetFileXferServer.py] *)

Module Server.

(** What one call of [secure_client.recv(n)] does, as the environment
    decides it: [Short k] hands over at most [k + 1] of the bytes in
    flight (a short read), [RecvRaises e] raises [e].  When the script is
    used up, a read returns as much as was asked for. *)
Inductive recv_event : Type :=
| Short (k : nat)
| RecvRaises (e : exn).

(** One accepted connection, seen from the server: the bytes the peer
    sent and then closed after, and the scripts that answer [recv],
    [select] and [shutdown]. *)
Record conn : Type := mkConn {
  pending : bytes;
  recv_script : list recv_event;
  select_script : list bool;      (* [true]: readable; [false]: 5 s elapsed *)
  shutdown_err : option exn
}.

(** What [accept] followed by [wrap_socket] meets. *)
Inductive arrival : Type :=
| AcceptRaises (e : exn)
| Arrives (handshake_err : option exn) (c : conn).

(** Calls on sockets that matter for the life cycle of a connection. *)
Inductive op : Type :=
| OpBind (port : Z)
| OpListen
| OpAccept (id : nat)
| OpHandshake (id : nat)
| OpShutdown (id : nat)           (* secure_client.shutdown(SHUT_RDWR) *)
| OpClose (id : nat)              (* secure_client.close() *)
| OpRawShutdown (id : nat)        (* client_socket.shutdown(SHUT_RDWR) *)
| OpRawClose (id : nat).          (* client_socket.close() *)

(** The lines the server prints. *)
Inductive line : Type :=
| Listening (port : Z)
| Accepted (id : nat)
| TLSEstablished (id : nat)
| UsingCipher (id : nat)           (* "Using cipher: ..." *)
| TLSVersion (id : nat)            (* "TLS version: ..." *)
| Receiving (name : pystr)
| Received (name : pystr)
| ConnectionErrorLine (e : exn)   (* "Connection error: {e}" *)
| ReceiveErrorLine (e : exn)      (* "Error while receiving file: {e}" *)
| ClosedLine (id : nat)           (* "Connection with {addr} closed." *)
| SSLErrorLine (e : exn)          (* "SSL Error: {e}" *)
| ErrorLine (e : exn).            (* "Error: {e}" *)

Record world : Type := mkWorld {
  fs : gmap pystr bytes;          (* the working directory *)
  out : list line;                (* standard output *)
  trace : list op;
  cur : conn;                     (* the connection behind secure_client *)
  client_socket : option nat;     (* the local variable, once bound *)
  next_id : nat
}.

Definition set_cur (c : conn) (w : world) : world :=
  mkWorld (fs w) (out w) (trace w) c (client_socket w) (next_id w).

Definition set_fs (f : gmap pystr bytes) (w : world) : world :=
  mkWorld f (out w) (trace w) (cur w) (client_socket w) (next_id w).

Definition print (l : line) : M world unit :=
  modify (fun w =>
    mkWorld (fs w) (out w ++ [l]) (trace w) (cur w) (client_socket w)
            (next_id w)).

Definition log_op (o : op) : M world unit :=
  modify (fun w =>
    mkWorld (fs w) (out w) (trace w ++ [o]) (cur w) (client_socket w)
            (next_id w)).

(** [secure_client.recv(n)]. *)
Definition recv (n : nat) : M world bytes :=
  fun w =>
    let c := cur w in
    match recv_script c with
    | [] =>
        (Ok (take n (pending c)),
         set_cur (mkConn (drop n (pending c)) [] (select_script c)
                         (shutdown_err c)) w)
    | Short k :: s =>
        let m := Nat.min (S k) n in
        (Ok (take m (pending c)),
         set_cur (mkConn (drop m (pending c)) s (select_script c)
                         (shutdown_err c)) w)
    | RecvRaises e :: s =>
        (Raise e,
         set_cur (mkConn (pending c) s (select_script c)
                         (shutdown_err c)) w)
    end.

(** [select.select([secure_client], [], [], 5.0)]: is the first list of
    the answer non-empty? *)
Definition select : M world bool :=
  fun w =>
    let c := cur w in
    match select_script c with
    | [] => (Ok true, w)
    | r :: s =>
        (Ok r, set_cur (mkConn (pending c) (recv_script c) s
                               (shutdown_err c)) w)
    end.

Definition closed_by_client : exn :=
  ConnectionError "Connection closed by client".

(** The [while len(data) < length] loop of [receive_data]. *)
Fixpoint receive_data_loop (fuel : nat) (length : nat) (data : bytes)
  : M world bytes :=
  match fuel with
  | O => stuck
  | S fuel' =>
      if (List.length data <? length)%nat then
        let* data' :=
          try_except
            (let* chunk := recv (Nat.min (length - List.length data) 1024) in
             match chunk with
             | [] => raise closed_by_client
             | _ => ret (data ++ chunk)
             end)
            [(is_SSLWantReadError, fun _ => ret data)] in
        receive_data_loop fuel' length data'
      else ret data
  end.

(** Every turn of the loops below uses up a script entry or a byte in
    flight, or ends the loop. *)
Definition recv_budget (c : conn) : nat :=
  S (List.length (recv_script c) + List.length (pending c)).

Definition receive_data (length : nat) : M world bytes :=
  fun w => receive_data_loop (recv_budget (cur w)) length [] w.

(** [open(file_name, 'wb')]: the file is created or truncated (the file
    system is taken to accept the name). *)
Definition open_wb (name : pystr) : M world unit :=
  modify (fun w => set_fs (<[name := []]> (fs w)) w).

(** [file.write(data)] on the file opened under [name]. *)
Definition file_write (name : pystr) (data : bytes) : M world unit :=
  modify (fun w =>
    set_fs (<[name := default [] (fs w !! name) ++ data]> (fs w)) w).

Inductive ctl : Type := Break | Continue.

Definition unexpected_eof : string := "UNEXPECTED_EOF_WHILE_READING".

(** The [while True] loop that receives the file content. *)
Fixpoint payload_loop (fuel : nat) (name : pystr) : M world unit :=
  match fuel with
  | O => stuck
  | S fuel' =>
      let* ready := select in
      if negb ready then payload_loop fuel' name
      else
        let* c :=
          try_except
            (let* data := recv 1024 in
             match data with
             | [] => ret Break
             | _ => file_write name data ;;; ret Continue
             end)
            [(is_SSLWantReadError, fun _ => ret Continue);
             (is_SSLError, fun e =>
                if str_contains unexpected_eof (exn_str e)
                then ret Break else raise e)] in
        match c with
        | Break => ret tt
        | Continue => payload_loop fuel' name
        end
  end.

Definition payload_budget (c : conn) : nat :=
  S (List.length (select_script c) + List.length (recv_script c)
     + List.length (pending c)).

Definition receive_payload (name : pystr) : M world unit :=
  fun w => payload_loop (payload_budget (cur w)) name w.

Definition decode (raw : bytes) : M world pystr :=
  match Utf8.decode raw with
  | Some s => ret s
  | None => raise UnicodeDecodeError
  end.

(** The body of the inner [try] of [start_server]: one receive. *)
Definition receive_file : M world unit :=
  let* name_length_data := receive_data 4 in
  let file_name_length := BigEndian.from_bytes name_length_data in
  let* raw := receive_data (N.to_nat file_name_length) in
  let* file_name := decode raw in
  print (Receiving file_name) ;;;
  open_wb file_name ;;;
  receive_payload file_name ;;;
  print (Received file_name).

(** The [finally] of the inner [try]. *)
Definition close_session (id : nat) : M world unit :=
  swallow (log_op (OpShutdown id) ;;;
           let* err := gets (fun w => shutdown_err (cur w)) in
           may_raise err) ;;;
  log_op (OpClose id) ;;;
  print (ClosedLine id).

(** The inner [try ... except ... finally] of [start_server]. *)
Definition session (id : nat) : M world unit :=
  try_finally
    (try_except receive_file
       [(is_ConnectionError, fun e => print (ConnectionErrorLine e));
        (is_Exception, fun e => print (ReceiveErrorLine e))])
    (close_session id).

(** [if 'client_socket' in locals(): ...] of the outer handlers. *)
Definition close_client_socket : M world unit :=
  let* sock := gets client_socket in
  match sock with
  | Some id =>
      swallow (log_op (OpRawShutdown id) ;;;
               let* err := gets (fun w => shutdown_err (cur w)) in
               may_raise err) ;;;
      log_op (OpRawClose id)
  | None => ret tt
  end.

(** [server_socket.accept()]: binds [client_socket]. *)
Definition accept (a : arrival) : M world nat :=
  match a with
  | AcceptRaises e => raise e
  | Arrives _ c =>
      fun w =>
        let id := next_id w in
        (Ok id,
         mkWorld (fs w) (out w) (trace w ++ [OpAccept id]) (cur w)
                 (Some id) (S id))
  end.

(** [context.wrap_socket(client_socket, server_side=True)]: the
    handshake. *)
Definition wrap_socket (a : arrival) (id : nat) : M world unit :=
  match a with
  | AcceptRaises e => raise e
  | Arrives hs c =>
      log_op (OpHandshake id) ;;;
      may_raise hs ;;;
      modify (set_cur c)
  end.

(** One turn of the [while True] loop of [start_server]. *)
Definition serve_one (a : arrival) : M world unit :=
  try_except
    (let* id := accept a in
     print (Accepted id) ;;;
     wrap_socket a id ;;;
     print (TLSEstablished id) ;;;
     print (UsingCipher id) ;;;
     print (TLSVersion id) ;;;
     session id)
    [(is_SSLError, fun e => print (SSLErrorLine e) ;;; close_client_socket);
     (is_Exception, fun e => print (ErrorLine e) ;;; close_client_socket)].

(** The [while True] loop, over the connection attempts the environment
    makes.  [Ok tt] is the server waiting in [accept] once all of them
    have been dealt with; an exception leaving a turn leaves the loop. *)
Fixpoint serve (arrivals : list arrival) : M world unit :=
  match arrivals with
  | [] => ret tt
  | a :: rest => serve_one a ;;; serve rest
  end.

(** What the calls before the loop meet. *)
Record startup : Type := mkStartup {
  socket_err : option exn;
  bind_err : option exn;          (* e.g. the port is already bound *)
  listen_err : option exn;
  context_err : option exn;
  cert_err : option exn;          (* cert.pem / key.pem cannot be loaded *)
  ciphers_err : option exn
}.

Definition port_message : string :=
  "Port number should be between 1024 and 65535.".

Definition start_server (port : Z) (su : startup) (arrivals : list arrival)
  : M world unit :=
  (if (1024 <=? port)%Z && (port <=? 65535)%Z then ret tt
   else raise (AssertionError port_message)) ;;;
  may_raise (socket_err su) ;;;
  log_op (OpBind port) ;;;
  may_raise (bind_err su) ;;;
  log_op OpListen ;;;
  may_raise (listen_err su) ;;;
  may_raise (context_err su) ;;;
  may_raise (cert_err su) ;;;
  may_raise (ciphers_err su) ;;;
  print (Listening port) ;;;
  serve arrivals.

End Server.

(** ** The client: [SecureNetFileXferClient.py] *)

Module Client.

(** [s.split(sep)] for a one-character separator. *)
Fixpoint split (sep : N) (s : pystr) : list pystr :=
  match s with
  | [] => [[]]
  | c :: s' =>
      if c =? sep then [] :: split sep s'
      else match split sep s' with
           | p :: ps => (c :: p) :: ps
           | [] => [[c]]
           end
  end.

Definition slash : N := 47.

(** [file_path.split('/')[-1]]. *)
Definition file_name_of (file_path : pystr) : pystr :=
  List.last (split slash file_path) [].

(** What one call of [secure_socket.sendall(data)] meets: it goes
    through, or it raises after [sent] bytes of [data] left. *)
Inductive send_event : Type :=
| SendOk
| SendRaises (sent : nat) (e : exn).

(** What the calls on the socket other than [sendall] meet. *)
Record env : Type := mkEnv {
  socket_err : option exn;        (* socket.socket(...) *)
  context_err : option exn;       (* ssl.create_default_context() *)
  wrap_err : option exn;          (* context.wrap_socket(...) *)
  connect_err : option exn;       (* connect and TLS handshake *)
  shutdown_err : option exn       (* secure_socket.shutdown(SHUT_RDWR) *)
}.

Inductive op : Type :=
| OpSocket
| OpConnect
| OpSend (data : bytes)
| OpShutdown
| OpClose.

(** The lines the client prints. *)
Inductive line : Type :=
| Connected
| UsingCipher                     (* "Using cipher: ..." *)
| TLSVersion                      (* "TLS version: ..." *)
| Progress (bytes_sent file_size : nat)
| Newline
| SentOk                          (* "File sent successfully." *)
| SSLErrorLine (e : exn)
| ConnectionErrorLine (e : exn)
| ErrorLine (e : exn)
| ClosedLine                      (* "Connection to ... closed." *)
| Usage
| PortNotNumber.

Record world : Type := mkWorld {
  files : gmap pystr bytes;       (* regular files, by path *)
  out : list line;
  trace : list op;
  wire : bytes;                   (* what has reached the peer *)
  send_script : list send_event;
  secure_socket : bool            (* is the local variable bound? *)
}.

Definition print (l : line) : M world unit :=
  modify (fun w =>
    mkWorld (files w) (out w ++ [l]) (trace w) (wire w) (send_script w)
            (secure_socket w)).

Definition log_op (o : op) : M world unit :=
  modify (fun w =>
    mkWorld (files w) (out w) (trace w ++ [o]) (wire w) (send_script w)
            (secure_socket w)).

Definition bind_secure_socket (b : bool) : M world unit :=
  modify (fun w =>
    mkWorld (files w) (out w) (trace w) (wire w) (send_script w) b).

(** [secure_socket.sendall(data)]. *)
Definition sendall (data : bytes) : M world unit :=
  fun w =>
    match send_script w with
    | [] =>
        (Ok tt,
         mkWorld (files w) (out w) (trace w ++ [OpSend data])
                 (wire w ++ data) [] (secure_socket w))
    | SendOk :: s =>
        (Ok tt,
         mkWorld (files w) (out w) (trace w ++ [OpSend data])
                 (wire w ++ data) s (secure_socket w))
    | SendRaises k e :: s =>
        (Raise e,
         mkWorld (files w) (out w) (trace w ++ [OpSend data])
                 (wire w ++ take k data) s (secure_socket w))
    end.

(** [os.path.getsize(file_path)]. *)
Definition getsize (file_path : pystr) : M world nat :=
  fun w =>
    match files w !! file_path with
    | Some content => (Ok (List.length content), w)
    | None => (Raise FileNotFoundError, w)
    end.

(** [open(file_path, 'rb')]: what is left to read of the file. *)
Definition open_rb (file_path : pystr) : M world bytes :=
  fun w =>
    match files w !! file_path with
    | Some content => (Ok content, w)
    | None => (Raise FileNotFoundError, w)
    end.

Definition encode (s : pystr) : M world bytes :=
  match Utf8.encode s with
  | Some bs => ret bs
  | None => raise UnicodeEncodeError
  end.

Definition to_bytes4 (n : nat) : M world bytes :=
  match BigEndian.to_bytes4 (N.of_nat n) with
  | Some bs => ret bs
  | None => raise OverflowError
  end.

(** [(bytes_sent / file_size) * 100]: only whether the division is
    defined matters to the control flow. *)
Definition progress (bytes_sent file_size : nat) : M world line :=
  match file_size with
  | O => raise ZeroDivisionError
  | S _ => ret (Progress bytes_sent file_size)
  end.

(** The [while True] loop that reads and sends the file; [rest] is what
    [file.read] has not returned yet. *)
Fixpoint send_chunks (fuel : nat) (rest : bytes) (bytes_sent file_size : nat)
  : M world unit :=
  match fuel with
  | O => stuck
  | S fuel' =>
      let data := take 1024 rest in
      match data with
      | [] => ret tt
      | _ =>
          sendall data ;;;
          let bytes_sent' := (bytes_sent + List.length data)%nat in
          let* l := progress bytes_sent' file_size in
          print l ;;;
          send_chunks fuel' (drop 1024 rest) bytes_sent' file_size
      end
  end.

(** The body of the [try] of [send_file], from [connect] on. *)
Definition stream_file (e : env) (file_path : pystr) : M world unit :=
  log_op OpConnect ;;;
  may_raise (connect_err e) ;;;
  print Connected ;;;
  print UsingCipher ;;;
  print TLSVersion ;;;
  let file_name := file_name_of file_path in
  let* file_size := getsize file_path in
  let* encoded := encode file_name in
  let name_length := List.length encoded in
  let* header := to_bytes4 name_length in
  sendall header ;;;
  let* encoded' := encode file_name in
  sendall encoded' ;;;
  let* file := open_rb file_path in
  send_chunks (S (List.length file)) file 0 file_size ;;;
  print Newline ;;;
  print SentOk.

(** The body of the [try] of [send_file]. *)
Definition transfer (e : env) (file_path : pystr) : M world unit :=
  may_raise (context_err e) ;;;
  may_raise (wrap_err e) ;;;
  bind_secure_socket true ;;;
  stream_file e file_path.

(** The [finally] of [send_file]. *)
Definition close_session (e : env) : M world unit :=
  let* bound := gets secure_socket in
  (if bound : bool then
     swallow (log_op OpShutdown ;;; may_raise (shutdown_err e)) ;;;
     log_op OpClose
   else ret tt) ;;;
  print ClosedLine.

Definition not_found : string := "File not found.".

Definition send_file (e : env) (file_path : pystr) : M world unit :=
  bind_secure_socket false ;;;
  let* found := gets (fun w => bool_decide (is_Some (files w !! file_path))) in
  (if found : bool then ret tt else raise (AssertionError not_found)) ;;;
  log_op OpSocket ;;;
  may_raise (socket_err e) ;;;
  try_finally
    (try_except (transfer e file_path)
       [(is_SSLError, fun x => print (SSLErrorLine x));
        (is_ConnectionError, fun x => print (ConnectionErrorLine x));
        (is_Exception, fun x => print (ErrorLine x))])
    (close_session e).

Definition port_message : string :=
  "Port number should be between 1024 and 65535.".

Section Main.
(** [int(s)], Python's parser of integer literals. *)
Variable py_int : pystr -> option Z.

(** The [__main__] block; the value is the argument of [sys.exit], or
    [0] when the block runs to its end. *)
Definition main (e : env) (argv : list pystr) : M world Z :=
  match argv with
  | [_; _; port_arg; file_path] =>
      try_except
        (let* server_port :=
           match py_int port_arg with
           | Some p => ret p
           | None => raise (ValueError "invalid literal for int()")
           end in
         (if (1024 <=? server_port)%Z && (server_port <=? 65535)%Z
          then ret tt else raise (AssertionError port_message)) ;;;
         send_file e file_path)
        [(is_ValueError, fun _ => print PortNotNumber)] ;;;
      ret 0%Z
  | _ => print Usage ;;; ret 1%Z
  end.
End Main.

(** The exit status of the process: that of [sys.exit], or [1] when an
    exception reaches the top level. *)
Definition exit_status (r : res Z) : option Z :=
  match r with
  | Ok z => Some z
  | Raise _ => Some 1%Z
  | Stuck => None
  end.

(** [int] on a string of ASCII digits. *)
Definition digits_to_int (s : pystr) : option Z :=
  match s with
  | [] => None
  | _ =>
      fold_left
        (fun acc c =>
           match acc with
           | Some n =>
               if (48 <=? c) && (c <=? 57)
               then Some (n * 10 + Z.of_N (c - 48))%Z
               else None
           | None => None
           end)
        s (Some 0%Z)
  end.

End Client.

(** ** The reading loops as functions of the scripts

    What the two loops of the server compute, written by recursion on the
    script of [recv]; the loops are shown below to agree with them. *)

Module Stream.
Import Server.

(** The outcome of the loop of [receive_data] started with [data] already
    read: the result, and the script and bytes in flight left over. *)
Fixpoint read_exact (s : list recv_event) (p : bytes) (length : nat)
  (data : bytes) {struct s} : res bytes * (list recv_event * bytes) :=
  if (List.length data <? length)%nat then
    match s with
    | [] =>
        if (length - List.length data <=? List.length p)%nat
        then (Ok (data ++ take (length - List.length data) p),
              ([], drop (length - List.length data) p))
        else (Raise closed_by_client, ([], []))
    | Short k :: s' =>
        let m := Nat.min (S k) (Nat.min (length - List.length data) 1024) in
        match take m p with
        | [] => (Raise closed_by_client, (s', drop m p))
        | _ => read_exact s' (drop m p) length (data ++ take m p)
        end
    | RecvRaises e :: s' =>
        if is_SSLWantReadError e then read_exact s' p length data
        else (Raise e, (s', p))
    end
  else (Ok data, (s, p)).

(** The outcome of the payload loop: the result, the bytes written to the
    file, and the script and bytes in flight left over. *)
Fixpoint drain (s : list recv_event) (p : bytes)
  : res unit * (bytes * (list recv_event * bytes)) :=
  match s with
  | [] => (Ok tt, (p, ([], [])))
  | Short k :: s' =>
      let m := Nat.min (S k) 1024 in
      match take m p with
      | [] => (Ok tt, ([], (s', drop m p)))
      | _ =>
          let '(r, (written, rest)) := drain s' (drop m p) in
          (r, (take m p ++ written, rest))
      end
  | RecvRaises e :: s' =>
      if is_SSLWantReadError e then drain s' p
      else if is_SSLError e && str_contains unexpected_eof (exn_str e)
           then (Ok tt, ([], (s', p)))
           else (Raise e, ([], (s', p)))
  end.

(** The file system after [written] went to the file [name] in one or
    more [file.write] calls. *)
Definition write_all (name : pystr) (written : bytes)
  (f : gmap pystr bytes) : gmap pystr bytes :=
  match written with
  | [] => f
  | _ => <[name := default [] (f !! name) ++ written]> f
  end.

(** A script entry that only makes the reader try again. *)
Definition is_want_read (ev : recv_event) : bool :=
  match ev with
  | RecvRaises e => is_SSLWantReadError e
  | Short _ => false
  end.

(** The script without its "not ready yet" entries. *)
Definition strip (s : list recv_event) : list recv_event :=
  List.filter (fun ev => negb (is_want_read ev)) s.

(** A script that only fragments the stream or asks to try again. *)
Definition benign (s : list recv_event) : Prop :=
  Forall (fun ev => match ev with
                    | Short _ => True
                    | RecvRaises e => e = SSLWantReadError
                    end) s.

(** Two states of the server that differ at most in the script of
    [select] and in the "not ready yet" entries of the script of [recv]. *)
Definition similar (w1 w2 : world) : Prop :=
  fs w1 = fs w2 /\ out w1 = out w2 /\ trace w1 = trace w2 /\
  client_socket w1 = client_socket w2 /\ next_id w1 = next_id w2 /\
  pending (cur w1) = pending (cur w2) /\
  shutdown_err (cur w1) = shutdown_err (cur w2) /\
  strip (recv_script (cur w1)) = strip (recv_script (cur w2)).

(** Two computations that cannot be told apart from similar states. *)
Definition indistinguishable {A} (m1 m2 : M world A) : Prop :=
  forall w1 w2, similar w1 w2 ->
    fst (m1 w1) = fst (m2 w2) /\ similar (snd (m1 w1)) (snd (m2 w2)).

(** A computation that keeps to the stream: it touches neither the log of
    socket calls nor the local variables, and its loops come to an end. *)
Definition frame (w w' : world) : Prop :=
  trace w' = trace w /\ client_socket w' = client_socket w /\
  next_id w' = next_id w /\ shutdown_err (cur w') = shutdown_err (cur w).

Definition quiet {A} (m : M world A) : Prop :=
  forall w, fst (m w) <> Stuck /\ frame w (snd (m w)).

(** A computation that never lets the "not ready yet" signal out. *)
Definition retries {A} (m : M world A) : Prop :=
  forall w e, fst (m w) = Raise e -> is_SSLWantReadError e = false.

(** The state of the server when a connection carrying [wire] comes in,
    with the scripts [s] and [sel] for [recv] and [select]. *)
Definition incoming (wire : bytes) (s : list recv_event) (sel : list bool)
  (w : world) : world :=
  set_cur (mkConn wire s sel (shutdown_err (cur w))) w.

Definition with_recv_script (s : list recv_event) (w : world) : world :=
  incoming (pending (cur w)) s (select_script (cur w)) w.

Definition with_select_script (sel : list bool) (w : world) : world :=
  incoming (pending (cur w)) (recv_script (cur w)) sel w.

End Stream.

(** ** What the client does to its socket *)

Module Socket.
Import Client.

(** Socket calls made between the creation of the socket and its
    teardown. *)
Definition io_op (o : op) : Prop :=
  match o with
  | OpConnect | OpSend _ => True
  | OpSocket | OpShutdown | OpClose => False
  end.

(** [w'] comes after [w] by connecting and sending only. *)
Definition grows (w w' : world) : Prop :=
  files w' = files w /\
  exists mid, trace w' = trace w ++ mid /\ Forall io_op mid.

Definition steady {A} (m : M world A) : Prop :=
  forall w, fst (m w) <> Stuck /\ grows w (snd (m w))
            /\ secure_socket (snd (m w)) = secure_socket w.

(** An environment in which no call on the socket fails. *)
Definition reliable (e : env) : Prop :=
  socket_err e = None /\ context_err e = None /\ wrap_err e = None /\
  connect_err e = None.

Definition all_sent (s : list send_event) : Prop :=
  Forall (fun ev => ev = SendOk) s.

End Socket.

(** ** The [__main__] block of the server *)

Module ServerCli.

(** The lines that the [__main__] block itself prints. *)
Inductive notice : Type :=
| Usage                           (* "Usage: SecureNetFileXferServer.py <PORT>" *)
| PortNotNumber.                  (* "Port should be a number." *)

(** The state of the server together with the lines of [__main__]. *)
Record world : Type := mkWorld {
  server : Server.world;
  notices : list notice
}.

(** [start_server] run from [__main__]. *)
Definition lift {A} (m : M Server.world A) : M world A :=
  fun w =>
    match m (server w) with
    | (r, s) => (r, mkWorld s (notices w))
    end.

Definition print (n : notice) : M world unit :=
  modify (fun w => mkWorld (server w) (notices w ++ [n])).

(** How the block ends: with an exit status, or never, the server waiting
    in [accept]. *)
Inductive ending : Type :=
| Exits (code : Z)
| Serving.

Section Main.
(** [int(s)], Python's parser of integer literals. *)
Variable py_int : pystr -> option Z.

Definition main (su : Server.startup) (arrivals : list Server.arrival)
  (argv : list pystr) : M world ending :=
  match argv with
  | [_; port_arg] =>
      try_except
        (let* port :=
           match py_int port_arg with
           | Some p => ret p
           | None => raise (ValueError "invalid literal for int()")
           end in
         lift (Server.start_server port su arrivals) ;;;
         ret Serving)
        [(is_ValueError, fun _ => print PortNotNumber ;;; ret (Exits 0))]
  | _ => print Usage ;;; ret (Exits 1)
  end.
End Main.

(** The exit status of the process, if it ends: that of [sys.exit], [0]
    when the block runs to its end, [1] when an exception reaches the top
    level. *)
Definition exit_status (r : res ending) : option Z :=
  match r with
  | Ok (Exits z) => Some z
  | Ok Serving => None
  | Raise _ => Some 1%Z
  | Stuck => None
  end.

End ServerCli.

(** ** The chunks of a file *)

Module Chunking.

(** The successive results of [file.read(size)] on [data], up to the first
    empty one. *)
Fixpoint chunks (fuel : nat) (size : nat) (data : bytes) : list bytes :=
  match fuel with
  | O => []
  | S fuel' =>
      match take size data with
      | [] => []
      | c => c :: chunks fuel' size (drop size data)
      end
  end.

Definition file_chunks (data : bytes) : list bytes :=
  chunks (S (List.length data)) 1024 data.

(** The values [bytes_sent] takes, starting from [sent]. *)
Fixpoint running (sent : nat) (cs : list bytes) : list nat :=
  match cs with
  | [] => []
  | c :: cs' =>
      (sent + List.length c)%nat :: running (sent + List.length c) cs'
  end.

End Chunking.

(** ** Sample runs *)

Module Scenario.

(** A Python string holding plain ASCII text. *)
Definition text (s : string) : pystr :=
  List.map N_of_ascii (list_ascii_of_string s).

Definition report_path : pystr := text "out/report.txt".
Definition report_name : pystr := text "report.txt".
Definition report : bytes := [x68; x65; x6c; x6c; x6f; x0a].

(** A client whose disk holds the report, and one whose disk is empty. *)
Definition client_with_report : Client.world :=
  Client.mkWorld {[ report_path := report ]} [] [] [] [] false.

Definition client_with_empty_file : Client.world :=
  Client.mkWorld {[ text "empty.dat" := [] ]} [] [] [] [] false.

Definition bare_client : Client.world :=
  Client.mkWorld ∅ [] [] [] [] false.

(** No call on the socket fails, except the [shutdown] at the end, as it
    does once the peer is gone. *)
Definition calm : Client.env :=
  Client.mkEnv None None None None (Some (OSError "not connected")).

(** The connection is refused. *)
Definition refused : Client.env :=
  Client.mkEnv None None None (Some (ConnectionError "refused")) None.

Definition idle_server : Server.world :=
  Server.mkWorld ∅ [] [] (Server.mkConn [] [] [] None) None 0.

(** A stream that comes in pieces, with stalls. *)
Definition choppy : list Server.recv_event :=
  [Server.Short 0; Server.RecvRaises SSLWantReadError; Server.Short 2;
   Server.RecvRaises SSLWantReadError; Server.Short 6].

Definition argv_report : list pystr :=
  [text "SecureNetFileXferClient.py"; text "127.0.0.1"; text "8443";
   report_path].

Definition argv_missing : list pystr :=
  [text "SecureNetFileXferClient.py"; text "127.0.0.1"; text "8443";
   text "missing.txt"].

Definition ready_to_serve : Server.startup :=
  Server.mkStartup None None None None None None.

(** A failed [accept], a failed handshake, and a client that goes away
    after two bytes. *)
Definition bad_clients : list Server.arrival :=
  [Server.AcceptRaises (OSError "accept failed");
   Server.Arrives (Some (SSLError "handshake failure"))
     (Server.mkConn [] [] [] None);
   Server.Arrives None
     (Server.mkConn [x00; x00] [] [false] (Some (OSError "not connected")))].

End Scenario.

(** * Properties *)

(** ** Bytes, integers and UTF-8 *)

Lemma to_N_byte_of_N n : n < 256 -> Byte.to_N (byte_of_N n) = n.
Proof.
  intros Hn. unfold byte_of_N.
  rewrite N.mod_small by exact Hn.
  destruct (Byte.of_N n) as [b|] eqn:E.
  - now apply Byte.to_of_N.
  - apply Byte.of_N_None_iff in E. lia.
Qed.

Module BigEndianFacts.
Import BigEndian.

Lemma to_N_byte_of_N_mod n : Byte.to_N (byte_of_N n) = n mod 256.
Proof.
  unfold byte_of_N.
  destruct (Byte.of_N (n mod 256)) as [b|] eqn:E.
  - now apply Byte.to_of_N.
  - apply Byte.of_N_None_iff in E.
    pose proof (N.mod_upper_bound n 256). lia.
Qed.

Lemma to_bytes4_length n bs : to_bytes4 n = Some bs -> length bs = 4%nat.
Proof.
  unfold to_bytes4. destruct (n <? 2 ^ 32); intros [= <-]; reflexivity.
Qed.

Lemma to_bytes4_Some n : n < 2 ^ 32 -> is_Some (to_bytes4 n).
Proof.
  intros Hn. unfold to_bytes4.
  apply N.ltb_lt in Hn. rewrite Hn. eauto.
Qed.

Lemma from_to_bytes4 n bs : to_bytes4 n = Some bs -> from_bytes bs = n.
Proof.
  unfold to_bytes4. destruct (n <? 2 ^ 32) eqn:E; intros [= <-].
  apply N.ltb_lt in E.
  unfold from_bytes. cbn [fold_left].
  rewrite !to_N_byte_of_N_mod.
  change (2 ^ 32) with 4294967296 in E.
  change (2 ^ 24) with 16777216. change (2 ^ 16) with 65536.
  change (2 ^ 8) with 256.
  lia.
Qed.

End BigEndianFacts.

Module Utf8Facts.
Import Utf8.

Ltac to_arith :=
  repeat match goal with
    | H : (_ <? _) = true |- _ => apply N.ltb_lt in H
    | H : (_ <? _) = false |- _ => apply N.ltb_ge in H
    | H : (_ <=? _) = true |- _ => apply N.leb_le in H
    | H : (_ <=? _) = false |- _ => apply N.leb_gt in H
    | H : (_ && _) = true |- _ => apply andb_true_iff in H; destruct H
    | H : (_ && _) = false |- _ => apply andb_false_iff in H
    end.

Ltac bool_goal :=
  repeat match goal with
    | |- (_ && _) = true => apply andb_true_iff; split
    | |- negb _ = true => apply negb_true_iff
    | |- (_ <? _) = true => apply N.ltb_lt
    | |- (_ <? _) = false => apply N.ltb_ge
    | |- (_ <=? _) = true => apply N.leb_le
    | |- (_ <=? _) = false => apply N.leb_gt
    | |- (_ || _) = false => apply orb_false_iff; split
    end.

Lemma rebuild4 c :
  c / 262144 * 262144 + (c / 4096) mod 64 * 4096 + (c / 64) mod 64 * 64
  + c mod 64 = c.
Proof.
  replace (c / 262144) with (c / 64 / 64 / 64)
    by (rewrite !N.Div0.div_div; reflexivity).
  replace (c / 4096) with (c / 64 / 64)
    by (rewrite !N.Div0.div_div; reflexivity).
  lia.
Qed.

Lemma decode_encode_cp c b rest :
  encode_cp c = Some b ->
  decode (b ++ rest) = option_map (cons c) (decode rest).
Proof.
  unfold encode_cp.
  destruct (c <? 0x80) eqn:E1.
  { intros [= <-]. to_arith. cbn [app decode].
    rewrite to_N_byte_of_N by lia.
    apply N.ltb_lt in E1. now rewrite E1. }
  destruct (c <? 0x800) eqn:E2.
  { intros [= <-]. to_arith. cbn [app decode]. unfold is_cont, payload.
    rewrite !to_N_byte_of_N by lia.
    replace (0xC0 + c / 64 <? 0x80) with false by (symmetry; bool_goal; lia).
    replace (0xC0 + c / 64 <? 0xC2) with false by (symmetry; bool_goal; lia).
    replace (0xC0 + c / 64 <? 0xE0) with true by (symmetry; bool_goal; lia).
    replace ((0x80 <=? 0x80 + c mod 64) && (0x80 + c mod 64 <? 0xC0))
      with true by (symmetry; bool_goal; lia).
    f_equal. f_equal. lia. }
  destruct (c <? 0x10000) eqn:E3.
  { destruct (is_surrogate c) eqn:Es; [discriminate|].
    intros [= <-]. to_arith.
    cbn [app decode]. unfold is_cont, payload.
    rewrite !to_N_byte_of_N by lia.
    replace (0xE0 + c / 4096 <? 0x80) with false by (symmetry; bool_goal; lia).
    replace (0xE0 + c / 4096 <? 0xC2) with false by (symmetry; bool_goal; lia).
    replace (0xE0 + c / 4096 <? 0xE0) with false by (symmetry; bool_goal; lia).
    replace (0xE0 + c / 4096 <? 0xF0) with true by (symmetry; bool_goal; lia).
    replace ((0xE0 + c / 4096 - 0xE0) * 4096
             + (0x80 + (c / 64) mod 64 - 0x80) * 64
             + (0x80 + c mod 64 - 0x80)) with c by lia.
    replace ((0x80 <=? 0x80 + (c / 64) mod 64)
             && (0x80 + (c / 64) mod 64 <? 0xC0)) with true
      by (symmetry; bool_goal; lia).
    replace ((0x80 <=? 0x80 + c mod 64) && (0x80 + c mod 64 <? 0xC0))
      with true by (symmetry; bool_goal; lia).
    replace (c <? 0x800) with false by (symmetry; bool_goal; lia).
    rewrite Es. reflexivity. }
  destruct (c <? 0x110000) eqn:E4; [|discriminate].
  intros [= <-]. to_arith.
  cbn [app decode]. unfold is_cont, payload.
  rewrite !to_N_byte_of_N by lia.
  replace (0xF0 + c / 262144 <? 0x80) with false by (symmetry; bool_goal; lia).
  replace (0xF0 + c / 262144 <? 0xC2) with false by (symmetry; bool_goal; lia).
  replace (0xF0 + c / 262144 <? 0xE0) with false by (symmetry; bool_goal; lia).
  replace (0xF0 + c / 262144 <? 0xF0) with false by (symmetry; bool_goal; lia).
  replace (0xF0 + c / 262144 <? 0xF5) with true by (symmetry; bool_goal; lia).
  replace ((0xF0 + c / 262144 - 0xF0) * 262144
           + (0x80 + (c / 4096) mod 64 - 0x80) * 4096
           + (0x80 + (c / 64) mod 64 - 0x80) * 64
           + (0x80 + c mod 64 - 0x80)) with c
    by (pose proof (rebuild4 c); lia).
  replace ((0x80 <=? 0x80 + (c / 4096) mod 64)
           && (0x80 + (c / 4096) mod 64 <? 0xC0)) with true
    by (symmetry; bool_goal; lia).
  replace ((0x80 <=? 0x80 + (c / 64) mod 64)
           && (0x80 + (c / 64) mod 64 <? 0xC0)) with true
    by (symmetry; bool_goal; lia).
  replace ((0x80 <=? 0x80 + c mod 64) && (0x80 + c mod 64 <? 0xC0))
    with true by (symmetry; bool_goal; lia).
  replace (c <? 0x10000) with false by (symmetry; bool_goal; lia).
  replace (c <? 0x110000) with true by (symmetry; bool_goal; lia).
  reflexivity.
Qed.

(** Decoding inverts encoding. *)
Lemma decode_encode s bs : encode s = Some bs -> decode bs = Some s.
Proof.
  revert bs. induction s as [|c s IH]; intros bs.
  - intros [= <-]. reflexivity.
  - cbn [encode].
    destruct (encode_cp c) as [b|] eqn:Ec; [|discriminate].
    destruct (encode s) as [bs'|] eqn:Es; [|discriminate].
    intros [= <-].
    rewrite (decode_encode_cp _ _ _ Ec), (IH _ eq_refl). reflexivity.
Qed.

End Utf8Facts.

(** ** The reading loops of the server *)

Module ServerFacts.
Import Server Stream.

Lemma set_cur_same w :
  set_cur (mkConn (pending (cur w)) (recv_script (cur w))
                  (select_script (cur w)) (shutdown_err (cur w))) w = w.
Proof. destruct w as [f o t [p s sel sd] cs n]. reflexivity. Qed.

Lemma take_nil_inv {A} (n : nat) (l : list A) :
  (0 < n)%nat -> take n l = [] -> l = [].
Proof. destruct n, l; simpl; intros; try lia; congruence. Qed.

Lemma read_exact_nil_step p length data n :
  (List.length data < length)%nat ->
  n = Nat.min (length - List.length data) 1024 ->
  take n p <> [] ->
  read_exact [] (drop n p) length (data ++ take n p)
  = read_exact [] p length data.
Proof.
  intros Hlt Hn Hne. cbn [read_exact].
  assert (Hp : (0 < List.length p)%nat).
  { destruct p; [destruct n; simpl in Hne; congruence | simpl; lia]. }
  pose proof (length_take p n) as Hlen. pose proof (length_drop p n) as Hdr.
  rewrite length_app.
  destruct (Nat.ltb_spec (List.length data) length) as [_|]; [|lia].
  destruct (Nat.ltb_spec (List.length data + List.length (take n p)) length)
    as [H1|H1].
  - destruct (Nat.leb_spec (length - List.length data) (List.length p)) as [H2|H2].
    + destruct (Nat.leb_spec (length - (List.length data + List.length (take n p)))
                  (List.length (drop n p))) as [H3|H3]; [|lia].
      rewrite Hlen in *. replace (n `min` List.length p)%nat with n in * by lia.
      rewrite <- app_assoc, drop_drop.
      replace (length - (List.length data + n))%nat
        with (length - List.length data - n)%nat by lia.
      rewrite take_take_drop.
      replace (n + (length - List.length data - n))%nat
        with (length - List.length data)%nat by lia.
      reflexivity.
    + destruct (Nat.leb_spec (length - (List.length data + List.length (take n p)))
                  (List.length (drop n p))) as [H3|H3]; [lia|].
      reflexivity.
  - destruct (Nat.leb_spec (length - List.length data) (List.length p)) as [H2|H2];
      [|lia].
    replace (length - List.length data)%nat with n by lia. reflexivity.
Qed.

Lemma receive_data_loop_spec fuel : forall length data w,
  (List.length (recv_script (cur w)) + List.length (pending (cur w)) < fuel)%nat ->
  receive_data_loop fuel length data w =
  (fst (read_exact (recv_script (cur w)) (pending (cur w)) length data),
   set_cur (mkConn (snd (snd (read_exact (recv_script (cur w)) (pending (cur w)) length data)))
                   (fst (snd (read_exact (recv_script (cur w)) (pending (cur w)) length data)))
                   (select_script (cur w)) (shutdown_err (cur w))) w).
Proof.
  induction fuel as [|fuel IH]; intros length data w Hfuel; [lia|].
  cbn [receive_data_loop].
  destruct (List.length data <? length)%nat eqn:E.
  - pose proof (proj1 (Nat.ltb_lt _ _) E) as Elt.
    destruct w as [f o t [p s sel sd] cs n]. cbn [cur recv_script pending select_script shutdown_err] in *.
    destruct s as [|[k|e] s'].
    + unfold bind at 1. unfold try_except, bind, recv.
      cbn [cur recv_script pending select_script shutdown_err].
      set (m := Nat.min (length - List.length data) 1024).
      destruct (take m p) as [|b chunk] eqn:Et.
      * apply take_nil_inv in Et; [|lia]. subst p.
        cbn -[Nat.ltb Nat.leb Nat.min Nat.sub firstn skipn]. rewrite E.
        destruct (Nat.leb_spec (length - List.length data) 0); [lia|].
        cbn -[Nat.ltb Nat.leb Nat.min Nat.sub firstn skipn]. rewrite drop_nil. reflexivity.
      * unfold ret. rewrite <- Et.
        rewrite IH.
        2:{ cbn. rewrite length_drop.
            assert (0 < List.length (take m p))%nat by (rewrite Et; simpl; lia).
            rewrite length_take in H. cbn in Hfuel. lia. }
        cbn [cur recv_script pending select_script shutdown_err set_cur fs out trace client_socket next_id].
        rewrite read_exact_nil_step; [reflexivity|lia|reflexivity|].
        rewrite Et. discriminate.
    + unfold bind at 1. unfold try_except, bind, recv.
      cbn [cur recv_script pending select_script shutdown_err].
      cbn [read_exact]. rewrite E.
      set (m := Nat.min (S k) (Nat.min (length - List.length data) 1024)).
      destruct (take m p) as [|b chunk] eqn:Et.
      * cbn. reflexivity.
      * unfold ret. rewrite <- Et. rewrite IH.
        2:{ cbn. rewrite length_drop. cbn in Hfuel. lia. }
        reflexivity.
    + unfold bind at 1. unfold try_except, bind, recv.
      cbn [cur recv_script pending select_script shutdown_err].
      cbn [read_exact]. rewrite E.
      destruct e; cbn [dispatch is_SSLWantReadError]; unfold raise, ret;
        try reflexivity.
      rewrite IH; [reflexivity|]. cbn in *. lia.
  - unfold ret.
    assert (Hr : read_exact (recv_script (cur w)) (pending (cur w)) length data
                 = (Ok data, (recv_script (cur w), pending (cur w)))).
    { destruct (recv_script (cur w)); cbn [read_exact]; rewrite E; reflexivity. }
    rewrite Hr. cbn [fst snd]. now rewrite set_cur_same.
Qed.


Lemma write_all_app (name : pystr) (chunk rest : bytes) (f : gmap pystr bytes) :
  chunk <> [] ->
  write_all name rest (<[name := default [] (f !! name) ++ chunk]> f)
  = write_all name (chunk ++ rest) f.
Proof.
  intros Hne. unfold write_all.
  destruct rest as [|b rest].
  - rewrite app_nil_r. destruct chunk; [congruence|reflexivity].
  - rewrite lookup_insert_eq, insert_insert_eq.
    change (default [] (Some (default [] (f !! name) ++ chunk)))
      with (default [] (f !! name) ++ chunk).
    rewrite <- app_assoc.
    destruct chunk; [congruence|reflexivity].
Qed.

Ltac step :=
  cbv beta iota zeta delta
    [bind try_except try_finally ret raise stuck modify gets dispatch swallow
     may_raise recv select file_write open_wb print log_op set_fs set_cur
     fs out trace cur client_socket next_id
     pending recv_script select_script shutdown_err
     is_SSLWantReadError is_SSLError is_ConnectionError is_Exception
     exn_str negb andb].

Lemma payload_loop_spec fuel : forall (name : pystr) w r written s' p',
  (List.length (select_script (cur w)) + List.length (recv_script (cur w))
   + List.length (pending (cur w)) < fuel)%nat ->
  drain (recv_script (cur w)) (pending (cur w)) = (r, (written, (s', p'))) ->
  exists sel',
    payload_loop fuel name w =
    (r, set_fs (write_all name written (fs w))
          (set_cur (mkConn p' s' sel' (shutdown_err (cur w))) w)).
Proof.
  induction fuel as [|fuel IH]; intros name w r written s' p' Hfuel Hd; [lia|].
  destruct w as [f o t [p s sel sd] cs n].
  cbn [cur recv_script pending select_script shutdown_err fs] in *.
  (* what happens once [select] has answered that data is there *)
  assert (Hready : forall sel0,
    (List.length sel0 + List.length s + List.length p <= fuel)%nat ->
    exists sel',
      (let* c :=
         try_except
           (let* data := recv 1024 in
            match data with
            | [] => ret Break
            | _ => file_write name data ;;; ret Continue
            end)
           [(is_SSLWantReadError, fun _ => ret Continue);
            (is_SSLError, fun e =>
               if str_contains unexpected_eof (exn_str e)
               then ret Break else raise e)] in
       match c with
       | Break => ret tt
       | Continue => payload_loop fuel name
       end) (mkWorld f o t (mkConn p s sel0 sd) cs n) =
      (r, set_fs (write_all name written f)
            (set_cur (mkConn p' s' sel' sd)
               (mkWorld f o t (mkConn p s sel0 sd) cs n)))).
  { intros sel0 Hle.
    destruct s as [|[k|e] s0].
    - cbn [drain] in Hd. injection Hd as <- <- <- <-.
      step.
      destruct (take 1024 p) as [|b chunk] eqn:Et.
      + apply take_nil_inv in Et; [|lia]. subst p.
        exists sel0. reflexivity.
      + edestruct (IH name
          (mkWorld (<[name:=default [] (f !! name) ++ b :: chunk]> f) o t
                   (mkConn (drop 1024 p) [] sel0 sd) cs n))
          as [sel' Hl].
        { cbn. rewrite length_drop.
          assert (0 < List.length (take 1024 p))%nat by (rewrite Et; simpl; lia).
          rewrite length_take in H. cbn in Hle. lia. }
        { cbn [cur recv_script pending drain]. reflexivity. }
        exists sel'. rewrite Hl. step.
        rewrite write_all_app by discriminate.
        rewrite <- Et. now rewrite take_drop.
    - cbn [drain] in Hd. step.
      set (m := Nat.min (S k) 1024) in *.
      destruct (take m p) as [|b chunk] eqn:Et.
      + injection Hd as <- <- <- <-. exists sel0. reflexivity.
      + destruct (drain s0 (drop m p)) as [r0 [written0 [s1 p1]]] eqn:Hd0.
        injection Hd as <- <- <- <-.
        edestruct (IH name
          (mkWorld (<[name:=default [] (f !! name) ++ b :: chunk]> f) o t
                   (mkConn (drop m p) s0 sel0 sd) cs n))
          as [sel' Hl].
        { cbn. rewrite length_drop. cbn in Hle. lia. }
        { cbn [cur recv_script pending]. exact Hd0. }
        exists sel'. rewrite Hl. step.
        rewrite write_all_app by discriminate. reflexivity.
    - cbn [drain] in Hd.
      destruct e; step;
        cbn [is_SSLWantReadError is_SSLError andb exn_str] in Hd;
        try (injection Hd as <- <- <- <-; exists sel0; reflexivity).
      + edestruct (IH name (mkWorld f o t (mkConn p s0 sel0 sd) cs n))
          as [sel' Hl]; [cbn; cbn in Hle; lia | exact Hd |].
        exists sel'. exact Hl.
      + destruct (str_contains unexpected_eof msg);
          injection Hd as <- <- <- <-; exists sel0; reflexivity.
  }
  cbn [payload_loop]. unfold bind at 1. unfold select.
  cbn [cur recv_script pending select_script shutdown_err].
  destruct sel as [|[|] sel]; cbn [negb].
  - destruct (Hready []) as [sel' Hl]; [cbn in *; lia|].
    exists sel'. exact Hl.
  - destruct (Hready sel) as [sel' Hl]; [cbn in *; lia|].
    exists sel'. exact Hl.
  - edestruct (IH name (mkWorld f o t (mkConn p s sel sd) cs n))
      as [sel' Hl]; [cbn in *; lia | exact Hd |].
    exists sel'. exact Hl.
Qed.


(** *** The loops never run out of iterations *)

Lemma read_exact_done s p length data :
  (List.length data <? length)%nat = false ->
  read_exact s p length data = (Ok data, (s, p)).
Proof. intros E. destruct s; cbn [read_exact]; rewrite E; reflexivity. Qed.

Lemma read_exact_not_stuck s : forall p length data,
  fst (read_exact s p length data) <> Stuck.
Proof.
  induction s as [|[k|e] s IH]; intros p length data; cbn [read_exact];
    destruct (List.length data <? length)%nat; try discriminate.
  - destruct (_ <=? _)%nat; discriminate.
  - destruct (take _ p); [discriminate | apply IH].
  - destruct (is_SSLWantReadError e); [apply IH | discriminate].
Qed.

Lemma drain_not_stuck s : forall p, fst (drain s p) <> Stuck.
Proof.
  induction s as [|[k|e] s IH]; intros p; cbn [drain]; try discriminate.
  - destruct (take _ p); [discriminate|].
    specialize (IH (drop (Nat.min (S k) 1024) p)).
    destruct (drain s _) as [r [written rest]]. exact IH.
  - destruct (is_SSLWantReadError e); [apply IH|].
    destruct (_ && _); discriminate.
Qed.

(** *** "Not ready yet" entries do not change what is read *)

Lemma read_exact_strip s : forall p length data,
  read_exact (strip s) p length data =
  (fst (read_exact s p length data),
   (strip (fst (snd (read_exact s p length data))),
    snd (snd (read_exact s p length data)))).
Proof.
  induction s as [|[k|e] s IH]; intros p length data.
  - cbn [strip List.filter read_exact].
    destruct (_ <? _)%nat; [destruct (_ <=? _)%nat|]; reflexivity.
  - destruct (List.length data <? length)%nat eqn:E.
    + cbn [strip List.filter is_want_read negb read_exact]. rewrite E.
      destruct (take _ p); [reflexivity | apply IH].
    + rewrite !read_exact_done by exact E. reflexivity.
  - destruct (List.length data <? length)%nat eqn:E.
    + cbn [strip List.filter is_want_read read_exact]. rewrite E.
      destruct (is_SSLWantReadError e) eqn:Ee; cbn [negb].
      * apply IH.
      * cbn [read_exact]. rewrite E, Ee. reflexivity.
    + rewrite !read_exact_done by exact E. reflexivity.
Qed.

Lemma drain_strip s : forall p,
  drain (strip s) p =
  (fst (drain s p),
   (fst (snd (drain s p)),
    (strip (fst (snd (snd (drain s p)))), snd (snd (snd (drain s p)))))).
Proof.
  induction s as [|[k|e] s IH]; intros p.
  - reflexivity.
  - cbn [strip List.filter is_want_read negb drain].
    destruct (take _ p); [reflexivity|].
    fold (strip s). rewrite IH.
    destruct (drain s _) as [r [written [s' p']]]. reflexivity.
  - cbn [strip List.filter is_want_read drain].
    destruct (is_SSLWantReadError e) eqn:Ee; cbn [negb].
    + apply IH.
    + cbn [drain]. rewrite Ee. destruct (_ && _); reflexivity.
Qed.

(** *** Reading from a stream that only fragments and stalls *)

Lemma benign_tail ev s : benign (ev :: s) -> benign s.
Proof. intros H. now inversion H. Qed.

Lemma read_exact_benign s : forall p length data,
  benign s ->
  (List.length data <= length)%nat ->
  (length - List.length data <= List.length p)%nat ->
  exists s',
    read_exact s p length data =
    (Ok (data ++ take (length - List.length data) p),
     (s', drop (length - List.length data) p))
    /\ benign s'.
Proof.
  induction s as [|[k|e] s IH]; intros p length data Hb Hd Hp.
  - exists []. split; [|constructor].
    cbn [read_exact].
    destruct (Nat.ltb_spec (List.length data) length).
    + destruct (Nat.leb_spec (length - List.length data) (List.length p));
        [reflexivity | lia].
    + replace (length - List.length data)%nat with 0%nat by lia.
      cbn. now rewrite app_nil_r.
  - destruct (List.length data <? length)%nat eqn:E.
    + apply Nat.ltb_lt in E. cbn [read_exact].
      destruct (Nat.ltb_spec (List.length data) length); [|lia].
      set (m := Nat.min (S k) (Nat.min (length - List.length data) 1024)).
      assert (Hm : (0 < m <= length - List.length data)%nat) by lia.
      assert (Hl : List.length (take m p) = m) by (rewrite length_take; lia).
      destruct (take m p) as [|b chunk] eqn:Et; [change (0%nat = m) in Hl; lia|].
      rewrite <- Et in Hl |- *.
      destruct (IH (drop m p) length (data ++ take m p)) as [s' [Hr Hs']].
      * eapply benign_tail; eassumption.
      * rewrite length_app. lia.
      * rewrite length_app, length_drop. lia.
      * exists s'. split; [|exact Hs'].
        rewrite Hr, length_app, Hl, <- app_assoc, drop_drop.
        replace (length - (List.length data + m))%nat
          with (length - List.length data - m)%nat by lia.
        rewrite take_take_drop.
        replace (m + (length - List.length data - m))%nat
          with (length - List.length data)%nat by lia.
        reflexivity.
    + rewrite read_exact_done by exact E. apply Nat.ltb_ge in E.
      exists (Short k :: s). split; [|exact Hb].
      replace (length - List.length data)%nat with 0%nat by lia.
      cbn. now rewrite app_nil_r.
  - assert (e = SSLWantReadError) as -> by (now inversion Hb).
    destruct (List.length data <? length)%nat eqn:E.
    + cbn [read_exact is_SSLWantReadError]. rewrite E.
      apply IH; [eapply benign_tail; eassumption | assumption..].
    + rewrite read_exact_done by exact E. apply Nat.ltb_ge in E.
      exists (RecvRaises SSLWantReadError :: s). split; [|exact Hb].
      replace (length - List.length data)%nat with 0%nat by lia.
      cbn. now rewrite app_nil_r.
Qed.

Lemma read_exact_short s : forall p length data,
  (List.length p < length - List.length data)%nat ->
  exists e s' p',
    read_exact s p length data = (Raise e, (s', p'))
    /\ (benign s -> e = closed_by_client).
Proof.
  induction s as [|[k|e] s IH]; intros p length data Hp;
    cbn [read_exact];
    (destruct (Nat.ltb_spec (List.length data) length); [|lia]).
  - destruct (Nat.leb_spec (length - List.length data) (List.length p)); [lia|].
    eauto.
  - set (m := Nat.min (S k) (Nat.min (length - List.length data) 1024)).
    destruct (take m p) as [|b chunk] eqn:Et; [eauto|].
    rewrite <- Et.
    destruct (IH (drop m p) length (data ++ take m p)) as (e & s' & p' & Hr & He).
    { rewrite length_app, length_drop, length_take. lia. }
    exists e, s', p'. split; [exact Hr|].
    intros Hb. apply He. eapply benign_tail; eassumption.
  - destruct e; cbn [is_SSLWantReadError];
      try (do 3 eexists; split; [reflexivity | intros Hb; now inversion Hb]).
    destruct (IH p length data Hp) as (e & s' & p' & Hr & He).
    exists e, s', p'. split; [exact Hr|].
    intros Hb. apply He. eapply benign_tail; eassumption.
Qed.

Lemma drain_benign s : forall p,
  benign s -> exists s', drain s p = (Ok tt, (p, (s', []))).
Proof.
  induction s as [|[k|e] s IH]; intros p Hb.
  - exists []. reflexivity.
  - cbn [drain]. set (m := Nat.min (S k) 1024).
    destruct (take m p) as [|b chunk] eqn:Et.
    + apply take_nil_inv in Et; [|lia]. subst p. rewrite drop_nil. eauto.
    + destruct (IH (drop m p)) as [s' Hr]; [eapply benign_tail; eassumption|].
      rewrite Hr, <- Et, take_drop. eauto.
  - assert (e = SSLWantReadError) as -> by (now inversion Hb).
    cbn [drain is_SSLWantReadError].
    apply IH. eapply benign_tail; eassumption.
Qed.

(** The payload loop fails only with an exception that [recv] raised, and
    never with the "not ready yet" one. *)
Lemma drain_raise s : forall p e,
  fst (drain s p) = Raise e ->
  In (RecvRaises e) s /\ is_SSLWantReadError e = false.
Proof.
  induction s as [|[k|x] s IH]; intros p e; cbn [drain].
  - discriminate.
  - destruct (take _ p); [discriminate|].
    specialize (IH (drop (Nat.min (S k) 1024) p) e).
    destruct (drain s _) as [r [written rest]]. cbn [fst] in *.
    intros H. destruct (IH H). split; [now right | assumption].
  - destruct (is_SSLWantReadError x) eqn:Ex.
    + intros H. destruct (IH _ _ H). split; [now right | assumption].
    + destruct (_ && _); [discriminate|].
      cbn [fst]. intros [= <-]. split; [now left | assumption].
Qed.


Lemma read_exact_ok s : forall p length data x s' p',
  read_exact s p length data = (Ok x, (s', p')) ->
  (List.length data <= length)%nat ->
  x = data ++ take (length - List.length data) p
  /\ p' = drop (length - List.length data) p
  /\ (length - List.length data <= List.length p)%nat.
Proof.
  assert (Hdone : forall (p : bytes) length (data : bytes),
    (length <= List.length data)%nat -> (List.length data <= length)%nat ->
    data = data ++ take (length - List.length data) p
    /\ p = drop (length - List.length data) p
    /\ (length - List.length data <= List.length p)%nat).
  { intros p length data H1 H2.
    replace (length - List.length data)%nat with 0%nat by lia.
    cbn. rewrite app_nil_r. repeat split; lia. }
  induction s as [|[k|e] s IH]; intros p length data x s' p' Hr Hd;
    cbn [read_exact] in Hr;
    (destruct (Nat.ltb_spec (List.length data) length);
     [|injection Hr as <- <- <-; now apply Hdone]).
  - destruct (Nat.leb_spec (length - List.length data) (List.length p));
      [|discriminate].
    injection Hr as <- <- <-. repeat split; lia.
  - set (m := Nat.min (S k) (Nat.min (length - List.length data) 1024)) in *.
    destruct (take m p) as [|b chunk] eqn:Et; [discriminate|].
    rewrite <- Et in Hr. clear Et.
    apply IH in Hr; [|rewrite length_app, length_take; lia].
    destruct Hr as (-> & -> & Hl).
    rewrite length_app, length_take, length_drop in *.
    assert (m <= List.length p)%nat by lia.
    replace (m `min` List.length p)%nat with m in * by lia.
    rewrite <- app_assoc, drop_drop.
    replace (length - (List.length data + m))%nat
      with (length - List.length data - m)%nat by lia.
    rewrite take_take_drop.
    replace (m + (length - List.length data - m))%nat
      with (length - List.length data)%nat by lia.
    repeat split; lia.
  - destruct (is_SSLWantReadError e); [|discriminate].
    now apply IH in Hr.
Qed.

Lemma read_exact_raise s : forall p length data e,
  fst (read_exact s p length data) = Raise e ->
  is_SSLWantReadError e = false.
Proof.
  induction s as [|[k|x] s IH]; intros p length data e; cbn [read_exact];
    destruct (List.length data <? length)%nat; try discriminate.
  - destruct (_ <=? _)%nat; [discriminate|]. now intros [= <-].
  - destruct (take _ p); [now intros [= <-] | apply IH].
  - destruct (is_SSLWantReadError x) eqn:Ex; [apply IH|].
    now intros [= <-].
Qed.

(** *** The two receive operations *)

Lemma receive_data_spec length w :
  receive_data length w =
  (fst (read_exact (recv_script (cur w)) (pending (cur w)) length []),
   set_cur
     (mkConn
        (snd (snd (read_exact (recv_script (cur w)) (pending (cur w)) length [])))
        (fst (snd (read_exact (recv_script (cur w)) (pending (cur w)) length [])))
        (select_script (cur w)) (shutdown_err (cur w))) w).
Proof.
  unfold receive_data. apply receive_data_loop_spec.
  unfold recv_budget. lia.
Qed.

Lemma receive_payload_spec (name : pystr) w r written s' p' :
  drain (recv_script (cur w)) (pending (cur w)) = (r, (written, (s', p'))) ->
  exists sel',
    receive_payload name w =
    (r, set_fs (write_all name written (fs w))
          (set_cur (mkConn p' s' sel' (shutdown_err (cur w))) w)).
Proof.
  intros Hd. unfold receive_payload.
  eapply payload_loop_spec; [|exact Hd].
  unfold payload_budget. lia.
Qed.

(** *** Indistinguishable computations *)

Lemma ind_ret {A} (a : A) : indistinguishable (ret a) (ret a).
Proof. intros w1 w2 H. split; [reflexivity | exact H]. Qed.

Lemma ind_raise {A} e : indistinguishable (@raise world A e) (raise e).
Proof. intros w1 w2 H. split; [reflexivity | exact H]. Qed.

Lemma ind_bind {A B} (m1 m2 : M world A) (k1 k2 : A -> M world B) :
  indistinguishable m1 m2 ->
  (forall a, indistinguishable (k1 a) (k2 a)) ->
  indistinguishable (bind m1 k1) (bind m2 k2).
Proof.
  intros Hm Hk w1 w2 Hw. unfold bind.
  destruct (Hm w1 w2 Hw) as [Hr Hs].
  destruct (m1 w1) as [r1 w1'], (m2 w2) as [r2 w2']. cbn [fst snd] in *.
  subst r2. destruct r1; [now apply Hk | now split..].
Qed.

Lemma ind_dispatch {A} (hs : list (handler A)) e :
  Forall (fun h => forall x, indistinguishable (snd h x) (snd h x)) hs ->
  indistinguishable (dispatch hs e) (dispatch hs e).
Proof.
  induction 1 as [|[cls h] hs Hh _ IH]; cbn [dispatch].
  - apply ind_raise.
  - destruct (cls e); [apply Hh | exact IH].
Qed.

Lemma ind_try_except {A} (m1 m2 : M world A) hs :
  indistinguishable m1 m2 ->
  Forall (fun h => forall x, indistinguishable (snd h x) (snd h x)) hs ->
  indistinguishable (try_except m1 hs) (try_except m2 hs).
Proof.
  intros Hm Hh w1 w2 Hw. unfold try_except.
  destruct (Hm w1 w2 Hw) as [Hr Hs].
  destruct (m1 w1) as [r1 w1'], (m2 w2) as [r2 w2']. cbn [fst snd] in *.
  subst r2. destruct r1; [now split | | now split].
  now apply ind_dispatch.
Qed.

Lemma ind_try_finally {A} (m1 m2 : M world A) f1 f2 :
  indistinguishable m1 m2 -> indistinguishable f1 f2 ->
  indistinguishable (try_finally m1 f1) (try_finally m2 f2).
Proof.
  intros Hm Hf w1 w2 Hw. unfold try_finally.
  destruct (Hm w1 w2 Hw) as [Hr Hs].
  destruct (m1 w1) as [r1 w1'], (m2 w2) as [r2 w2']. cbn [fst snd] in *.
  subst r2.
  destruct (Hf w1' w2' Hs) as [Hr' Hs'].
  destruct (f1 w1') as [q1 v1], (f2 w2') as [q2 v2]. cbn [fst snd] in *.
  subst q2. destruct r1, q1; now split.
Qed.

Lemma ind_print l : indistinguishable (print l) (print l).
Proof.
  intros w1 w2 (? & ? & ? & ? & ? & ? & ? & ?).
  split; [reflexivity|]. unfold print, modify, similar; cbn.
  repeat split; congruence.
Qed.

Lemma ind_log_op o : indistinguishable (log_op o) (log_op o).
Proof.
  intros w1 w2 (? & ? & ? & ? & ? & ? & ? & ?).
  split; [reflexivity|]. unfold log_op, modify, similar; cbn.
  repeat split; congruence.
Qed.

Lemma ind_open_wb (name : pystr) : indistinguishable (open_wb name) (open_wb name).
Proof.
  intros w1 w2 (? & ? & ? & ? & ? & ? & ? & ?).
  split; [reflexivity|]. unfold open_wb, modify, similar; cbn.
  repeat split; congruence.
Qed.

Lemma ind_shutdown_err :
  indistinguishable (gets (fun w => shutdown_err (cur w)))
                    (gets (fun w => shutdown_err (cur w))).
Proof.
  intros w1 w2 H. split; [|exact H].
  destruct H as (_ & _ & _ & _ & _ & _ & Hsd & _).
  unfold gets. cbn [fst]. now f_equal.
Qed.

Lemma ind_may_raise err : indistinguishable (@may_raise world err) (may_raise err).
Proof. destruct err; [apply ind_raise | apply ind_ret]. Qed.

Lemma ind_decode raw : indistinguishable (decode raw) (decode raw).
Proof. unfold decode. destruct (Utf8.decode raw); [apply ind_ret | apply ind_raise]. Qed.

Lemma ind_receive_data length :
  indistinguishable (receive_data length) (receive_data length).
Proof.
  intros w1 w2 (Hf & Ho & Ht & Hc & Hn & Hp & Hsd & Hs).
  rewrite !receive_data_spec. cbn [fst snd].
  pose proof (read_exact_strip (recv_script (cur w1)) (pending (cur w1)) length []) as E1.
  pose proof (read_exact_strip (recv_script (cur w2)) (pending (cur w2)) length []) as E2.
  rewrite Hs, Hp, E2 in E1.
  injection E1 as Hr Hs' Hp'.
  rewrite Hp. split; [symmetry; exact Hr|].
  unfold similar; cbn. repeat split; try assumption; symmetry; assumption.
Qed.

Lemma ind_receive_payload (name : pystr) :
  indistinguishable (receive_payload name) (receive_payload name).
Proof.
  intros w1 w2 (Hf & Ho & Ht & Hc & Hn & Hp & Hsd & Hs).
  destruct (drain (recv_script (cur w1)) (pending (cur w1)))
    as [r1 [wr1 [s1 p1]]] eqn:D1.
  destruct (drain (recv_script (cur w2)) (pending (cur w2)))
    as [r2 [wr2 [s2 p2]]] eqn:D2.
  destruct (receive_payload_spec name w1 _ _ _ _ D1) as [sel1 ->].
  destruct (receive_payload_spec name w2 _ _ _ _ D2) as [sel2 ->].
  pose proof (drain_strip (recv_script (cur w1)) (pending (cur w1))) as E1.
  pose proof (drain_strip (recv_script (cur w2)) (pending (cur w2))) as E2.
  rewrite Hp in D1, E1. rewrite Hs, E2, D1, D2 in E1. cbn [fst snd] in E1.
  injection E1 as Hr Hw Hs' Hp'.
  split; [cbn; congruence|].
  unfold similar.
  cbn [fst snd set_fs set_cur fs out trace cur client_socket next_id pending
       recv_script select_script shutdown_err].
  repeat split; congruence.
Qed.

Lemma ind_receive_file : indistinguishable receive_file receive_file.
Proof.
  unfold receive_file.
  apply ind_bind; [apply ind_receive_data | intros hdr].
  apply ind_bind; [apply ind_receive_data | intros raw].
  apply ind_bind; [apply ind_decode | intros name].
  apply ind_bind; [apply ind_print | intros _].
  apply ind_bind; [apply ind_open_wb | intros _].
  apply ind_bind; [apply ind_receive_payload | intros _].
  apply ind_print.
Qed.

Lemma ind_close_session id : indistinguishable (close_session id) (close_session id).
Proof.
  unfold close_session, swallow.
  apply ind_bind; [|intros _; apply ind_bind; [apply ind_log_op | intros _; apply ind_print]].
  apply ind_try_except.
  - apply ind_bind; [apply ind_log_op | intros _].
    apply ind_bind; [apply ind_shutdown_err | intros err; apply ind_may_raise].
  - constructor; [intros x; apply ind_ret | constructor].
Qed.

Lemma ind_session id : indistinguishable (session id) (session id).
Proof.
  unfold session.
  apply ind_try_finally; [|apply ind_close_session].
  apply ind_try_except; [apply ind_receive_file|].
  constructor; [intros x; apply ind_print|].
  constructor; [intros x; apply ind_print | constructor].
Qed.

End ServerFacts.

(** ** One session of the server *)

Module SessionFacts.
Import Server Stream ServerFacts.

Lemma frame_refl w : frame w w.
Proof. repeat split. Qed.

Lemma frame_trans w1 w2 w3 : frame w1 w2 -> frame w2 w3 -> frame w1 w3.
Proof.
  intros (? & ? & ? & ?) (? & ? & ? & ?). repeat split; congruence.
Qed.

Lemma quiet_ret {A} (a : A) : quiet (ret a).
Proof. intros w. split; [discriminate | apply frame_refl]. Qed.

Lemma quiet_raise {A} e : quiet (@raise world A e).
Proof. intros w. split; [discriminate | apply frame_refl]. Qed.

Lemma quiet_bind {A B} (m : M world A) (k : A -> M world B) :
  quiet m -> (forall a, quiet (k a)) -> quiet (bind m k).
Proof.
  intros Hm Hk w. unfold bind.
  destruct (Hm w) as [Hr Hf]. destruct (m w) as [[a|e|] w1]; cbn [fst snd] in *.
  - destruct (Hk a w1) as [Hr' Hf']. split; [exact Hr'|].
    eapply frame_trans; eassumption.
  - split; [discriminate | exact Hf].
  - congruence.
Qed.

Lemma quiet_try_except {A} (m : M world A) hs :
  quiet m -> Forall (fun h => forall x, quiet (snd h x)) hs ->
  quiet (try_except m hs).
Proof.
  intros Hm Hh w. unfold try_except.
  destruct (Hm w) as [Hr Hf]. destruct (m w) as [[a|e|] w1]; cbn [fst snd] in *.
  - split; [discriminate | exact Hf].
  - assert (Hd : quiet (dispatch hs e)).
    { clear -Hh. induction Hh as [|[cls h] hs Hx _ IH]; cbn [dispatch].
      - apply quiet_raise.
      - destruct (cls e); [apply Hx | exact IH]. }
    destruct (Hd w1) as [Hr' Hf']. split; [exact Hr'|].
    eapply frame_trans; eassumption.
  - congruence.
Qed.

Lemma quiet_print l : quiet (print l).
Proof. intros w. split; [discriminate | repeat split]. Qed.

Lemma quiet_open_wb (name : pystr) : quiet (open_wb name).
Proof. intros w. split; [discriminate | repeat split]. Qed.

Lemma quiet_decode raw : quiet (decode raw).
Proof.
  unfold decode. destruct (Utf8.decode raw); [apply quiet_ret | apply quiet_raise].
Qed.

Lemma quiet_receive_data length : quiet (receive_data length).
Proof.
  intros w. rewrite receive_data_spec. cbn [fst snd].
  split; [apply read_exact_not_stuck | repeat split].
Qed.

Lemma quiet_receive_payload (name : pystr) : quiet (receive_payload name).
Proof.
  intros w.
  pose proof (drain_not_stuck (recv_script (cur w)) (pending (cur w))) as Hn.
  destruct (drain (recv_script (cur w)) (pending (cur w)))
    as [r [written [s' p']]] eqn:D.
  destruct (receive_payload_spec name w _ _ _ _ D) as [sel' ->].
  split; [exact Hn | repeat split].
Qed.

Lemma quiet_receive_file : quiet receive_file.
Proof.
  unfold receive_file.
  apply quiet_bind; [apply quiet_receive_data | intros hdr].
  apply quiet_bind; [apply quiet_receive_data | intros raw].
  apply quiet_bind; [apply quiet_decode | intros name].
  apply quiet_bind; [apply quiet_print | intros _].
  apply quiet_bind; [apply quiet_open_wb | intros _].
  apply quiet_bind; [apply quiet_receive_payload | intros _].
  apply quiet_print.
Qed.

(** The handlers of the inner [try] leave nothing to go on. *)
Lemma guarded_receive_ok w :
  fst (try_except receive_file
         [(is_ConnectionError, fun e => print (ConnectionErrorLine e));
          (is_Exception, fun e => print (ReceiveErrorLine e))] w) = Ok tt
  /\ frame w (snd (try_except receive_file
         [(is_ConnectionError, fun e => print (ConnectionErrorLine e));
          (is_Exception, fun e => print (ReceiveErrorLine e))] w)).
Proof.
  unfold try_except.
  destruct (quiet_receive_file w) as [Hr Hf].
  destruct (receive_file w) as [[[]|e|] w1]; cbn [fst snd] in *.
  - split; [reflexivity | exact Hf].
  - cbn [dispatch is_Exception].
    destruct (is_ConnectionError e); split; try reflexivity;
      (eapply frame_trans; [exact Hf | repeat split]).
  - congruence.
Qed.

Lemma close_session_run id w :
  close_session id w =
  (Ok tt,
   mkWorld (fs w) (out w ++ [ClosedLine id])
           ((trace w ++ [OpShutdown id]) ++ [OpClose id]) (cur w)
           (client_socket w) (next_id w)).
Proof.
  destruct w as [f o t [p s sel [e|]] cs n]; reflexivity.
Qed.

(** A session always ends normally, after one [shutdown] and one
    [close]. *)
Lemma session_run id w :
  fst (session id w) = Ok tt
  /\ trace (snd (session id w)) = trace w ++ [OpShutdown id; OpClose id]
  /\ client_socket (snd (session id w)) = client_socket w
  /\ next_id (snd (session id w)) = next_id w.
Proof.
  unfold session, try_finally.
  destruct (guarded_receive_ok w) as [Hr (Ht & Hc & Hn & _)].
  destruct (try_except receive_file _ w) as [r w1]. cbn [fst snd] in *.
  subst r. rewrite close_session_run. cbn [fst snd trace client_socket next_id].
  rewrite Ht, <- app_assoc. repeat split; assumption.
Qed.

Lemma close_client_socket_ok w : fst (close_client_socket w) = Ok tt.
Proof.
  destruct w as [f o t [p s sel [e|]] [id|] n]; reflexivity.
Qed.

(** No exception leaves a turn of the loop. *)
Lemma serve_one_ok a w : fst (serve_one a w) = Ok tt.
Proof.
  destruct w as [f o t c0 cs n].
  destruct a as [e|[e|] c];
    cbv beta iota zeta delta
      [serve_one try_except bind accept wrap_socket print log_op modify
       may_raise raise ret dispatch is_Exception
       fs out trace cur client_socket next_id].
  - destruct (is_SSLError e); apply close_client_socket_ok.
  - destruct (is_SSLError e); apply close_client_socket_ok.
  - match goal with |- fst (match session ?i ?x with _ => _ end) = _ =>
      destruct (session_run i x) as [Hr _]; destruct (session i x) as [r w1]
    end.
    cbn [fst] in Hr. subst r. reflexivity.
Qed.

Lemma serve_ok arrivals : forall w, fst (serve arrivals w) = Ok tt.
Proof.
  induction arrivals as [|a rest IH]; intros w; cbn [serve].
  - reflexivity.
  - unfold bind. pose proof (serve_one_ok a w) as H.
    destruct (serve_one a w) as [r w1]. cbn [fst] in H. subst r. apply IH.
Qed.

Lemma serve_app l1 : forall l2 w,
  serve (l1 ++ l2) w = serve l2 (snd (serve l1 w)).
Proof.
  induction l1 as [|a l1 IH]; intros l2 w; cbn [serve app].
  - reflexivity.
  - unfold bind. pose proof (serve_one_ok a w) as H.
    destruct (serve_one a w) as [r w1]. cbn [fst] in H. subst r. apply IH.
Qed.

Lemma start_server_run port su arrivals w :
  (1024 <= port <= 65535)%Z ->
  socket_err su = None -> bind_err su = None -> listen_err su = None ->
  context_err su = None -> cert_err su = None -> ciphers_err su = None ->
  start_server port su arrivals w =
  serve arrivals
    (mkWorld (fs w) (out w ++ [Listening port])
             ((trace w ++ [OpBind port]) ++ [OpListen]) (cur w)
             (client_socket w) (next_id w)).
Proof.
  intros [H1 H2] E1 E2 E3 E4 E5 E6. unfold start_server.
  rewrite E1, E2, E3, E4, E5, E6.
  apply Z.leb_le in H1, H2. rewrite H1, H2.
  destruct w as [f o t c cs n]. reflexivity.
Qed.

(** *** Retried signals *)

Lemma retries_bind {A B} (m : M world A) (k : A -> M world B) :
  retries m -> (forall a, retries (k a)) -> retries (bind m k).
Proof.
  intros Hm Hk w e. unfold bind.
  specialize (Hm w). destruct (m w) as [[a|x|] w1]; cbn [fst] in *.
  - apply Hk.
  - intros [= <-]. now apply Hm.
  - discriminate.
Qed.

Lemma retries_total {A} (m : M world A) :
  (forall w e, fst (m w) <> Raise e) -> retries m.
Proof. intros H w e He. now apply H in He. Qed.

Lemma retries_receive_data length : retries (receive_data length).
Proof.
  intros w e. rewrite receive_data_spec. cbn [fst]. apply read_exact_raise.
Qed.

Lemma retries_receive_payload (name : pystr) : retries (receive_payload name).
Proof.
  intros w e.
  pose proof (drain_raise (recv_script (cur w)) (pending (cur w)) e) as Hn.
  destruct (drain (recv_script (cur w)) (pending (cur w)))
    as [r [written [s' p']]] eqn:D.
  destruct (receive_payload_spec name w _ _ _ _ D) as [sel' ->].
  cbn [fst] in *. intros H. now apply Hn.
Qed.

Lemma retries_receive_file : retries receive_file.
Proof.
  unfold receive_file.
  apply retries_bind; [apply retries_receive_data | intros hdr].
  apply retries_bind; [apply retries_receive_data | intros raw].
  apply retries_bind.
  { unfold decode. destruct (Utf8.decode raw); intros w e; cbn;
      [discriminate | intros [= <-]; reflexivity]. }
  intros name.
  apply retries_bind; [apply retries_total; discriminate | intros _].
  apply retries_bind; [apply retries_total; discriminate | intros _].
  apply retries_bind; [apply retries_receive_payload | intros _].
  apply retries_total; discriminate.
Qed.

(** *** A stream that ends too early *)

Lemma receive_file_short w :
  (List.length (pending (cur w)) < 4
   \/ List.length (pending (cur w))
      < 4 + N.to_nat (BigEndian.from_bytes (take 4 (pending (cur w)))))%nat ->
  exists e s' p',
    receive_file w =
    (Raise e,
     set_cur (mkConn p' s' (select_script (cur w)) (shutdown_err (cur w))) w)
    /\ (benign (recv_script (cur w)) -> e = closed_by_client).
Proof.
  intros Hshort. unfold receive_file. unfold bind at 1.
  rewrite receive_data_spec.
  destruct w as [f o t [p s sel sd] cs n].
  cbn [cur pending recv_script select_script shutdown_err] in *.
  destruct (Nat.lt_ge_cases (List.length p) 4) as [Hp|Hp].
  - destruct (read_exact_short s p 4 []) as (e & s' & p' & Hr & He);
      [cbn; lia|].
    rewrite Hr. cbn [fst snd]. exists e, s', p'. split; [reflexivity | exact He].
  - destruct Hshort as [Hs|Hs]; [lia|].
    destruct (read_exact s p 4 []) as [[hdr|e|] [s1 p1]] eqn:R1; cbn [fst snd].
    + assert (R1' := read_exact_ok _ _ _ _ _ _ _ R1 (Nat.le_0_l 4)).
      cbn [List.length app] in R1'. rewrite Nat.sub_0_r in R1'.
      destruct R1' as (Eh & Ep & _). subst hdr p1.
      unfold bind at 1. rewrite receive_data_spec.
      cbn [cur pending recv_script select_script shutdown_err set_cur].
      destruct (read_exact_short s1 (drop 4 p)
                  (N.to_nat (BigEndian.from_bytes (take 4 p))) [])
        as (e & s' & p' & Hr & He).
      { cbn [List.length]. rewrite length_drop. lia. }
      rewrite Hr. cbn [fst snd set_cur fs out trace cur client_socket next_id
                       select_script shutdown_err].
      exists e, s', p'. split; [reflexivity|].
      intros Hb. apply He.
      destruct (read_exact_benign s p 4 [] Hb) as (s2 & Hr2 & Hb2);
        [cbn; lia | cbn; lia |].
      rewrite R1 in Hr2. assert (s1 = s2) as -> by congruence. exact Hb2.
    + exists e, s1, p1. split; [reflexivity|].
      intros Hb.
      destruct (read_exact_benign s p 4 [] Hb) as (s2 & Hr2 & Hb2);
        [cbn; lia | cbn; lia |].
      rewrite R1 in Hr2. discriminate.
    + pose proof (read_exact_not_stuck s p 4 []) as Hn.
      rewrite R1 in Hn. now contradiction Hn.
Qed.

End SessionFacts.

(** ** The receiving side: claims *)

Module ServerClaims.
Import Server Stream ServerFacts SessionFacts.

Lemma similar_select sel1 sel2 w :
  similar (with_select_script sel1 w) (with_select_script sel2 w).
Proof. repeat split. Qed.

Lemma similar_strip w :
  similar w (with_recv_script (strip (recv_script (cur w))) w).
Proof.
  repeat split. cbn. unfold strip.
  induction (recv_script (cur w)) as [|ev s IH]; cbn [List.filter].
  - reflexivity.
  - destruct (negb (is_want_read ev)) eqn:E; cbn [List.filter].
    + rewrite E. f_equal. exact IH.
    + exact IH.
Qed.

(** C4: in the payload loop a poll that times out only leads to the next
    poll.  Whatever [select] answers, and however often it times out, the
    loop ends with the same result and the same file as when it never
    times out; it ends normally, or with an exception that [recv] raised
    (and that is not the "not ready yet" signal), and what a session
    prints is the same too. *)
Theorem poll_timeout_only_repolls (name : pystr) (id : nat) (w : world)
  (sel : list bool) :
  (forall fuel,
     payload_loop (S fuel) name (with_select_script (false :: sel) w)
     = payload_loop fuel name (with_select_script sel w))
  /\ fst (receive_payload name (with_select_script sel w))
     = fst (receive_payload name (with_select_script [] w))
  /\ fs (snd (receive_payload name (with_select_script sel w)))
     = fs (snd (receive_payload name (with_select_script [] w)))
  /\ match fst (receive_payload name (with_select_script sel w)) with
     | Ok _ => True
     | Raise e =>
         In (RecvRaises e) (recv_script (cur w))
         /\ is_SSLWantReadError e = false
     | Stuck => False
     end
  /\ fst (session id (with_select_script sel w)) = Ok tt
  /\ out (snd (session id (with_select_script sel w)))
     = out (snd (session id (with_select_script [] w))).
Proof.
  split; [|split; [|split; [|split; [|split]]]].
  - intros fuel. destruct w as [f o t [p s sel0 sd] cs n]. reflexivity.
  - apply ind_receive_payload, similar_select.
  - apply ind_receive_payload, similar_select.
  - set (w1 := with_select_script sel w).
    pose proof (drain_raise (recv_script (cur w1)) (pending (cur w1))) as Hr.
    pose proof (drain_not_stuck (recv_script (cur w1)) (pending (cur w1))) as Hn.
    destruct (drain (recv_script (cur w1)) (pending (cur w1)))
      as [r [written [s' p']]] eqn:D.
    destruct (receive_payload_spec name w1 _ _ _ _ D) as [sel' ->].
    cbn [fst] in *. destruct r as [u|e|]; [exact I | | congruence].
    destruct w as [f o t [p s sel0 sd] cs n]. now apply Hr.
  - apply session_run.
  - apply ind_session, similar_select.
Qed.

(** C5: the "not ready yet" signal of the TLS layer is retried inside the
    receive operations.  Reading the header and the file name
    ([receive_data]), the payload ([receive_payload]) and a whole file
    ([receive_file]) give the same result, the same files and the same
    output whether or not such signals occur, and none of them ever ends
    with that signal.  A closed connection and any other exception of
    [recv] do come out of [receive_data]; from the payload loop any
    exception comes out except the end-of-stream one, which ends it. *)
Theorem want_read_is_retried (w : world) (id : nat) :
  let w' := with_recv_script (strip (recv_script (cur w))) w in
  (forall n, fst (receive_data n w) = fst (receive_data n w')
             /\ fst (receive_data n w) <> Raise SSLWantReadError)
  /\ (forall name : pystr,
        fst (receive_payload name w) = fst (receive_payload name w')
        /\ fs (snd (receive_payload name w)) = fs (snd (receive_payload name w'))
        /\ fst (receive_payload name w) <> Raise SSLWantReadError)
  /\ fst (receive_file w) = fst (receive_file w')
  /\ fs (snd (receive_file w)) = fs (snd (receive_file w'))
  /\ fst (receive_file w) <> Raise SSLWantReadError
  /\ out (snd (session id w)) = out (snd (session id w'))
  /\ (forall e s n,
        fst (receive_data (S n) (with_recv_script (RecvRaises e :: s) w))
        = if is_SSLWantReadError e
          then fst (receive_data (S n) (with_recv_script s w))
          else Raise e)
  /\ (forall n sel, fst (receive_data (S n) (incoming [] [] sel w))
                    = Raise closed_by_client)
  /\ (forall e s (name : pystr),
        fst (receive_payload name (with_recv_script (RecvRaises e :: s) w))
        = if is_SSLWantReadError e
          then fst (receive_payload name (with_recv_script s w))
          else if is_SSLError e && str_contains unexpected_eof (exn_str e)
               then Ok tt else Raise e).
Proof.
  intros w'. pose proof (similar_strip w) as Hs. fold w' in Hs.
  assert (Hno : forall A (m : M world A) v,
            retries m -> fst (m v) <> Raise SSLWantReadError).
  { intros A m v Hm H. apply Hm in H. discriminate. }
  repeat match goal with |- _ /\ _ => split end.
  - intros n. split; [now apply ind_receive_data|].
    apply Hno, retries_receive_data.
  - intros name. split; [now apply ind_receive_payload|].
    split; [now apply ind_receive_payload|].
    apply Hno, retries_receive_payload.
  - now apply ind_receive_file.
  - now apply ind_receive_file.
  - apply Hno, retries_receive_file.
  - now apply ind_session.
  - intros e s n. rewrite !receive_data_spec.
    destruct w as [f o t [p s0 sel sd] cs m].
    cbn [fst with_recv_script incoming set_cur cur recv_script pending
         read_exact List.length Nat.ltb Nat.leb].
    destruct (is_SSLWantReadError e); reflexivity.
  - intros n sel. rewrite receive_data_spec.
    destruct w as [f o t [p s0 sel0 sd] cs m]. reflexivity.
  - intros e s name.
    destruct w as [f o t [p s0 sel sd] cs m].
    set (v := with_recv_script (RecvRaises e :: s) _).
    destruct (drain (recv_script (cur v)) (pending (cur v)))
      as [r [written [s' p']]] eqn:D.
    destruct (receive_payload_spec name v _ _ _ _ D) as [sel' ->].
    cbn [fst]. subst v.
    cbn [with_recv_script incoming set_cur cur recv_script pending drain] in D.
    destruct (is_SSLWantReadError e).
    + set (v := with_recv_script s _).
      destruct (receive_payload_spec name v _ _ _ _ D) as [sel2 ->].
      reflexivity.
    + destruct (_ && _); now injection D as <- _ _ _.
Qed.

(** C2: when the stream closes before the four bytes of the header, or
    before the [N] bytes of file name that the header announces, receiving
    ends with an exception: no file is created or written, nothing is
    reported as received.  When the reads themselves did not fail, the
    exception is the [ConnectionError] that [receive_data] raises on a
    closed connection (the code's form of the protocol error), and the
    session reports it. *)
Theorem short_stream_is_an_error (w : world) (id : nat) :
  (List.length (pending (cur w)) < 4
   \/ List.length (pending (cur w))
      < 4 + N.to_nat (BigEndian.from_bytes (take 4 (pending (cur w)))))%nat ->
  (exists e, fst (receive_file w) = Raise e)
  /\ fs (snd (receive_file w)) = fs w
  /\ out (snd (receive_file w)) = out w
  /\ fs (snd (session id w)) = fs w
  /\ (benign (recv_script (cur w)) ->
      fst (receive_file w) = Raise closed_by_client
      /\ out (snd (session id w))
         = out w ++ [ConnectionErrorLine closed_by_client; ClosedLine id]).
Proof.
  intros Hshort.
  destruct (receive_file_short w Hshort) as (e & s' & p' & Hr & He).
  rewrite Hr. cbn [fst snd].
  split; [eauto|]. split; [reflexivity|]. split; [reflexivity|].
  split.
  - unfold session, try_finally, try_except. rewrite Hr.
    cbn [dispatch is_Exception].
    destruct (is_ConnectionError e); unfold print, modify;
      rewrite close_session_run; reflexivity.
  - intros Hb. rewrite (He Hb). split; [reflexivity|].
    unfold session, try_finally, try_except. rewrite Hr, (He Hb).
    cbn [dispatch is_ConnectionError closed_by_client].
    unfold print, modify. rewrite close_session_run.
    cbn [snd out set_cur]. now rewrite <- app_assoc.
Qed.

Lemma short_stream_is_an_error_witness :
  let w := incoming [x00; x00] [Short 0; RecvRaises SSLWantReadError] [false]
             (mkWorld ∅ [] [] (mkConn [] [] [] None) None 0) in
  fst (receive_file w) = Raise closed_by_client
  /\ out (snd (session 0 w))
     = [ConnectionErrorLine closed_by_client; ClosedLine 0].
Proof.
  intros w.
  refine (proj2 (proj2 (proj2 (proj2 (short_stream_is_an_error w 0%nat _)))) _).
  - left. vm_compute. lia.
  - repeat constructor.
Defined.

Lemma serve_one_arrives c v :
  serve_one (Arrives None c) v =
  session (next_id v)
    (mkWorld (fs v)
       ((((out v ++ [Accepted (next_id v)]) ++ [TLSEstablished (next_id v)])
         ++ [UsingCipher (next_id v)]) ++ [TLSVersion (next_id v)])
       ((trace v ++ [OpAccept (next_id v)]) ++ [OpHandshake (next_id v)])
       c (Some (next_id v)) (S (next_id v))).
Proof.
  destruct v as [f o t c0 cs n].
  cbv beta iota zeta delta
    [serve_one try_except bind accept wrap_socket print log_op modify
     may_raise raise ret dispatch is_Exception
     fs out trace cur client_socket next_id set_cur].
  match goal with |- match session ?i ?x with _ => _ end = _ =>
    destruct (session_run i x) as (Hr & _);
    destruct (session i x) as [r w1]
  end.
  cbn [fst] in Hr. now subst r.
Qed.

(** C8: no error of one client ends the server.  Once the socket is bound
    and listening and the certificate is loaded, [start_server] deals with
    every connection attempt, whatever goes wrong in it (a failed
    [accept], a failed handshake, a failed or cut-off receive): each turn
    of the loop ends normally, a session is shut down and closed, the
    socket of a failed handshake is closed, and the loop takes the next
    attempt.  Only a failure before the loop (the port check, [socket],
    [bind], [listen], loading the certificate) ends [start_server], and
    then no connection is accepted. *)
Theorem server_survives_its_clients (port : Z) (su : startup)
  (arrivals : list arrival) (a : arrival) (w : world) :
  (1024 <= port <= 65535)%Z ->
  socket_err su = None -> bind_err su = None -> listen_err su = None ->
  context_err su = None -> cert_err su = None -> ciphers_err su = None ->
  fst (start_server port su arrivals w) = Ok tt
  /\ start_server port su (arrivals ++ [a]) w
     = serve_one a (snd (start_server port su arrivals w))
  /\ fst (start_server port su (arrivals ++ [a]) w) = Ok tt
  /\ (forall v, fst (serve_one a v) = Ok tt)
  /\ (forall c v,
        trace (snd (serve_one (Arrives None c) v))
        = trace v ++ [OpAccept (next_id v); OpHandshake (next_id v);
                      OpShutdown (next_id v); OpClose (next_id v)])
  /\ (forall e c v,
        trace (snd (serve_one (Arrives (Some e) c) v))
        = trace v ++ [OpAccept (next_id v); OpHandshake (next_id v);
                      OpRawShutdown (next_id v); OpRawClose (next_id v)])
  /\ (forall e l x c k,
        start_server port (mkStartup None (Some e) l x c k) arrivals w
        = (Raise e,
           mkWorld (fs w) (out w) (trace w ++ [OpBind port]) (cur w)
                   (client_socket w) (next_id w)))
  /\ (forall e x c k,
        start_server port (mkStartup None None (Some e) x c k) arrivals w
        = (Raise e,
           mkWorld (fs w) (out w) ((trace w ++ [OpBind port]) ++ [OpListen])
                   (cur w) (client_socket w) (next_id w)))
  /\ (forall e k,
        start_server port (mkStartup None None None None (Some e) k) arrivals w
        = (Raise e,
           mkWorld (fs w) (out w) ((trace w ++ [OpBind port]) ++ [OpListen])
                   (cur w) (client_socket w) (next_id w))).
Proof.
  intros Hport E1 E2 E3 E4 E5 E6.
  assert (Hrun := fun l => start_server_run port su l w Hport E1 E2 E3 E4 E5 E6).
  assert (Hp : (1024 <=? port)%Z && (port <=? 65535)%Z = true).
  { destruct Hport as [H1 H2]. apply Z.leb_le in H1, H2. now rewrite H1, H2. }
  repeat match goal with |- _ /\ _ => split end.
  - rewrite Hrun. apply serve_ok.
  - rewrite !Hrun, serve_app. cbn [serve]. unfold bind, ret.
    match goal with |- context [serve_one a ?v] =>
      pose proof (serve_one_ok a v) as H; destruct (serve_one a v) as [r w1]
    end.
    cbn [fst] in H. now subst r.
  - rewrite Hrun. apply serve_ok.
  - intros v. apply serve_one_ok.
  - intros c v. rewrite serve_one_arrives.
    match goal with |- trace (snd (session ?i ?x)) = _ =>
      destruct (session_run i x) as (_ & Ht & _); rewrite Ht
    end.
    cbn [trace]. now rewrite <- !app_assoc.
  - intros e c v. destruct v as [f o t [p s sel [x|]] cs n];
      cbv beta iota zeta delta
        [serve_one try_except bind accept wrap_socket print log_op modify
         may_raise raise ret dispatch is_Exception close_client_socket swallow
         gets fs out trace cur client_socket next_id set_cur shutdown_err snd];
      destruct (is_SSLError e); cbn [trace]; now rewrite <- !app_assoc.
  - intros e l x c k. unfold start_server. rewrite Hp.
    destruct w as [f o t c0 cs n]. reflexivity.
  - intros e x c k. unfold start_server. rewrite Hp.
    destruct w as [f o t c0 cs n]. reflexivity.
  - intros e k. unfold start_server. rewrite Hp.
    destruct w as [f o t c0 cs n]. reflexivity.
Qed.

Lemma server_survives_its_clients_witness :
  let served :=
    Server.start_server 8443 Scenario.ready_to_serve Scenario.bad_clients
      Scenario.idle_server in
  fst served = Ok tt
  /\ fst (Server.start_server 8443 Scenario.ready_to_serve
            (Scenario.bad_clients
             ++ [Arrives None (mkConn [] [] [] None)])
            Scenario.idle_server) = Ok tt.
Proof.
  pose proof
    (server_survives_its_clients 8443 Scenario.ready_to_serve
       Scenario.bad_clients (Arrives None (mkConn [] [] [] None))
       Scenario.idle_server ltac:(lia)
       eq_refl eq_refl eq_refl eq_refl eq_refl eq_refl) as H.
  destruct H as (H1 & _ & H2 & _).
  split; [exact H1 | exact H2].
Defined.

End ServerClaims.

(** ** The sending side *)

Module ClientFacts.
Import Client Socket.

(** *** The file name *)

Lemma split_app_sep sep a : forall b,
  exists l, l <> [] /\ split sep (a ++ sep :: b) = l ++ split sep b.
Proof.
  induction a as [|c a IH]; intros b; cbn [app split].
  - rewrite N.eqb_refl. now exists [[]].
  - destruct (IH b) as ([|p l] & Hne & ->); [congruence|].
    destruct (c =? sep)%N.
    + now exists ([] :: p :: l).
    + now exists ((c :: p) :: l).
Qed.

Lemma split_no_sep sep F : ~ In sep F -> split sep F = [F].
Proof.
  induction F as [|c F IH]; intros Hn; cbn [split].
  - reflexivity.
  - destruct (N.eqb_spec c sep) as [->|_]; [exfalso; apply Hn; now left|].
    rewrite IH; [reflexivity|]. intros H. apply Hn. now right.
Qed.

Lemma last_app_nonempty {A} (l1 l2 : list A) d :
  l2 <> [] -> List.last (l1 ++ l2) d = List.last l2 d.
Proof.
  intros Hne. induction l1 as [|x l1 IH]; [reflexivity|].
  cbn [app List.last]. destruct (l1 ++ l2) eqn:E; [|exact IH].
  apply app_eq_nil in E. now destruct E.
Qed.

Lemma file_name_of_plain F : ~ In slash F -> file_name_of F = F.
Proof. intros Hn. unfold file_name_of. now rewrite split_no_sep. Qed.

Lemma file_name_of_dir dir F :
  ~ In slash F -> file_name_of (dir ++ slash :: F) = F.
Proof.
  intros Hn. unfold file_name_of.
  destruct (split_app_sep slash dir F) as (l & _ & ->).
  rewrite split_no_sep by exact Hn.
  now rewrite last_app_nonempty.
Qed.

(** *** Connecting and sending only extends the log *)

Lemma grows_refl w : grows w w.
Proof. split; [reflexivity|]. exists []. now rewrite app_nil_r. Qed.

Lemma grows_trans w1 w2 w3 : grows w1 w2 -> grows w2 w3 -> grows w1 w3.
Proof.
  intros (Hf & m1 & Ht & Hm) (Hf' & m2 & Ht' & Hm').
  split; [congruence|]. exists (m1 ++ m2).
  split; [rewrite Ht', Ht; now rewrite app_assoc | now apply Forall_app].
Qed.

Lemma steady_ret {A} (a : A) : steady (ret a).
Proof. intros w. split; [discriminate|]. split; [apply grows_refl | reflexivity]. Qed.

Lemma steady_raise {A} e : steady (@raise world A e).
Proof. intros w. split; [discriminate|]. split; [apply grows_refl | reflexivity]. Qed.

Lemma steady_bind {A B} (m : M world A) (k : A -> M world B) :
  steady m -> (forall a, steady (k a)) -> steady (bind m k).
Proof.
  intros Hm Hk w. unfold bind.
  destruct (Hm w) as (Hr & Hg & Hs).
  destruct (m w) as [[a|e|] w1]; cbn [fst snd] in *.
  - destruct (Hk a w1) as (Hr' & Hg' & Hs').
    split; [exact Hr'|].
    split; [eapply grows_trans; eassumption | congruence].
  - split; [discriminate|]. split; [exact Hg | exact Hs].
  - congruence.
Qed.

Lemma steady_may_raise err : steady (@may_raise world err).
Proof. destruct err; [apply steady_raise | apply steady_ret]. Qed.

Lemma steady_print l : steady (print l).
Proof.
  intros w. split; [discriminate|]. split; [|reflexivity].
  split; [reflexivity|]. exists []. now rewrite app_nil_r.
Qed.

Lemma steady_connect : steady (log_op OpConnect).
Proof.
  intros w. split; [discriminate|]. split; [|reflexivity].
  split; [reflexivity|].
  exists [OpConnect]. split; [reflexivity | now repeat constructor].
Qed.

Lemma steady_sendall data : steady (sendall data).
Proof.
  intros w. unfold sendall.
  destruct (send_script w) as [|[|k e] s]; cbn [fst snd];
    (split; [discriminate|]; split; [|reflexivity];
     split; [reflexivity|];
     exists [OpSend data]; split; [reflexivity | now repeat constructor]).
Qed.

Lemma steady_getsize (path : pystr) : steady (getsize path).
Proof.
  intros w. unfold getsize.
  destruct (files w !! path);
    (split; [discriminate|]; split; [apply grows_refl | reflexivity]).
Qed.

Lemma steady_open_rb (path : pystr) : steady (open_rb path).
Proof.
  intros w. unfold open_rb.
  destruct (files w !! path);
    (split; [discriminate|]; split; [apply grows_refl | reflexivity]).
Qed.

Lemma steady_encode s : steady (encode s).
Proof.
  unfold encode. destruct (Utf8.encode s); [apply steady_ret | apply steady_raise].
Qed.

Lemma steady_to_bytes4 n : steady (to_bytes4 n).
Proof.
  unfold to_bytes4.
  destruct (BigEndian.to_bytes4 _); [apply steady_ret | apply steady_raise].
Qed.

Lemma steady_progress sent size : steady (progress sent size).
Proof. destruct size; [apply steady_raise | apply steady_ret]. Qed.

Lemma steady_send_chunks fuel : forall rest sent size,
  (List.length rest < fuel)%nat -> steady (send_chunks fuel rest sent size).
Proof.
  induction fuel as [|fuel IH]; intros rest sent size Hf; [lia|].
  cbn [send_chunks].
  destruct (take 1024 rest) as [|b chunk] eqn:Et; [apply steady_ret|].
  apply steady_bind; [apply steady_sendall | intros _].
  apply steady_bind; [apply steady_progress | intros l].
  apply steady_bind; [apply steady_print | intros _].
  apply IH. rewrite length_drop.
  assert (0 < List.length (take 1024 rest))%nat by (rewrite Et; simpl; lia).
  rewrite length_take in H. lia.
Qed.

Lemma steady_stream_file e (path : pystr) : steady (stream_file e path).
Proof.
  unfold stream_file.
  apply steady_bind; [apply steady_connect | intros _].
  apply steady_bind; [apply steady_may_raise | intros _].
  apply steady_bind; [apply steady_print | intros _].
  apply steady_bind; [apply steady_print | intros _].
  apply steady_bind; [apply steady_print | intros _].
  apply steady_bind; [apply steady_getsize | intros size].
  apply steady_bind; [apply steady_encode | intros name].
  apply steady_bind; [apply steady_to_bytes4 | intros hdr].
  apply steady_bind; [apply steady_sendall | intros _].
  apply steady_bind; [apply steady_encode | intros name'].
  apply steady_bind; [apply steady_sendall | intros _].
  apply steady_bind; [apply steady_open_rb | intros file].
  apply steady_bind; [apply steady_send_chunks; lia | intros _].
  apply steady_bind; [apply steady_print | intros _].
  apply steady_print.
Qed.

(** *** Running [send_file] *)

Lemma bind_ok {W A B} (m : M W A) (k : A -> M W B) w a v :
  m w = (Ok a, v) -> bind m k w = k a v.
Proof. intros H. unfold bind. now rewrite H. Qed.

Lemma sendall_all_sent data w :
  all_sent (send_script w) ->
  exists s',
    sendall data w =
    (Ok tt, mkWorld (files w) (out w) (trace w ++ [OpSend data])
                    (wire w ++ data) s' (secure_socket w))
    /\ all_sent s'.
Proof.
  intros H. unfold sendall. destruct (send_script w) as [|[|k e] s].
  - exists []. split; [reflexivity | constructor].
  - exists s. split; [reflexivity | now inversion H].
  - inversion H; discriminate.
Qed.

Lemma send_chunks_all_sent fuel : forall rest sent size w,
  (List.length rest < fuel)%nat ->
  all_sent (send_script w) ->
  (rest = [] \/ 0 < size)%nat ->
  exists v,
    send_chunks fuel rest sent size w = (Ok tt, v)
    /\ wire v = wire w ++ rest /\ all_sent (send_script v)
    /\ secure_socket v = secure_socket w /\ files v = files w.
Proof.
  induction fuel as [|fuel IH]; intros rest sent size w Hf Hs Hsize; [lia|].
  cbn [send_chunks].
  destruct (take 1024 rest) as [|b chunk] eqn:Et.
  - destruct rest; [|discriminate]. exists w.
    rewrite app_nil_r. now repeat split.
  - destruct Hsize as [->|Hsize]; [discriminate|].
    destruct (sendall_all_sent (b :: chunk) w Hs) as (s1 & E1 & Hs1).
    rewrite (bind_ok _ _ _ _ _ E1).
    destruct size as [|size]; [lia|].
    unfold progress, print. unfold bind at 1, ret. unfold bind at 1, modify.
    edestruct (IH (drop 1024 rest) (sent + List.length (b :: chunk))%nat (S size))
      as (v & Ev & Hw & Hsv & Hsec & Hfl); [| |right; lia|].
    3:{ rewrite Ev. exists v. split; [reflexivity|].
        cbn [wire send_script secure_socket files] in *.
        rewrite Hw, <- app_assoc, <- Et, take_drop. now repeat split. }
    + rewrite length_drop.
      assert (0 < List.length (take 1024 rest))%nat by (rewrite Et; simpl; lia).
      rewrite length_take in H. lia.
    + exact Hs1.
Qed.

Lemma stream_file_all_sent e (path : pystr) content name hdr w :
  connect_err e = None ->
  all_sent (send_script w) ->
  files w !! path = Some content ->
  Utf8.encode (file_name_of path) = Some name ->
  BigEndian.to_bytes4 (N.of_nat (List.length name)) = Some hdr ->
  exists v,
    stream_file e path w = (Ok tt, v)
    /\ wire v = wire w ++ hdr ++ name ++ content
    /\ secure_socket v = secure_socket w
    /\ exists mid,
         trace v = trace w ++ OpConnect :: OpSend hdr :: OpSend name :: mid
         /\ Forall io_op mid.
Proof.
  intros Hc Hs Hfile Henc Hhdr. unfold stream_file.
  rewrite Hc. cbn [may_raise].
  do 5 (erewrite bind_ok by reflexivity).
  erewrite bind_ok by (unfold getsize; cbn [files]; rewrite Hfile; reflexivity).
  unfold encode. rewrite Henc.
  erewrite bind_ok by reflexivity.
  unfold to_bytes4. rewrite Hhdr.
  erewrite bind_ok by reflexivity.
  match goal with |- context [bind (sendall hdr) _ ?x] =>
    destruct (sendall_all_sent hdr x Hs) as (s1 & E1 & Hs1)
  end.
  rewrite (bind_ok _ _ _ _ _ E1).
  erewrite bind_ok by reflexivity.
  match goal with |- context [bind (sendall name) _ ?x] =>
    destruct (sendall_all_sent name x Hs1) as (s2 & E2 & Hs2)
  end.
  rewrite (bind_ok _ _ _ _ _ E2).
  erewrite bind_ok by (unfold open_rb; cbn [files]; rewrite Hfile; reflexivity).
  match goal with |- context [bind (send_chunks ?f ?r ?b ?z) _ ?x] =>
    destruct (send_chunks_all_sent f r b z x) as (v & Ev & Hw & _ & Hsec & Hfl);
      [lia | exact Hs2 | destruct content; [now left | right; simpl; lia] |];
    destruct (steady_send_chunks f r b z ltac:(lia) x)
      as (_ & (_ & mid & Hmid & Hio) & _)
  end.
  rewrite (bind_ok _ _ _ _ _ Ev).
  erewrite bind_ok by reflexivity.
  eexists. split; [reflexivity|].
  rewrite Ev in Hmid. cbn [snd] in Hmid.
  cbn [wire secure_socket trace files out send_script] in *.
  split; [rewrite Hw; now rewrite <- !app_assoc|].
  split; [exact Hsec|].
  exists mid. split; [|exact Hio].
  rewrite Hmid. now rewrite <- !app_assoc.
Qed.

Lemma send_file_enter e (path : pystr) w :
  is_Some (files w !! path) -> socket_err e = None ->
  send_file e path w =
  try_finally
    (try_except (transfer e path)
       [(is_SSLError, fun x => print (SSLErrorLine x));
        (is_ConnectionError, fun x => print (ConnectionErrorLine x));
        (is_Exception, fun x => print (ErrorLine x))])
    (close_session e)
    (mkWorld (files w) (out w) (trace w ++ [OpSocket]) (wire w)
             (send_script w) false).
Proof.
  intros Hfile Hsock. unfold send_file.
  erewrite bind_ok by reflexivity.
  erewrite bind_ok
    by (unfold gets; cbn [files]; rewrite bool_decide_eq_true_2 by exact Hfile;
        reflexivity).
  erewrite bind_ok by reflexivity.
  erewrite bind_ok by reflexivity.
  rewrite Hsock. reflexivity.
Qed.

Lemma send_file_missing e (path : pystr) w :
  files w !! path = None ->
  send_file e path w =
  (Raise (AssertionError not_found),
   mkWorld (files w) (out w) (trace w) (wire w) (send_script w) false).
Proof.
  intros Hfile. unfold send_file.
  erewrite bind_ok by reflexivity.
  erewrite bind_ok
    by (unfold gets; cbn [files]; rewrite bool_decide_eq_false_2;
        [reflexivity | rewrite Hfile; now intros [x Hx]]).
  reflexivity.
Qed.

Lemma client_close_run e w :
  close_session e w =
  (Ok tt,
   mkWorld (files w) (out w ++ [ClosedLine])
           (if secure_socket w
            then (trace w ++ [OpShutdown]) ++ [OpClose] else trace w)
           (wire w) (send_script w) (secure_socket w)).
Proof.
  destruct w as [f o t wi s [|]]; [|reflexivity].
  unfold close_session. destruct (shutdown_err e); reflexivity.
Qed.

(** The [except] clauses of [send_file] take every exception, and print. *)
Lemma guarded_ok (m : M world unit) w :
  fst (m w) <> Stuck ->
  exists l,
    try_except m
      [(is_SSLError, fun x => print (SSLErrorLine x));
       (is_ConnectionError, fun x => print (ConnectionErrorLine x));
       (is_Exception, fun x => print (ErrorLine x))] w
    = (Ok tt,
       mkWorld (files (snd (m w))) (out (snd (m w)) ++ l) (trace (snd (m w)))
               (wire (snd (m w))) (send_script (snd (m w)))
               (secure_socket (snd (m w)))).
Proof.
  intros Hn. unfold try_except.
  destruct (m w) as [[[]|x|] [f o t wi s b]]; cbn [fst snd] in *.
  - exists []. now rewrite app_nil_r.
  - cbn [dispatch is_Exception].
    destruct (is_SSLError x); [eexists; reflexivity|].
    destruct (is_ConnectionError x); eexists; reflexivity.
  - congruence.
Qed.

(** However the transfer goes, [send_file] returns normally once the file
    is there and the socket exists; when [wrap_socket] has bound
    [secure_socket], the socket is shut down and closed once, at the end. *)
Lemma send_file_run e (path : pystr) w :
  is_Some (files w !! path) -> socket_err e = None ->
  exists v,
    send_file e path w = (Ok tt, v)
    /\ ((context_err e = None /\ wrap_err e = None /\
         exists mid,
           trace v = trace w ++ OpSocket :: mid ++ [OpShutdown; OpClose]
           /\ Forall io_op mid)
        \/ ((context_err e <> None \/ wrap_err e <> None)
            /\ trace v = trace w ++ [OpSocket])).
Proof.
  intros Hfile Hsock. rewrite send_file_enter by assumption.
  set (w0 := mkWorld _ _ _ _ _ false).
  unfold try_finally.
  assert (Hn : fst (transfer e path w0) <> Stuck
               /\ ((context_err e = None /\ wrap_err e = None /\
                    secure_socket (snd (transfer e path w0)) = true /\
                    exists mid,
                      trace (snd (transfer e path w0)) = trace w0 ++ mid
                      /\ Forall io_op mid)
                   \/ ((context_err e <> None \/ wrap_err e <> None)
                       /\ snd (transfer e path w0) = w0))).
  { unfold transfer.
    destruct (context_err e) as [x|]; [split; [discriminate|]; right; split;
      [left; discriminate | reflexivity]|].
    destruct (wrap_err e) as [x|]; [split; [discriminate|]; right; split;
      [right; discriminate | reflexivity]|].
    cbn [may_raise]. erewrite bind_ok by reflexivity.
    erewrite bind_ok by reflexivity. erewrite bind_ok by reflexivity.
    match goal with |- context [stream_file e path ?x] =>
      destruct (steady_stream_file e path x) as (Hr & (_ & mid & Ht & Hio) & Hs)
    end.
    split; [exact Hr|]. left. repeat split; [exact Hs|].
    exists mid. split; [exact Ht | exact Hio]. }
  destruct Hn as [Hn Hcases].
  destruct (guarded_ok (transfer e path) w0 Hn) as [l ->].
  rewrite client_close_run.
  cbn [files out trace wire send_script secure_socket].
  eexists. split; [reflexivity|].
  cbn [files out trace wire send_script secure_socket].
  destruct Hcases as [(Hc & Hw & Hsec & mid & Ht & Hio)|(Hc & Hw)].
  - left. repeat split; try assumption.
    exists mid. split; [|exact Hio].
    rewrite Hsec, Ht. subst w0. cbn [trace].
    now rewrite <- !app_assoc.
  - right. split; [exact Hc|]. rewrite Hw. reflexivity.
Qed.

Lemma send_file_all_sent e (path : pystr) content name hdr w :
  reliable e ->
  all_sent (send_script w) ->
  files w !! path = Some content ->
  Utf8.encode (file_name_of path) = Some name ->
  BigEndian.to_bytes4 (N.of_nat (List.length name)) = Some hdr ->
  exists v,
    send_file e path w = (Ok tt, v)
    /\ wire v = wire w ++ hdr ++ name ++ content
    /\ exists mid,
         trace v = trace w ++ OpSocket :: OpConnect :: OpSend hdr
                   :: OpSend name :: mid ++ [OpShutdown; OpClose]
         /\ Forall io_op mid.
Proof.
  intros (Hsock & Hctx & Hwrap & Hconn) Hs Hfile Henc Hhdr.
  rewrite send_file_enter by (rewrite ?Hfile; eauto).
  unfold try_finally, try_except, transfer. rewrite Hctx, Hwrap.
  cbn [may_raise]. erewrite bind_ok by reflexivity.
  erewrite bind_ok by reflexivity. erewrite bind_ok by reflexivity.
  match goal with |- context [stream_file e path ?x] =>
    destruct (stream_file_all_sent e path content name hdr x Hconn Hs Hfile
                Henc Hhdr) as (v & -> & Hw & Hsec & mid & Ht & Hio)
  end.
  rewrite client_close_run. rewrite Hsec.
  cbn [files out trace wire send_script secure_socket] in *.
  eexists. split; [reflexivity|].
  cbn [files out trace wire send_script secure_socket].
  split; [exact Hw|].
  exists mid. split; [|exact Hio]. rewrite Ht. now rewrite <- !app_assoc.
Qed.

End ClientFacts.

(** ** The frame, end to end *)

Module FrameFacts.
Import Server Stream ServerFacts SessionFacts.

Lemma receive_data_exact n w :
  benign (recv_script (cur w)) ->
  (n <= List.length (pending (cur w)))%nat ->
  exists s',
    receive_data n w =
    (Ok (take n (pending (cur w))),
     set_cur (mkConn (drop n (pending (cur w))) s' (select_script (cur w))
                     (shutdown_err (cur w))) w)
    /\ benign s'.
Proof.
  intros Hb Hn. rewrite receive_data_spec.
  destruct (read_exact_benign (recv_script (cur w)) (pending (cur w)) n [] Hb)
    as (s' & Hr & Hs'); [cbn; lia | cbn; lia |].
  cbn [List.length app] in Hr. rewrite Nat.sub_0_r in Hr.
  rewrite Hr. cbn [fst snd]. eauto.
Qed.

Lemma write_all_fresh (name : pystr) (content : bytes) (f : gmap pystr bytes) :
  write_all name content (<[name := []]> f) = <[name := content]> f.
Proof.
  unfold write_all. destruct content as [|b content]; [reflexivity|].
  rewrite lookup_insert_eq, insert_insert_eq. reflexivity.
Qed.

(** Receiving a well-formed frame from a stream that only fragments and
    stalls. *)
Lemma receive_file_frame (F : pystr) (hdr name content : bytes) w :
  BigEndian.to_bytes4 (N.of_nat (List.length name)) = Some hdr ->
  Utf8.decode name = Some F ->
  pending (cur w) = hdr ++ name ++ content ->
  benign (recv_script (cur w)) ->
  exists s' sel',
    receive_file w =
    (Ok tt,
     mkWorld (<[F := content]> (fs w))
             ((out w ++ [Receiving F]) ++ [Received F]) (trace w)
             (mkConn [] s' sel' (shutdown_err (cur w)))
             (client_socket w) (next_id w)).
Proof.
  intros Hhdr Hdec Hp Hb.
  pose proof (BigEndianFacts.to_bytes4_length _ _ Hhdr) as Hl.
  pose proof (BigEndianFacts.from_to_bytes4 _ _ Hhdr) as Hv.
  destruct w as [f o t [p s sel sd] cs n].
  cbn [cur pending recv_script select_script shutdown_err fs out trace
       client_socket next_id] in *. subst p.
  unfold receive_file.
  destruct (receive_data_exact 4
              (mkWorld f o t (mkConn (hdr ++ name ++ content) s sel sd) cs n))
    as (s1 & E1 & Hb1); [exact Hb | cbn; rewrite length_app; lia |].
  cbn [cur pending recv_script select_script shutdown_err set_cur
       fs out trace client_socket next_id] in E1.
  rewrite take_app_length' in E1 by (symmetry; exact Hl).
  rewrite drop_app_length' in E1 by (symmetry; exact Hl).
  rewrite (ClientFacts.bind_ok _ _ _ _ _ E1).
  rewrite Hv, Nat2N.id.
  destruct (receive_data_exact (List.length name)
              (mkWorld f o t (mkConn (name ++ content) s1 sel sd) cs n))
    as (s2 & E2 & Hb2); [exact Hb1 | cbn; rewrite length_app; lia |].
  cbn [cur pending recv_script select_script shutdown_err set_cur
       fs out trace client_socket next_id] in E2.
  rewrite take_app_length, drop_app_length in E2.
  rewrite (ClientFacts.bind_ok _ _ _ _ _ E2).
  unfold decode. rewrite Hdec.
  erewrite ClientFacts.bind_ok by reflexivity.
  erewrite ClientFacts.bind_ok by reflexivity.
  erewrite ClientFacts.bind_ok by reflexivity.
  destruct (drain_benign s2 content Hb2) as (s3 & D).
  match goal with |- context [bind (receive_payload F) _ ?x] =>
    destruct (receive_payload_spec F x _ _ _ _ D) as (sel' & E3)
  end.
  rewrite (ClientFacts.bind_ok _ _ _ _ _ E3).
  cbn [cur pending recv_script select_script shutdown_err set_cur set_fs
       fs out trace client_socket next_id].
  rewrite write_all_fresh.
  exists s3, sel'. reflexivity.
Qed.

End FrameFacts.

(** ** Client and server together: claims *)

Module TransferClaims.
Import Socket Stream ClientFacts ServerFacts SessionFacts FrameFacts.

Lemma file_name_of_cases (path F : pystr) :
  ~ In Client.slash F ->
  path = F \/ (exists dir, path = dir ++ Client.slash :: F) ->
  Client.file_name_of path = F.
Proof.
  intros Hn [->|[dir ->]];
    [now apply file_name_of_plain | now apply file_name_of_dir].
Qed.

(** C1: the round trip.  A file of any content (of any size, zero
    included) whose name [F] encodes to UTF-8 and holds no slash is sent by
    [send_file] as the four-byte length, the name and the content; fed to
    the server's receive, however the stream is cut into reads and however
    often a read or a poll has to be tried again, these bytes give a file
    named [F] with the same content, hence the same length.  (The name has
    to fit the length field, as every name of an existing file does.) *)
Theorem round_trip (e : Client.env) (wc : Client.world) (ws : Server.world)
  (path F : pystr) (content name : bytes)
  (script : list Server.recv_event) (sel : list bool) :
  ~ In Client.slash F ->
  path = F \/ (exists dir, path = dir ++ Client.slash :: F) ->
  Utf8.encode F = Some name ->
  (N.of_nat (List.length name) < 2 ^ 32)%N ->
  Client.files wc !! path = Some content ->
  Client.wire wc = [] ->
  reliable e ->
  all_sent (Client.send_script wc) ->
  benign script ->
  let sent := Client.send_file e path wc in
  let got :=
    Server.receive_file (incoming (Client.wire (snd sent)) script sel ws) in
  fst sent = Ok tt
  /\ fst got = Ok tt
  /\ Server.fs (snd got) !! F = Some content
  /\ List.length <$> (Server.fs (snd got) !! F) = Some (List.length content)
  /\ Server.out (snd got)
     = Server.out ws ++ [Server.Receiving F; Server.Received F].
Proof.
  intros Hn Hpath Henc Hlen Hfile Hwire He Hs Hb sent got.
  pose proof (file_name_of_cases path F Hn Hpath) as HF.
  destruct (BigEndianFacts.to_bytes4_Some _ Hlen) as [hdr Hhdr].
  destruct (send_file_all_sent e path content name hdr wc He Hs Hfile)
    as (v & Ev & Hw & _); [now rewrite HF | exact Hhdr |].
  subst sent got. rewrite Ev. cbn [fst snd]. rewrite Hw, Hwire, app_nil_l.
  destruct (receive_file_frame F hdr name content
              (incoming (hdr ++ name ++ content) script sel ws))
    as (s' & sel' & Er);
    [exact Hhdr | now apply Utf8Facts.decode_encode | reflexivity | exact Hb |].
  rewrite Er. cbn [fst snd Server.fs Server.out].
  destruct ws as [f o t c cs n]. cbn.
  rewrite lookup_insert_eq, <- app_assoc. cbn. repeat split.
Qed.

Lemma round_trip_witness :
  let sent :=
    Client.send_file Scenario.calm Scenario.report_path
      Scenario.client_with_report in
  Server.fs
    (snd (Server.receive_file
            (incoming (Client.wire (snd sent)) Scenario.choppy [false; true]
               Scenario.idle_server)))
  !! Scenario.report_name = Some Scenario.report.
Proof.
  refine (proj1 (proj2 (proj2
    (round_trip Scenario.calm Scenario.client_with_report Scenario.idle_server
       Scenario.report_path Scenario.report_name Scenario.report
       (List.map byte_of_N Scenario.report_name) Scenario.choppy [false; true]
       _ _ _ _ _ _ _ _ _)))).
  - vm_compute. intros H.
    repeat (destruct H as [H|H]; [discriminate H|]). exact H.
  - right. exists (Scenario.text "out"). reflexivity.
  - reflexivity.
  - reflexivity.
  - reflexivity.
  - reflexivity.
  - repeat split.
  - constructor.
  - repeat constructor.
Defined.

(** C3: the framing.  The length field that [send_file] writes is the
    big-endian form of the byte length of the encoded file name, and the
    name follows it at once; [receive_data(4)] gives exactly these four
    bytes, [receive_data(N)] for the [N] they hold gives exactly the name,
    and what is left in the stream for the payload loop is exactly the
    content.  In general [receive_data(n)] returns the next [n] bytes of
    the stream and takes no more than these out of it. *)
Theorem framing (e : Client.env) (wc : Client.world) (ws : Server.world)
  (path : pystr) (content name hdr : bytes)
  (script : list Server.recv_event) (sel : list bool) :
  Client.files wc !! path = Some content ->
  Utf8.encode (Client.file_name_of path) = Some name ->
  BigEndian.to_bytes4 (N.of_nat (List.length name)) = Some hdr ->
  Client.wire wc = [] ->
  reliable e ->
  all_sent (Client.send_script wc) ->
  benign script ->
  let sent := snd (Client.send_file e path wc) in
  let w0 := incoming (Client.wire sent) script sel ws in
  let w1 := snd (Server.receive_data 4 w0) in
  let n := N.to_nat (BigEndian.from_bytes hdr) in
  let w2 := snd (Server.receive_data n w1) in
  Client.wire sent = hdr ++ name ++ content
  /\ (exists mid,
        Client.trace sent
        = Client.trace wc ++ Client.OpSocket :: Client.OpConnect
            :: Client.OpSend hdr :: Client.OpSend name
            :: mid ++ [Client.OpShutdown; Client.OpClose])
  /\ List.length hdr = 4%nat
  /\ n = List.length name
  /\ fst (Server.receive_data 4 w0) = Ok hdr
  /\ Server.pending (Server.cur w1) = name ++ content
  /\ fst (Server.receive_data n w1) = Ok name
  /\ Server.pending (Server.cur w2) = content
  /\ (forall k w,
        benign (Server.recv_script (Server.cur w)) ->
        (k <= List.length (Server.pending (Server.cur w)))%nat ->
        fst (Server.receive_data k w)
        = Ok (take k (Server.pending (Server.cur w)))
        /\ Server.pending (Server.cur (snd (Server.receive_data k w)))
           = drop k (Server.pending (Server.cur w))).
Proof.
  intros Hfile Henc Hhdr Hwire He Hs Hb sent w0 w1 n w2.
  pose proof (BigEndianFacts.to_bytes4_length _ _ Hhdr) as Hl.
  pose proof (BigEndianFacts.from_to_bytes4 _ _ Hhdr) as Hv.
  assert (Hn : n = List.length name) by (subst n; now rewrite Hv, Nat2N.id).
  destruct (send_file_all_sent e path content name hdr wc He Hs Hfile Henc Hhdr)
    as (v & Ev & Hw & mid & Ht & _).
  assert (Hsent : sent = v) by (subst sent; now rewrite Ev).
  rewrite Hwire, app_nil_l in Hw.
  assert (Hgen : forall k w,
    benign (Server.recv_script (Server.cur w)) ->
    (k <= List.length (Server.pending (Server.cur w)))%nat ->
    fst (Server.receive_data k w)
    = Ok (take k (Server.pending (Server.cur w)))
    /\ Server.pending (Server.cur (snd (Server.receive_data k w)))
       = drop k (Server.pending (Server.cur w))
    /\ benign (Server.recv_script (Server.cur (snd (Server.receive_data k w))))).
  { intros k w Hbw Hk.
    destruct (receive_data_exact k w Hbw Hk) as (s' & -> & Hs').
    repeat split. exact Hs'. }
  destruct (Hgen 4%nat w0) as (R1 & P1 & B1).
  { exact Hb. }
  { subst w0. cbn. rewrite Hsent, Hw, length_app. lia. }
  assert (Hp0 : Server.pending (Server.cur w0) = hdr ++ name ++ content).
  { subst w0. cbn. now rewrite Hsent, Hw. }
  rewrite Hp0 in R1, P1.
  rewrite take_app_length' in R1 by (symmetry; exact Hl).
  rewrite drop_app_length' in P1 by (symmetry; exact Hl).
  fold w1 in P1, B1.
  destruct (Hgen n w1 B1) as (R2 & P2 & _).
  { rewrite P1, length_app. lia. }
  rewrite P1, Hn in R2, P2.
  rewrite take_app_length in R2. rewrite drop_app_length in P2.
  rewrite <- Hn in R2, P2. fold w2 in P2.
  rewrite Hsent.
  split; [exact Hw|]. split; [now exists mid|].
  split; [exact Hl|]. split; [exact Hn|]. split; [exact R1|].
  split; [exact P1|]. split; [exact R2|]. split; [exact P2|].
  intros k w Hbw Hk. destruct (Hgen k w Hbw Hk) as (? & ? & _). now split.
Qed.

Lemma framing_witness :
  let sent :=
    snd (Client.send_file Scenario.calm Scenario.report_path
           Scenario.client_with_report) in
  let w0 :=
    incoming (Client.wire sent) Scenario.choppy [] Scenario.idle_server in
  fst (Server.receive_data 4 w0) = Ok [x00; x00; x00; x0a]
  /\ Server.pending (Server.cur (snd (Server.receive_data 4 w0)))
     = List.map byte_of_N Scenario.report_name ++ Scenario.report.
Proof.
  pose proof
    (framing Scenario.calm Scenario.client_with_report Scenario.idle_server
       Scenario.report_path Scenario.report
       (List.map byte_of_N Scenario.report_name) [x00; x00; x00; x0a]
       Scenario.choppy []
       eq_refl eq_refl eq_refl eq_refl
       (conj eq_refl (conj eq_refl (conj eq_refl eq_refl)))
       ltac:(constructor)
       ltac:(repeat constructor)) as H.
  cbv zeta in H.
  destruct H as (_ & _ & _ & _ & H1 & H2 & _).
  split; [exact H1 | exact H2].
Defined.

(** C6: a source file that does not exist.  [send_file] raises the
    [AssertionError] of its first statement: no socket is created, no
    connection is attempted, nothing is sent or printed.  The client
    started on such a path (with a valid port) ends with the same empty
    log of socket calls. *)
Theorem missing_file_opens_no_socket (py_int : pystr -> option Z)
  (e : Client.env) (prog ip port_arg path : pystr) (port : Z)
  (w : Client.world) :
  Client.files w !! path = None ->
  py_int port_arg = Some port ->
  (1024 <= port <= 65535)%Z ->
  fst (Client.send_file e path w) = Raise (AssertionError Client.not_found)
  /\ Client.trace (snd (Client.send_file e path w)) = Client.trace w
  /\ Client.wire (snd (Client.send_file e path w)) = Client.wire w
  /\ Client.out (snd (Client.send_file e path w)) = Client.out w
  /\ Client.trace (snd (Client.main py_int e [prog; ip; port_arg; path] w))
     = Client.trace w
  /\ Client.exit_status
       (fst (Client.main py_int e [prog; ip; port_arg; path] w)) = Some 1%Z.
Proof.
  intros Hfile Hint [H1 H2].
  rewrite send_file_missing by exact Hfile. cbn [fst snd Client.trace
    Client.wire Client.out].
  repeat split.
  - unfold Client.main, try_except. rewrite Hint.
    apply Z.leb_le in H1, H2.
    unfold bind at 2. unfold ret at 1. rewrite H1, H2. cbn [andb].
    unfold bind at 2. unfold ret at 1.
    unfold bind. rewrite send_file_missing by exact Hfile. reflexivity.
  - unfold Client.main, try_except. rewrite Hint.
    apply Z.leb_le in H1, H2.
    unfold bind at 2. unfold ret at 1. rewrite H1, H2. cbn [andb].
    unfold bind at 2. unfold ret at 1.
    unfold bind. rewrite send_file_missing by exact Hfile. reflexivity.
Qed.

Lemma missing_file_opens_no_socket_witness :
  Client.trace
    (snd (Client.send_file Scenario.calm (Scenario.text "missing.txt")
            Scenario.bare_client)) = []
  /\ Client.exit_status
       (fst (Client.main Client.digits_to_int Scenario.calm
               Scenario.argv_missing Scenario.bare_client)) = Some 1%Z.
Proof.
  pose proof
    (missing_file_opens_no_socket Client.digits_to_int Scenario.calm
       (Scenario.text "SecureNetFileXferClient.py") (Scenario.text "127.0.0.1")
       (Scenario.text "8443") (Scenario.text "missing.txt") 8443%Z
       Scenario.bare_client eq_refl eq_refl ltac:(lia)) as H.
  destruct H as (_ & H1 & _ & _ & _ & H2).
  split; [exact H1 | exact H2].
Defined.

(** C7: teardown.  Once the client has its TLS socket (the file is there,
    and the socket, the context and the wrapping succeeded), [send_file]
    ends normally however the connection and the transfer go (success, a
    failed connection, a failed send, a timeout), and its log of socket
    calls ends with one [shutdown] and then one [close], none of either
    before.  A session of the server ends normally as well, whatever the
    receive did, with one [shutdown] and then one [close] as its only
    socket calls.  A failing [shutdown] changes none of this. *)
Theorem teardown_runs_once (e : Client.env) (wc : Client.world)
  (path : pystr) (id : nat) (ws : Server.world) :
  is_Some (Client.files wc !! path) ->
  Client.socket_err e = None ->
  Client.context_err e = None ->
  Client.wrap_err e = None ->
  (fst (Client.send_file e path wc) = Ok tt
   /\ exists mid,
        Client.trace (snd (Client.send_file e path wc))
        = Client.trace wc ++ Client.OpSocket :: mid
            ++ [Client.OpShutdown; Client.OpClose]
        /\ Forall io_op mid)
  /\ fst (Server.session id ws) = Ok tt
  /\ Server.trace (snd (Server.session id ws))
     = Server.trace ws ++ [Server.OpShutdown id; Server.OpClose id].
Proof.
  intros Hfile Hsock Hctx Hwrap.
  destruct (send_file_run e path wc Hfile Hsock) as (v & -> & Hcases).
  cbn [fst snd]. split.
  - split; [reflexivity|].
    destruct Hcases as [(_ & _ & Hmid)|([Hc|Hc] & _)];
      [exact Hmid | congruence | congruence].
  - destruct (session_run id ws) as (Hr & Ht & _). now split.
Qed.

Lemma teardown_runs_once_witness :
  fst (Client.send_file Scenario.refused Scenario.report_path
         Scenario.client_with_report) = Ok tt
  /\ Client.trace
       (snd (Client.send_file Scenario.refused Scenario.report_path
               Scenario.client_with_report))
     = [Client.OpSocket; Client.OpConnect; Client.OpShutdown; Client.OpClose].
Proof.
  pose proof
    (teardown_runs_once Scenario.refused Scenario.client_with_report
       Scenario.report_path 0%nat Scenario.idle_server
       (ex_intro _ Scenario.report eq_refl) eq_refl eq_refl eq_refl) as H.
  destruct H as ((H1 & _) & _).
  split; [exact H1 | reflexivity].
Defined.

Lemma stream_file_empty (e : Client.env) (w : Client.world)
  (path : pystr) (name hdr : bytes) :
  Client.files w !! path = Some [] ->
  Utf8.encode (Client.file_name_of path) = Some name ->
  BigEndian.to_bytes4 (N.of_nat (List.length name)) = Some hdr ->
  Client.connect_err e = None ->
  all_sent (Client.send_script w) ->
  exists s',
    Client.stream_file e path w =
    (Ok tt,
     Client.mkWorld (Client.files w)
       (((((Client.out w ++ [Client.Connected]) ++ [Client.UsingCipher])
          ++ [Client.TLSVersion]) ++ [Client.Newline])
        ++ [Client.SentOk])
       (((Client.trace w ++ [Client.OpConnect]) ++ [Client.OpSend hdr])
        ++ [Client.OpSend name])
       ((Client.wire w ++ hdr) ++ name) s' (Client.secure_socket w)).
Proof.
  intros Hfile Henc Hhdr Hconn Hs.
  unfold Client.stream_file.
  rewrite Hconn. cbn [may_raise].
  do 5 (erewrite bind_ok by reflexivity).
  erewrite bind_ok
    by (unfold Client.getsize; cbn [Client.files]; rewrite Hfile; reflexivity).
  unfold Client.encode. rewrite Henc.
  erewrite bind_ok by reflexivity.
  unfold Client.to_bytes4. rewrite Hhdr.
  erewrite bind_ok by reflexivity.
  match goal with |- context [bind (Client.sendall hdr) _ ?x] =>
    destruct (sendall_all_sent hdr x Hs) as (s1 & E1 & Hs1)
  end.
  rewrite (bind_ok _ _ _ _ _ E1).
  erewrite bind_ok by reflexivity.
  match goal with |- context [bind (Client.sendall name) _ ?x] =>
    destruct (sendall_all_sent name x Hs1) as (s2 & E2 & Hs2)
  end.
  rewrite (bind_ok _ _ _ _ _ E2).
  erewrite bind_ok
    by (unfold Client.open_rb; cbn [Client.files]; rewrite Hfile; reflexivity).
  erewrite bind_ok by reflexivity.
  erewrite bind_ok by reflexivity.
  exists s2. reflexivity.
Qed.

Lemma send_file_empty (e : Client.env) (w : Client.world)
  (path : pystr) (name hdr : bytes) :
  Client.files w !! path = Some [] ->
  Utf8.encode (Client.file_name_of path) = Some name ->
  BigEndian.to_bytes4 (N.of_nat (List.length name)) = Some hdr ->
  reliable e ->
  all_sent (Client.send_script w) ->
  exists s',
    Client.send_file e path w =
    (Ok tt,
     Client.mkWorld (Client.files w)
       (Client.out w ++ [Client.Connected; Client.UsingCipher;
                         Client.TLSVersion; Client.Newline; Client.SentOk;
                         Client.ClosedLine])
       (Client.trace w
        ++ [Client.OpSocket; Client.OpConnect; Client.OpSend hdr;
            Client.OpSend name; Client.OpShutdown; Client.OpClose])
       (Client.wire w ++ hdr ++ name) s' true).
Proof.
  intros Hfile Henc Hhdr (Hsock & Hctx & Hwrap & Hconn) Hs.
  rewrite send_file_enter by (rewrite ?Hfile; eauto).
  unfold try_finally, try_except, Client.transfer. rewrite Hctx, Hwrap.
  cbn [may_raise]. do 3 (erewrite bind_ok by reflexivity).
  match goal with |- context [Client.stream_file e path ?x] =>
    destruct (stream_file_empty e x path name hdr Hfile Henc Hhdr Hconn Hs)
      as (s' & ->)
  end.
  rewrite client_close_run.
  cbn [fst snd Client.files Client.out Client.trace Client.wire
       Client.send_script Client.secure_socket].
  exists s'. rewrite <- !app_assoc. reflexivity.
Qed.

(** C9: a file of zero bytes.  The first [file.read] returns nothing, so
    the loop ends before its body runs: whatever the file size, the
    division of the progress report is not reached (with a size of zero it
    would raise [ZeroDivisionError]).  [send_file] sends the header and
    the file name and nothing else, prints no progress line and no error,
    and returns normally. *)
Theorem empty_file_never_divides (e : Client.env) (w : Client.world)
  (path : pystr) (name hdr : bytes) :
  Client.files w !! path = Some [] ->
  Utf8.encode (Client.file_name_of path) = Some name ->
  BigEndian.to_bytes4 (N.of_nat (List.length name)) = Some hdr ->
  reliable e ->
  all_sent (Client.send_script w) ->
  (forall fuel sent size v,
     Client.send_chunks (S fuel) [] sent size v = (Ok tt, v))
  /\ (forall sent v,
        fst (Client.progress sent 0 v) = Raise ZeroDivisionError)
  /\ fst (Client.send_file e path w) = Ok tt
  /\ Client.wire (snd (Client.send_file e path w))
     = Client.wire w ++ hdr ++ name
  /\ Client.trace (snd (Client.send_file e path w))
     = Client.trace w
       ++ [Client.OpSocket; Client.OpConnect; Client.OpSend hdr;
           Client.OpSend name; Client.OpShutdown; Client.OpClose]
  /\ Client.out (snd (Client.send_file e path w))
     = Client.out w
       ++ [Client.Connected; Client.UsingCipher; Client.TLSVersion;
           Client.Newline; Client.SentOk;
           Client.ClosedLine].
Proof.
  intros Hfile Henc Hhdr He Hs.
  split; [reflexivity|]. split; [reflexivity|].
  destruct (send_file_empty e w path name hdr Hfile Henc Hhdr He Hs) as [s' ->].
  repeat split.
Qed.

Lemma empty_file_never_divides_witness :
  Client.out
    (snd (Client.send_file Scenario.calm (Scenario.text "empty.dat")
            Scenario.client_with_empty_file))
  = [Client.Connected; Client.UsingCipher; Client.TLSVersion; Client.Newline;
     Client.SentOk; Client.ClosedLine].
Proof.
  exact (proj2 (proj2 (proj2 (proj2 (proj2
    (empty_file_never_divides Scenario.calm Scenario.client_with_empty_file
       (Scenario.text "empty.dat")
       (List.map byte_of_N (Scenario.text "empty.dat")) [x00; x00; x00; x09]
       eq_refl eq_refl eq_refl
       (conj eq_refl (conj eq_refl (conj eq_refl eq_refl)))
       ltac:(constructor))))))).
Defined.

(** C10, as the code has it: [send_file] takes every exception raised
    while it connects, shakes hands or transfers, prints it, and returns
    normally, so that the client then ends with exit status 0, also when
    the transfer failed.  This holds for the invocations that get that
    far: three arguments, a port that is a number from 1024 to 65535, a
    source file that exists, a socket that could be created. *)
Theorem client_exits_zero_after_transfer (py_int : pystr -> option Z)
  (e : Client.env) (prog ip port_arg path : pystr) (port : Z)
  (w : Client.world) :
  py_int port_arg = Some port ->
  (1024 <= port <= 65535)%Z ->
  is_Some (Client.files w !! path) ->
  Client.socket_err e = None ->
  fst (Client.send_file e path w) = Ok tt
  /\ Client.exit_status
       (fst (Client.main py_int e [prog; ip; port_arg; path] w)) = Some 0%Z
  /\ (forall x sd,
        Client.out
          (snd (Client.send_file (Client.mkEnv None None None (Some x) sd)
                  path w))
        = Client.out w
          ++ [if is_SSLError x then Client.SSLErrorLine x
              else if is_ConnectionError x then Client.ConnectionErrorLine x
              else Client.ErrorLine x;
              Client.ClosedLine]).
Proof.
  intros Hint [H1 H2] Hfile Hsock.
  destruct (send_file_run e path w Hfile Hsock) as (v & Ev & _).
  split; [now rewrite Ev|]. split.
  - unfold Client.main, try_except. rewrite Hint.
    apply Z.leb_le in H1, H2.
    unfold bind at 2. unfold ret at 1. rewrite H1, H2. cbn [andb].
    unfold bind at 2. unfold ret at 1.
    unfold bind. rewrite Ev. reflexivity.
  - intros x sd. rewrite send_file_enter by (exact Hfile || reflexivity).
    unfold try_finally, try_except, Client.transfer, Client.stream_file.
    cbn [may_raise Client.context_err Client.wrap_err Client.connect_err].
    do 4 (erewrite bind_ok by reflexivity).
    unfold bind at 1, raise. cbn [dispatch is_Exception].
    destruct (is_SSLError x); [|destruct (is_ConnectionError x)];
      unfold Client.print, modify; rewrite client_close_run;
      cbn [snd Client.out]; now rewrite <- app_assoc.
Qed.

Lemma client_exits_zero_after_transfer_witness :
  Client.exit_status
    (fst (Client.main Client.digits_to_int Scenario.refused
            Scenario.argv_report Scenario.client_with_report)) = Some 0%Z
  /\ Client.out
       (snd (Client.send_file Scenario.refused Scenario.report_path
               Scenario.client_with_report))
     = [Client.ConnectionErrorLine (ConnectionError "refused");
        Client.ClosedLine].
Proof.
  pose proof
    (client_exits_zero_after_transfer Client.digits_to_int Scenario.refused
       (Scenario.text "SecureNetFileXferClient.py") (Scenario.text "127.0.0.1")
       (Scenario.text "8443") Scenario.report_path 8443%Z
       Scenario.client_with_report eq_refl ltac:(lia)
       (ex_intro _ Scenario.report eq_refl) eq_refl) as H.
  destruct H as (_ & H1 & H2).
  split; [exact H1 | exact (H2 (ConnectionError "refused") None)].
Defined.

(** C10, as the claim states it, fails: started on a source file that does
    not exist, the client ends with exit status 1, the [AssertionError] of
    [send_file] reaching the top level. *)
Lemma exit_status_counterexample :
  Client.exit_status
    (fst (Client.main Client.digits_to_int Scenario.calm
            Scenario.argv_missing Scenario.bare_client)) <> Some 0%Z.
Proof. vm_compute. discriminate. Qed.

End TransferClaims.

(** * Further properties *)

(** ** The receiving side *)

Module ServerExtras.
Import Server Stream ServerFacts SessionFacts FrameFacts.

Lemma read_exact_raise_origin s : forall p length data e,
  fst (read_exact s p length data) = Raise e ->
  e = closed_by_client \/ In (RecvRaises e) s.
Proof.
  induction s as [|[k|x] s IH]; intros p length data e; cbn [read_exact];
    destruct (List.length data <? length)%nat; try discriminate.
  - destruct (_ <=? _)%nat; [discriminate|]. intros [= <-]. now left.
  - destruct (take _ p); [intros [= <-]; now left|].
    intros H. destruct (IH _ _ _ _ H); [now left | right; now right].
  - destruct (is_SSLWantReadError x).
    + intros H. destruct (IH _ _ _ _ H); [now left | right; now right].
    + intros [= <-]. right. now left.
Qed.

(** X1: [receive_data(n)] returns exactly the next [n] bytes of the
    stream, or raises; it never returns fewer.  When it returns, the
    stream has lost these [n] bytes and no others, whatever happened in
    the reads; when it raises, the exception is the [ConnectionError] of
    a closed connection or one that [recv] raised, never the "not ready
    yet" signal. *)
Theorem receive_data_exact_or_raises (n : nat) (w : world) :
  match fst (receive_data n w) with
  | Ok data =>
      data = take n (pending (cur w))
      /\ List.length data = n
      /\ pending (cur (snd (receive_data n w))) = drop n (pending (cur w))
      /\ fs (snd (receive_data n w)) = fs w
  | Raise e =>
      is_SSLWantReadError e = false
      /\ (e = closed_by_client \/ In (RecvRaises e) (recv_script (cur w)))
      /\ fs (snd (receive_data n w)) = fs w
  | Stuck => False
  end.
Proof.
  rewrite receive_data_spec. cbn [fst snd].
  pose proof (read_exact_not_stuck (recv_script (cur w)) (pending (cur w)) n [])
    as Hn.
  pose proof (read_exact_raise (recv_script (cur w)) (pending (cur w)) n [])
    as Hr.
  pose proof (read_exact_raise_origin (recv_script (cur w)) (pending (cur w)) n [])
    as Ho.
  destruct (read_exact (recv_script (cur w)) (pending (cur w)) n [])
    as [[data|e|] [s' p']] eqn:R; cbn [fst snd] in *.
  - destruct (read_exact_ok _ _ _ _ _ _ _ R (Nat.le_0_l n)) as (Hd & Hp & Hl).
    cbn [List.length app] in Hd, Hp, Hl. rewrite Nat.sub_0_r in Hd, Hp, Hl.
    subst data p'. repeat split. rewrite length_take. lia.
  - repeat split; [now apply Hr | now apply Ho].
  - now apply Hn.
Qed.

Lemma drain_conserved s : forall p,
  fst (snd (drain s p)) ++ snd (snd (snd (drain s p))) = p.
Proof.
  induction s as [|[k|e] s IH]; intros p; cbn [drain].
  - cbn. now rewrite app_nil_r.
  - destruct (take _ p) as [|b chunk] eqn:Et.
    + cbn [fst snd app]. apply take_nil_inv in Et; [|lia]. subst p.
      now rewrite drop_nil.
    + specialize (IH (drop (Nat.min (S k) 1024) p)).
      destruct (drain s _) as [r [written [s' p']]]. cbn [fst snd] in *.
      rewrite <- app_assoc, IH, <- Et. apply take_drop.
  - destruct (is_SSLWantReadError e); [apply IH|].
    destruct (_ && _); reflexivity.
Qed.

Lemma write_all_lookup (name : pystr) (written old : bytes)
  (f : gmap pystr bytes) :
  f !! name = Some old ->
  write_all name written f !! name = Some (old ++ written).
Proof.
  intros Hf. unfold write_all. destruct written as [|b written].
  - now rewrite app_nil_r.
  - rewrite lookup_insert_eq, Hf. reflexivity.
Qed.

Lemma write_all_other (name other : pystr) (written : bytes)
  (f : gmap pystr bytes) :
  other <> name -> write_all name written f !! other = f !! other.
Proof.
  intros Hne. unfold write_all. destruct written; [reflexivity|].
  now rewrite lookup_insert_ne.
Qed.

(** X2: the payload loop neither loses, repeats nor reorders bytes.
    However it ends (end of stream, an exception of [recv], with any
    number of stalls and timed-out polls on the way), what it appended to
    the file followed by what is still unread in the stream is what the
    stream held when the loop began; no other file is touched. *)
Theorem payload_bytes_conserved (name : pystr) (old : bytes) (w : world) :
  fs w !! name = Some old ->
  let after := snd (receive_payload name w) in
  exists written,
    fs after !! name = Some (old ++ written)
    /\ written ++ pending (cur after) = pending (cur w)
    /\ forall other, other <> name -> fs after !! other = fs w !! other.
Proof.
  intros Hold after. subst after.
  pose proof (drain_conserved (recv_script (cur w)) (pending (cur w))) as Hc.
  destruct (drain (recv_script (cur w)) (pending (cur w)))
    as [r [written [s' p']]] eqn:D.
  destruct (receive_payload_spec name w _ _ _ _ D) as [sel' ->].
  cbn [fst snd set_fs set_cur fs cur pending] in *.
  exists written. split; [now apply write_all_lookup|].
  split; [exact Hc|]. intros other Hne. now apply write_all_other.
Qed.

Lemma payload_bytes_conserved_witness :
  let w :=
    Server.mkWorld {[ Scenario.report_name := [] ]} [] []
      (Server.mkConn Scenario.report
         [Server.Short 1; Server.RecvRaises (OSError "timed out")] [false]
         None) None 0 in
  exists written,
    Server.fs (snd (Server.receive_payload Scenario.report_name w))
    !! Scenario.report_name = Some ([] ++ written)
    /\ written
       ++ Server.pending
            (Server.cur (snd (Server.receive_payload Scenario.report_name w)))
       = Scenario.report.
Proof.
  intros w.
  destruct (payload_bytes_conserved Scenario.report_name [] w eq_refl)
    as (written & H1 & H2 & _).
  exists written. split; [exact H1 | exact H2].
Defined.

(** Reading the header and the name of a well-formed frame. *)
Lemma receive_file_after_name (hdr name content : bytes) w :
  BigEndian.to_bytes4 (N.of_nat (List.length name)) = Some hdr ->
  pending (cur w) = hdr ++ name ++ content ->
  benign (recv_script (cur w)) ->
  exists s2,
    benign s2
    /\ receive_file w =
       (let* file_name := decode name in
        print (Receiving file_name) ;;;
        open_wb file_name ;;;
        receive_payload file_name ;;;
        print (Received file_name))
         (set_cur (mkConn content s2 (select_script (cur w))
                          (shutdown_err (cur w))) w).
Proof.
  intros Hhdr Hp Hb.
  pose proof (BigEndianFacts.to_bytes4_length _ _ Hhdr) as Hl.
  pose proof (BigEndianFacts.from_to_bytes4 _ _ Hhdr) as Hv.
  destruct w as [f o t [p s sel sd] cs n].
  cbn [cur pending recv_script select_script shutdown_err fs out trace
       client_socket next_id] in *. subst p.
  unfold receive_file.
  destruct (receive_data_exact 4
              (mkWorld f o t (mkConn (hdr ++ name ++ content) s sel sd) cs n))
    as (s1 & E1 & Hb1); [exact Hb | cbn; rewrite length_app; lia |].
  cbn [cur pending recv_script select_script shutdown_err set_cur
       fs out trace client_socket next_id] in E1.
  rewrite take_app_length' in E1 by (symmetry; exact Hl).
  rewrite drop_app_length' in E1 by (symmetry; exact Hl).
  rewrite (ClientFacts.bind_ok _ _ _ _ _ E1).
  rewrite Hv, Nat2N.id.
  destruct (receive_data_exact (List.length name)
              (mkWorld f o t (mkConn (name ++ content) s1 sel sd) cs n))
    as (s2 & E2 & Hb2); [exact Hb1 | cbn; rewrite length_app; lia |].
  cbn [cur pending recv_script select_script shutdown_err set_cur
       fs out trace client_socket next_id] in E2.
  rewrite take_app_length, drop_app_length in E2.
  rewrite (ClientFacts.bind_ok _ _ _ _ _ E2).
  exists s2. split; [exact Hb2 | reflexivity].
Qed.

(** X3: a file name that is not valid UTF-8.  The header and the name are
    read, [decode] raises [UnicodeDecodeError], and the session reports
    "Error while receiving file" and closes: no file is created, and the
    payload is left unread. *)
Theorem undecodable_name_is_reported (hdr name content : bytes) (id : nat)
  (w : world) :
  BigEndian.to_bytes4 (N.of_nat (List.length name)) = Some hdr ->
  Utf8.decode name = None ->
  pending (cur w) = hdr ++ name ++ content ->
  benign (recv_script (cur w)) ->
  fst (receive_file w) = Raise UnicodeDecodeError
  /\ fs (snd (receive_file w)) = fs w
  /\ pending (cur (snd (receive_file w))) = content
  /\ fst (session id w) = Ok tt
  /\ fs (snd (session id w)) = fs w
  /\ out (snd (session id w))
     = out w ++ [ReceiveErrorLine UnicodeDecodeError; ClosedLine id].
Proof.
  intros Hhdr Hdec Hp Hb.
  destruct (receive_file_after_name hdr name content w Hhdr Hp Hb)
    as (s2 & _ & Er).
  assert (Er' : receive_file w =
                (Raise UnicodeDecodeError,
                 set_cur (mkConn content s2 (select_script (cur w))
                                 (shutdown_err (cur w))) w)).
  { rewrite Er. unfold decode. rewrite Hdec. reflexivity. }
  unfold session, try_finally, try_except. rewrite Er'.
  cbn [fst snd dispatch is_ConnectionError is_Exception].
  unfold print, modify. rewrite close_session_run.
  cbn [fst snd fs out set_cur cur pending].
  rewrite <- app_assoc. repeat split.
Qed.

Lemma undecodable_name_is_reported_witness :
  let w :=
    incoming [x00; x00; x00; x02; xff; xfe; x41] [Server.Short 0] []
      Scenario.idle_server in
  fst (Server.receive_file w) = Raise UnicodeDecodeError
  /\ Server.fs (snd (Server.session 0 w)) = ∅.
Proof.
  intros w.
  destruct (undecodable_name_is_reported [x00; x00; x00; x02] [xff; xfe]
              [x41] 0%nat w eq_refl eq_refl eq_refl
              ltac:(repeat constructor)) as (H1 & _ & _ & _ & H2 & _).
  split; [exact H1 | exact H2].
Defined.



Lemma prefix_spec (a b : string) :
  String.prefix a b = true <-> exists post, b = (a ++ post)%string.
Proof.
  revert b. induction a as [|c a IH]; intros b.
  - split; [intros _; now exists b | intros _; now destruct b].
  - destruct b as [|d b]; cbn [String.prefix].
    + split; [discriminate | intros [post H]; discriminate].
    + destruct (Ascii.ascii_dec c d) as [->|Hne].
      * rewrite IH. split; intros [post H]; exists post.
        -- cbn. now rewrite H.
        -- cbn in H. now injection H.
      * split; [discriminate|]. intros [post H]. simpl in H.
        injection H as H1 H2. now subst.
Qed.

(** [needle in hay] holds exactly when [hay] is some text, [needle], and
    some text. *)
Lemma str_contains_spec (needle hay : string) :
  str_contains needle hay = true
  <-> exists pre post, hay = (pre ++ needle ++ post)%string.
Proof.
  induction hay as [|c hay IH]; cbn [str_contains].
  - rewrite orb_false_r, prefix_spec. split.
    + intros [post H]. now exists EmptyString, post.
    + intros (pre & post & H). destruct pre as [|d pre]; [now exists post|].
      discriminate.
  - rewrite orb_true_iff, prefix_spec, IH. split.
    + intros [[post H]|(pre & post & H)].
      * now exists EmptyString, post.
      * exists (String c pre), post. cbn. now rewrite H.
    + intros (pre & post & H). destruct pre as [|d pre].
      * left. now exists post.
      * right. cbn in H. injection H as _ H. now exists pre, post.
Qed.

(** X5: an exception of [recv] in the payload loop, other than the "not
    ready yet" signal.  If it is an [SSLError] whose text has
    [UNEXPECTED_EOF_WHILE_READING] somewhere in it, the loop ends as if the
    stream had ended; any other exception goes on to the caller.  Either
    way what was written stays in the file and nothing more is read. *)
Theorem payload_loop_on_exception (name : pystr) (e : exn)
  (s : list recv_event) (w : world) :
  recv_script (cur w) = RecvRaises e :: s ->
  is_SSLWantReadError e = false ->
  let r := receive_payload name w in
  fs (snd r) = fs w
  /\ pending (cur (snd r)) = pending (cur w)
  /\ ((is_SSLError e = true
       /\ exists pre post,
            exn_str e = (pre ++ "UNEXPECTED_EOF_WHILE_READING" ++ post)%string)
      -> fst r = Ok tt)
  /\ (~ (is_SSLError e = true
         /\ exists pre post,
              exn_str e
              = (pre ++ "UNEXPECTED_EOF_WHILE_READING" ++ post)%string)
      -> fst r = Raise e).
Proof.
  intros Hs He r. subst r.
  destruct (drain (recv_script (cur w)) (pending (cur w)))
    as [r [written [s' p']]] eqn:D.
  destruct (receive_payload_spec name w _ _ _ _ D) as [sel' ->].
  rewrite Hs in D. cbn [drain] in D. rewrite He in D.
  cbn [fst snd set_fs set_cur fs cur pending].
  pose proof (str_contains_spec unexpected_eof (exn_str e)) as Hc.
  destruct (is_SSLError e) eqn:Hssl; cbn [andb] in D.
  - destruct (str_contains unexpected_eof (exn_str e)) eqn:Hsc;
      injection D as <- <- <- <-; cbn [write_all];
      (split; [reflexivity|]; split; [reflexivity|]; split).
    + reflexivity.
    + intros Hn. exfalso. apply Hn. split; [reflexivity|]. now apply Hc.
    + intros [_ H]. apply Hc in H. discriminate.
    + reflexivity.
  - injection D as <- <- <- <-. cbn [write_all].
    split; [reflexivity|]. split; [reflexivity|]. split.
    + intros [H _]. discriminate.
    + reflexivity.
Qed.

Lemma payload_loop_on_exception_witness :
  let w :=
    incoming [x41]
      [Server.RecvRaises
         (SSLError "[SSL: UNEXPECTED_EOF_WHILE_READING] EOF occurred")]
      [] Scenario.idle_server in
  fst (Server.receive_payload Scenario.report_name w) = Ok tt
  /\ Server.pending
       (Server.cur (snd (Server.receive_payload Scenario.report_name w)))
     = [x41].
Proof.
  intros w.
  destruct (payload_loop_on_exception Scenario.report_name
              (SSLError "[SSL: UNEXPECTED_EOF_WHILE_READING] EOF occurred")
              [] w eq_refl eq_refl) as (_ & H1 & H2 & _).
  split; [|exact H1].
  apply H2. split; [reflexivity|].
  exists "[SSL: "%string, "] EOF occurred"%string. reflexivity.
Defined.

(** X6: after a failed [accept] the handlers shut down and close whatever
    [client_socket] is still bound to: nothing in the first turn of the
    loop, and otherwise the socket of the last connection accepted, also
    when its session has closed it already. *)
Theorem failed_accept_closes_last_socket (e : exn) (hs : option exn)
  (c : conn) (w : world) :
  fst (serve_one (AcceptRaises e) w) = Ok tt
  /\ trace (snd (serve_one (AcceptRaises e) w))
     = trace w
       ++ match client_socket w with
          | Some id => [OpRawShutdown id; OpRawClose id]
          | None => []
          end
  /\ client_socket (snd (serve_one (Arrives hs c) w)) = Some (next_id w)
  /\ trace (snd (serve [Arrives None c; AcceptRaises e] w))
     = trace w
       ++ [OpAccept (next_id w); OpHandshake (next_id w);
           OpShutdown (next_id w); OpClose (next_id w);
           OpRawShutdown (next_id w); OpRawClose (next_id w)].
Proof.
  assert (Hfail : forall v,
    trace (snd (serve_one (AcceptRaises e) v))
    = trace v
      ++ match client_socket v with
         | Some id => [OpRawShutdown id; OpRawClose id]
         | None => []
         end).
  { intros [f o t [p s sel [x|]] [id|] n];
      cbv beta iota zeta delta
        [serve_one try_except bind accept print log_op modify
         may_raise raise ret dispatch is_Exception close_client_socket swallow
         gets fs out trace cur client_socket next_id shutdown_err snd];
      destruct (is_SSLError e); cbn [trace];
      rewrite <- ?app_assoc, ?app_nil_r; reflexivity. }
  assert (Hsock : forall a c0 v,
    client_socket (snd (serve_one (Arrives a c0) v)) = Some (next_id v)).
  { intros [x|] c0 v.
    - destruct v as [f o t [p s sel [y|]] cs n];
        cbv beta iota zeta delta
          [serve_one try_except bind accept wrap_socket print log_op modify
           may_raise raise ret dispatch is_Exception close_client_socket
           swallow gets fs out trace cur client_socket next_id shutdown_err
           snd];
        destruct (is_SSLError x); reflexivity.
    - rewrite ServerClaims.serve_one_arrives.
      match goal with |- client_socket (snd (session ?i ?x)) = _ =>
        destruct (session_run i x) as (_ & _ & Hc & _); now rewrite Hc
      end. }
  split; [apply serve_one_ok|]. split; [apply Hfail|].
  split; [apply Hsock|].
  cbn [serve]. unfold bind at 1.
  pose proof (serve_one_ok (Arrives None c) w) as Hr.
  pose proof (Hsock None c w) as Hs.
  pose proof (ServerClaims.serve_one_arrives c w) as Ea.
  destruct (serve_one (Arrives None c) w) as [r v] eqn:E1.
  cbn [fst snd] in *. subst r.
  unfold bind, ret.
  pose proof (serve_one_ok (AcceptRaises e) v) as Hr2.
  pose proof (Hfail v) as Ht.
  destruct (serve_one (AcceptRaises e) v) as [r2 v2].
  cbn [fst snd] in *. subst r2. cbn [snd]. rewrite Ht, Hs.
  match type of Ea with _ = session ?i ?x =>
    destruct (session_run i x) as (_ & Hts & _)
  end.
  rewrite <- Ea in Hts. cbn [snd trace] in Hts. rewrite Hts.
  now rewrite <- !app_assoc.
Qed.

End ServerExtras.

(** ** The [__main__] block of the server *)

Module ServerCliExtras.
Import ServerCli SessionFacts.

Section Cli.
Variable py_int : pystr -> option Z.

(** X7: the server started with a number of arguments other than one
    prints the usage line and exits with status 1; it creates no socket
    and prints nothing else. *)
Theorem server_usage (su : Server.startup) (arrivals : list Server.arrival)
  (argv : list pystr) (w : world) :
  List.length argv <> 2%nat ->
  main py_int su arrivals argv w
  = (Ok (Exits 1), mkWorld (server w) (notices w ++ [Usage]))
  /\ exit_status (fst (main py_int su arrivals argv w)) = Some 1%Z.
Proof.
  intros Hlen.
  destruct argv as [|a [|b [|c argv]]]; cbn in Hlen; try lia;
    now split.
Qed.

(** X8: the server started with a port that is not a number prints "Port
    should be a number." and ends with status 0, without creating a
    socket. *)
Theorem server_port_not_a_number (su : Server.startup)
  (arrivals : list Server.arrival) (prog port_arg : pystr) (w : world) :
  py_int port_arg = None ->
  main py_int su arrivals [prog; port_arg] w
  = (Ok (Exits 0), mkWorld (server w) (notices w ++ [PortNotNumber]))
  /\ exit_status (fst (main py_int su arrivals [prog; port_arg] w))
     = Some 0%Z.
Proof.
  intros Hint. unfold main, try_except. rewrite Hint.
  unfold bind at 1, raise. cbn [dispatch is_ValueError]. now split.
Qed.

Lemma main_with_port (su : Server.startup) (arrivals : list Server.arrival)
  (prog port_arg : pystr) (port : Z) (w : world) :
  py_int port_arg = Some port ->
  main py_int su arrivals [prog; port_arg] w
  = match Server.start_server port su arrivals (server w) with
    | (Ok _, s) => (Ok Serving, mkWorld s (notices w))
    | (Raise e, s) =>
        if is_ValueError e
        then (Ok (Exits 0), mkWorld s (notices w ++ [PortNotNumber]))
        else (Raise e, mkWorld s (notices w))
    | (Stuck, s) => (Stuck, mkWorld s (notices w))
    end.
Proof.
  intros Hint. unfold main, try_except. rewrite Hint.
  unfold bind at 1, ret at 1. unfold bind at 1, lift.
  destruct (Server.start_server port su arrivals (server w)) as [[u|e|] s];
    [reflexivity | | reflexivity].
  cbn [dispatch]. destruct (is_ValueError e); reflexivity.
Qed.

(** X9: the server started with a port outside 1024..65535 ends with the
    [AssertionError] of [start_server], hence with status 1: no socket is
    created or bound, nothing is printed. *)
Theorem server_port_out_of_range (su : Server.startup)
  (arrivals : list Server.arrival) (prog port_arg : pystr) (port : Z)
  (w : world) :
  py_int port_arg = Some port ->
  (port < 1024 \/ 65535 < port)%Z ->
  main py_int su arrivals [prog; port_arg] w
  = (Raise (AssertionError Server.port_message), w)
  /\ exit_status (fst (main py_int su arrivals [prog; port_arg] w))
     = Some 1%Z.
Proof.
  intros Hint Hport. rewrite main_with_port with (port := port) by exact Hint.
  unfold Server.start_server.
  assert (Hp : (1024 <=? port)%Z && (port <=? 65535)%Z = false).
  { apply andb_false_iff.
    destruct Hport; [left; apply Z.leb_gt | right; apply Z.leb_gt]; lia. }
  rewrite Hp. unfold bind at 1, raise.
  cbn [is_ValueError]. destruct w. now split.
Qed.

(** X10: once started with a valid port, with the socket bound and the
    certificate loaded, the server never ends, whatever its clients do:
    after any sequence of connection attempts it is waiting in [accept],
    and no line of [__main__] has been printed. *)
Theorem server_keeps_running (su : Server.startup)
  (arrivals : list Server.arrival) (prog port_arg : pystr) (port : Z)
  (w : world) :
  py_int port_arg = Some port ->
  (1024 <= port <= 65535)%Z ->
  Server.socket_err su = None -> Server.bind_err su = None ->
  Server.listen_err su = None -> Server.context_err su = None ->
  Server.cert_err su = None -> Server.ciphers_err su = None ->
  fst (main py_int su arrivals [prog; port_arg] w) = Ok Serving
  /\ exit_status (fst (main py_int su arrivals [prog; port_arg] w)) = None
  /\ notices (snd (main py_int su arrivals [prog; port_arg] w)) = notices w
  /\ server (snd (main py_int su arrivals [prog; port_arg] w))
     = snd (Server.start_server port su arrivals (server w)).
Proof.
  intros Hint Hport E1 E2 E3 E4 E5 E6.
  rewrite main_with_port with (port := port) by exact Hint.
  pose proof (start_server_run port su arrivals (server w) Hport
                E1 E2 E3 E4 E5 E6) as Hrun.
  pose proof (serve_ok arrivals
    (Server.mkWorld (Server.fs (server w))
       (Server.out (server w) ++ [Server.Listening port])
       ((Server.trace (server w) ++ [Server.OpBind port]) ++ [Server.OpListen])
       (Server.cur (server w)) (Server.client_socket (server w))
       (Server.next_id (server w)))) as Hok.
  rewrite <- Hrun in Hok.
  destruct (Server.start_server port su arrivals (server w)) as [r v].
  cbn [fst] in Hok. subst r. now repeat split.
Qed.

(** X11: a failure of [bind] (the port is taken) ends the server before it
    listens or accepts.  The exception reaches the top level, and the
    status is 1, unless it is a [ValueError]: that one the [__main__]
    block takes for a bad port number, prints "Port should be a number."
    and ends with status 0. *)
Theorem server_bind_failure (e : exn) (su : Server.startup)
  (arrivals : list Server.arrival) (prog port_arg : pystr) (port : Z)
  (w : world) :
  py_int port_arg = Some port ->
  (1024 <= port <= 65535)%Z ->
  Server.socket_err su = None -> Server.bind_err su = Some e ->
  let r := main py_int su arrivals [prog; port_arg] w in
  exit_status (fst r) = Some (if is_ValueError e then 0 else 1)%Z
  /\ notices (snd r)
     = notices w ++ (if is_ValueError e then [PortNotNumber] else [])
  /\ Server.trace (server (snd r))
     = Server.trace (server w) ++ [Server.OpBind port]
  /\ Server.out (server (snd r)) = Server.out (server w).
Proof.
  intros Hint [H1 H2] E1 E2 r. subst r.
  rewrite main_with_port with (port := port) by exact Hint.
  assert (Es : Server.start_server port su arrivals (server w)
               = (Raise e,
                  Server.mkWorld (Server.fs (server w)) (Server.out (server w))
                    (Server.trace (server w) ++ [Server.OpBind port])
                    (Server.cur (server w)) (Server.client_socket (server w))
                    (Server.next_id (server w)))).
  { unfold Server.start_server.
    apply Z.leb_le in H1, H2. rewrite H1, H2, E1, E2.
    destruct (server w). reflexivity. }
  rewrite Es.
  destruct (is_ValueError e); cbn; rewrite ?app_nil_r; now repeat split.
Qed.

End Cli.

Lemma server_usage_witness :
  exit_status
    (fst (main Client.digits_to_int Scenario.ready_to_serve []
            [Scenario.text "SecureNetFileXferServer.py"]
            (mkWorld Scenario.idle_server []))) = Some 1%Z.
Proof.
  exact (proj2 (server_usage Client.digits_to_int Scenario.ready_to_serve []
                  [Scenario.text "SecureNetFileXferServer.py"]
                  (mkWorld Scenario.idle_server []) ltac:(discriminate))).
Defined.

Lemma server_port_not_a_number_witness :
  exit_status
    (fst (main Client.digits_to_int Scenario.ready_to_serve []
            [Scenario.text "SecureNetFileXferServer.py"; Scenario.text "https"]
            (mkWorld Scenario.idle_server []))) = Some 0%Z.
Proof.
  exact (proj2 (server_port_not_a_number Client.digits_to_int
                  Scenario.ready_to_serve []
                  (Scenario.text "SecureNetFileXferServer.py")
                  (Scenario.text "https")
                  (mkWorld Scenario.idle_server []) eq_refl)).
Defined.

Lemma server_port_out_of_range_witness :
  exit_status
    (fst (main Client.digits_to_int Scenario.ready_to_serve []
            [Scenario.text "SecureNetFileXferServer.py"; Scenario.text "443"]
            (mkWorld Scenario.idle_server []))) = Some 1%Z.
Proof.
  exact (proj2 (server_port_out_of_range Client.digits_to_int
                  Scenario.ready_to_serve []
                  (Scenario.text "SecureNetFileXferServer.py")
                  (Scenario.text "443") 443%Z
                  (mkWorld Scenario.idle_server []) eq_refl
                  ltac:(left; lia))).
Defined.

Lemma server_keeps_running_witness :
  fst (main Client.digits_to_int Scenario.ready_to_serve Scenario.bad_clients
         [Scenario.text "SecureNetFileXferServer.py"; Scenario.text "8443"]
         (mkWorld Scenario.idle_server [])) = Ok Serving.
Proof.
  exact (proj1 (server_keeps_running Client.digits_to_int
                  Scenario.ready_to_serve Scenario.bad_clients
                  (Scenario.text "SecureNetFileXferServer.py")
                  (Scenario.text "8443") 8443%Z
                  (mkWorld Scenario.idle_server []) eq_refl ltac:(lia)
                  eq_refl eq_refl eq_refl eq_refl eq_refl eq_refl)).
Defined.

Lemma server_bind_failure_witness :
  exit_status
    (fst (main Client.digits_to_int
            (Server.mkStartup None (Some (OSError "Address already in use"))
               None None None None)
            Scenario.bad_clients
            [Scenario.text "SecureNetFileXferServer.py"; Scenario.text "8443"]
            (mkWorld Scenario.idle_server []))) = Some 1%Z.
Proof.
  exact (proj1 (server_bind_failure Client.digits_to_int
                  (OSError "Address already in use")
                  (Server.mkStartup None
                     (Some (OSError "Address already in use"))
                     None None None None)
                  Scenario.bad_clients
                  (Scenario.text "SecureNetFileXferServer.py")
                  (Scenario.text "8443") 8443%Z
                  (mkWorld Scenario.idle_server []) eq_refl ltac:(lia)
                  eq_refl eq_refl)).
Defined.

End ServerCliExtras.

(** ** The sending side *)

Module ClientExtras.
Import Client Socket Chunking ClientFacts.

Lemma split_nonempty sep s : split sep s <> [].
Proof.
  destruct s as [|c s]; cbn [split]; [discriminate|].
  destruct (c =? sep)%N; [discriminate|].
  destruct (split sep s); discriminate.
Qed.

Lemma split_pieces sep s : Forall (fun p => ~ In sep p) (split sep s).
Proof.
  induction s as [|c s IH]; cbn [split].
  - constructor; [intros []|constructor].
  - destruct (N.eqb_spec c sep) as [->|Hne].
    + constructor; [intros [] | exact IH].
    + destruct (split sep s) as [|p ps]; [repeat constructor|].
      * intros [H|[]]. congruence.
      * inversion IH as [|? ? Hp Hps]; subst.
        constructor; [|exact Hps]. intros [H|H]; [congruence | now apply Hp].
Qed.

Lemma last_in {A} (l : list A) d : l <> [] -> In (List.last l d) l.
Proof.
  induction l as [|x [|y l] IH]; intros Hne; [congruence | now left |].
  right. apply IH. discriminate.
Qed.

Lemma split_singleton sep s p : split sep s = [p] -> s = p.
Proof.
  revert p. induction s as [|c s IH]; intros p; cbn [split].
  - now intros [= <-].
  - destruct (c =? sep)%N.
    + intros [= <- H]. now apply split_nonempty in H.
    + destruct (split sep s) as [|q qs] eqn:E;
        [now apply split_nonempty in E|].
      intros [= <- ->]. now rewrite (IH q eq_refl).
Qed.

(** X12: the name the client sends is the part of the path after its last
    slash (the whole path when it has none): it holds no slash, and the
    rest of the path is empty or ends with a slash. *)
Theorem file_name_is_last_component (path : pystr) :
  ~ In slash (file_name_of path)
  /\ exists dir,
       path = dir ++ file_name_of path
       /\ (dir = [] \/ exists d, dir = d ++ [slash]).
Proof.
  split.
  - unfold file_name_of.
    pose proof (split_pieces slash path) as Hp.
    apply (proj1 (List.Forall_forall _ _) Hp), last_in, split_nonempty.
  - unfold file_name_of. induction path as [|c s IH];
      [exists []; split; [reflexivity | now left]|].
    destruct IH as (dir & Hs & Hdir). cbn [split].
    destruct (N.eqb_spec c slash) as [->|Hne].
    + exists (slash :: dir). split.
      * cbn [List.last app]. pose proof (split_nonempty slash s) as Hn.
        destruct (split slash s); [congruence|]. now rewrite <- Hs.
      * right. destruct Hdir as [->|[d ->]]; [now exists [] | now exists (slash :: d)].
    + destruct (split slash s) as [|p [|q qs]] eqn:E.
      * now apply split_nonempty in E.
      * apply split_singleton in E. subst p.
        exists []. split; [reflexivity | now left].
      * exists (c :: dir). split.
        -- cbn [List.last app] in *. now rewrite <- Hs.
        -- right. destruct Hdir as [->|[d ->]]; [|now exists (c :: d)].
           exfalso. cbn [app] in Hs.
           assert (Hno : ~ In slash s).
           { rewrite Hs. pose proof (split_pieces slash s) as Hp.
             rewrite E in Hp.
             apply (proj1 (List.Forall_forall _ _) Hp), last_in.
             discriminate. }
           rewrite (split_no_sep _ _ Hno) in E. discriminate.
Qed.

(** *** The chunks *)

Lemma chunks_concat size fuel : forall data,
  (0 < size)%nat -> (List.length data < fuel)%nat ->
  concat (chunks fuel size data) = data.
Proof.
  induction fuel as [|fuel IH]; intros data Hs Hf; [lia|].
  cbn [chunks]. destruct (take size data) as [|b c] eqn:Et.
  - destruct data; [reflexivity|]. destruct size; [lia | discriminate].
  - cbn [concat]. rewrite IH; [now rewrite <- Et, take_drop | exact Hs |].
    rewrite length_drop. destruct data; [now destruct size|]. cbn in *. lia.
Qed.

Lemma chunks_sizes size fuel : forall data,
  Forall (fun c => 0 < List.length c <= size)%nat (chunks fuel size data).
Proof.
  induction fuel as [|fuel IH]; intros data; cbn [chunks]; [constructor|].
  destruct (take size data) as [|b c] eqn:Et; [constructor|].
  constructor; [|apply IH].
  rewrite <- Et, length_take.
  assert (0 < List.length (take size data))%nat by (rewrite Et; simpl; lia).
  rewrite length_take in H. lia.
Qed.

Lemma chunks_full size fuel : forall data i c,
  chunks fuel size data !! i = Some c ->
  (S i < List.length (chunks fuel size data))%nat ->
  List.length c = size.
Proof.
  induction fuel as [|fuel IH]; intros data i c; cbn [chunks];
    [discriminate|].
  destruct (take size data) as [|b0 c0] eqn:Et; [discriminate|].
  destruct i as [|i]; cbn [lookup list_lookup List.length].
  - intros [= <-] Hl. rewrite <- Et, length_take.
    destruct fuel as [|fuel']; cbn [chunks List.length] in Hl; [lia|].
    destruct (take size (drop size data)) as [|b1 c1] eqn:Et1;
      [cbn in Hl; lia|].
    assert (0 < List.length (take size (drop size data)))%nat
      by (rewrite Et1; simpl; lia).
    rewrite length_take, length_drop in H. lia.
  - intros Hc Hl. apply (IH _ _ _ Hc). lia.
Qed.

Lemma running_last cs : forall sent,
  cs <> [] ->
  List.last (running sent cs) 0%nat
  = (sent + List.length (concat cs))%nat.
Proof.
  induction cs as [|c [|c' cs] IH]; intros sent Hne; [congruence | |].
  - cbn. rewrite app_nil_r. reflexivity.
  - change (running sent (c :: c' :: cs))
      with ((sent + List.length c)%nat
            :: running (sent + List.length c) (c' :: cs)).
    change (concat (c :: c' :: cs)) with (c ++ concat (c' :: cs)).
    rewrite length_app, Nat.add_assoc, <- IH by discriminate.
    cbn [running List.last]. reflexivity.
Qed.

Lemma send_chunks_exact fuel : forall rest sent size w,
  (List.length rest < fuel)%nat ->
  all_sent (send_script w) ->
  (rest = [] \/ 0 < size)%nat ->
  exists s',
    send_chunks fuel rest sent size w =
    (Ok tt,
     mkWorld (files w)
       (out w ++ List.map (fun k => Progress k size)
                   (running sent (chunks fuel 1024 rest)))
       (trace w ++ List.map OpSend (chunks fuel 1024 rest))
       (wire w ++ rest) s' (secure_socket w))
    /\ all_sent s'.
Proof.
  induction fuel as [|fuel IH]; intros rest sent size w Hf Hs Hsize; [lia|].
  cbn [send_chunks chunks].
  destruct (take 1024 rest) as [|b chunk] eqn:Et.
  - destruct rest; [|discriminate]. exists (send_script w).
    split; [|exact Hs]. cbn [running List.map]. rewrite !app_nil_r.
    now destruct w.
  - destruct Hsize as [->|Hsize]; [discriminate|].
    destruct (sendall_all_sent (b :: chunk) w Hs) as (s1 & E1 & Hs1).
    rewrite (bind_ok _ _ _ _ _ E1).
    destruct size as [|size]; [lia|].
    unfold progress. erewrite bind_ok by reflexivity.
    erewrite bind_ok by reflexivity.
    match goal with |- context [send_chunks fuel ?r ?b0 ?z ?x] =>
      destruct (IH r b0 z x) as (s2 & E2 & Hs2)
    end.
    + rewrite length_drop.
      assert (0 < List.length (take 1024 rest))%nat by (rewrite Et; simpl; lia).
      rewrite length_take in H. lia.
    + exact Hs1.
    + right. lia.
    + exists s2. split; [|exact Hs2]. rewrite E2.
      cbn [files out trace wire send_script secure_socket running List.map].
      rewrite <- !app_assoc.
      replace ((b :: chunk) ++ drop 1024 rest) with rest
        by (now rewrite <- Et, take_drop).
      reflexivity.
Qed.

Lemma stream_file_exact e (path : pystr) content name hdr v :
  connect_err e = None ->
  all_sent (send_script v) ->
  files v !! path = Some content ->
  Utf8.encode (file_name_of path) = Some name ->
  BigEndian.to_bytes4 (N.of_nat (List.length name)) = Some hdr ->
  exists s',
    stream_file e path v =
    (Ok tt,
     mkWorld (files v)
       (out v ++ [Connected; UsingCipher; TLSVersion]
        ++ List.map (fun k => Progress k (List.length content))
             (running 0 (file_chunks content))
        ++ [Newline; SentOk])
       (trace v ++ [OpConnect; OpSend hdr; OpSend name]
        ++ List.map OpSend (file_chunks content))
       (wire v ++ hdr ++ name ++ content) s' (secure_socket v)).
Proof.
  intros Hconn Hv Hfv Henc Hhdr. unfold stream_file.
  rewrite Hconn. cbn [may_raise].
  do 5 (erewrite bind_ok by reflexivity). cbn [files out trace wire send_script secure_socket].
  erewrite bind_ok
    by (unfold getsize; cbn [files]; rewrite Hfv; reflexivity).
  unfold encode. rewrite Henc.
  erewrite bind_ok by reflexivity.
  unfold to_bytes4. rewrite Hhdr.
  erewrite bind_ok by reflexivity. cbn [files out trace wire send_script secure_socket].
  match goal with |- context [bind (sendall hdr) _ ?x] =>
    destruct (sendall_all_sent hdr x Hv) as (s1 & E1 & Hs1)
  end.
  rewrite (bind_ok _ _ _ _ _ E1).
  erewrite bind_ok by reflexivity. cbn [files out trace wire send_script secure_socket].
  match goal with |- context [bind (sendall name) _ ?x] =>
    destruct (sendall_all_sent name x Hs1) as (s2 & E2 & Hs2)
  end.
  rewrite (bind_ok _ _ _ _ _ E2). cbn [files out trace wire send_script secure_socket].
  erewrite bind_ok
    by (unfold open_rb; cbn [files]; rewrite Hfv; reflexivity).
  match goal with |- context [bind (send_chunks ?f ?r ?b ?z) _ ?x] =>
    destruct (send_chunks_exact f r b z x) as (s3 & E3 & Hs3);
      [lia | exact Hs2 | (destruct content; [now left | right; simpl; lia]) |]
  end.
  rewrite (bind_ok _ _ _ _ _ E3).
  erewrite bind_ok by reflexivity.
  exists s3. cbv [print modify].
  cbn [fst snd files out trace wire send_script secure_socket].
  unfold file_chunks. rewrite <- !app_assoc. reflexivity.
Qed.

Lemma send_file_exact e (path : pystr) content name hdr w :
  reliable e ->
  all_sent (send_script w) ->
  files w !! path = Some content ->
  Utf8.encode (file_name_of path) = Some name ->
  BigEndian.to_bytes4 (N.of_nat (List.length name)) = Some hdr ->
  exists s',
    send_file e path w =
    (Ok tt,
     mkWorld (files w)
       (out w ++ [Connected; UsingCipher; TLSVersion]
        ++ List.map (fun k => Progress k (List.length content))
             (running 0 (file_chunks content))
        ++ [Newline; SentOk; ClosedLine])
       (trace w ++ [OpSocket; OpConnect; OpSend hdr; OpSend name]
        ++ List.map OpSend (file_chunks content) ++ [OpShutdown; OpClose])
       (wire w ++ hdr ++ name ++ content) s' true).
Proof.
  intros (Hsock & Hctx & Hwrap & Hconn) Hs Hfile Henc Hhdr.
  rewrite send_file_enter by (rewrite ?Hfile; eauto).
  unfold try_finally, try_except, transfer. rewrite Hctx, Hwrap.
  cbn [may_raise]. do 3 (erewrite bind_ok by reflexivity).
  match goal with |- context [stream_file e path ?x] =>
    destruct (stream_file_exact e path content name hdr x Hconn Hs Hfile
                Henc Hhdr) as (s' & ->)
  end.
  rewrite client_close_run.
  cbn [fst snd files out trace wire send_script secure_socket].
  exists s'. rewrite <- !app_assoc. reflexivity.
Qed.

(** X13: the file goes out in pieces of 1024 bytes.  After the header and
    the name, [send_file] makes one [sendall] for each piece: none is
    empty, none is longer than 1024 bytes, all but the last have 1024,
    and put together they are the content.  One progress line follows
    each piece, counting the bytes sent so far against the size of the
    file, the last one with both equal. *)
Theorem file_is_sent_in_chunks (e : env) (w : world) (path : pystr)
  (content name hdr : bytes) :
  files w !! path = Some content ->
  Utf8.encode (file_name_of path) = Some name ->
  BigEndian.to_bytes4 (N.of_nat (List.length name)) = Some hdr ->
  reliable e ->
  all_sent (send_script w) ->
  let after := snd (send_file e path w) in
  let pieces := file_chunks content in
  trace after
  = trace w
    ++ [OpSocket; OpConnect; OpSend hdr; OpSend name]
    ++ List.map OpSend pieces ++ [OpShutdown; OpClose]
  /\ out after
     = out w
       ++ [Connected; UsingCipher; TLSVersion]
       ++ List.map (fun k => Progress k (List.length content))
            (running 0 pieces)
       ++ [Newline; SentOk; ClosedLine]
  /\ concat pieces = content
  /\ Forall (fun c => 0 < List.length c <= 1024)%nat pieces
  /\ (forall i c, pieces !! i = Some c ->
        (S i < List.length pieces)%nat -> List.length c = 1024%nat)
  /\ (content <> [] ->
      List.last (running 0 pieces) 0%nat = List.length content).
Proof.
  intros Hfile Henc Hhdr Hrel Hs after pieces.
  assert (Hcat : concat pieces = content)
    by (apply chunks_concat; lia).
  destruct (send_file_exact e path content name hdr w Hrel Hs Hfile Henc Hhdr)
    as (s' & Hrun).
  subst after. rewrite Hrun. cbn [snd trace out].
  split; [reflexivity|]. split; [reflexivity|]. split; [exact Hcat|].
  split; [apply chunks_sizes|].
  split; [intros i c; apply chunks_full|].
  intros Hne. rewrite running_last.
  - now rewrite Hcat.
  - intros Hp. rewrite Hp in Hcat. cbn in Hcat. congruence.
Qed.

Lemma bind_raise {W A B} (m : M W A) (k : A -> M W B) w x v :
  m w = (Raise x, v) -> bind m k w = (Raise x, v).
Proof. intros E. unfold bind. now rewrite E. Qed.

Ltac no_success :=
  let H := fresh in
  intros H; exfalso;
  repeat (destruct H as [H|H]; try discriminate); try destruct H.

Lemma sendall_any d w :
  exists r s' p,
    sendall d w =
    (r, mkWorld (files w) (out w) (trace w ++ [OpSend d]) (wire w ++ p) s'
          (secure_socket w))
    /\ r <> Stuck /\ p `prefix_of` d /\ (r = Ok tt -> p = d).
Proof.
  unfold sendall. destruct (send_script w) as [|[|k x] s].
  - exists (Ok tt), [], d. split; [reflexivity|]. split; [discriminate|].
    split; [reflexivity | trivial].
  - exists (Ok tt), s, d. split; [reflexivity|]. split; [discriminate|].
    split; [reflexivity | trivial].
  - exists (Raise x), s, (take k d).
    split; [reflexivity|]. split; [discriminate|].
    split; [|discriminate].
    exists (drop k d). now rewrite take_drop.
Qed.

Lemma send_chunks_any fuel : forall rest sent size w,
  (List.length rest < fuel)%nat ->
  exists r v p l,
    send_chunks fuel rest sent size w = (r, v)
    /\ r <> Stuck
    /\ files v = files w /\ secure_socket v = secure_socket w
    /\ out v = out w ++ l /\ ~ In SentOk l
    /\ wire v = wire w ++ p /\ p `prefix_of` rest
    /\ (r = Ok tt -> p = rest).
Proof.
  induction fuel as [|fuel IH]; intros rest sent size w Hf; [lia|].
  cbn [send_chunks].
  destruct (take 1024 rest) as [|b chunk] eqn:Et.
  - destruct rest; [|discriminate].
    exists (Ok tt), w, [], []. rewrite !app_nil_r.
    split; [reflexivity|]. split; [discriminate|].
    do 4 (split; [tauto|]). split; [reflexivity|].
    split; [reflexivity | trivial].
  - assert (Hrest : rest = (b :: chunk) ++ drop 1024 rest)
      by (now rewrite <- Et, take_drop).
    destruct (sendall_any (b :: chunk) w)
      as (r1 & s1 & p1 & E1 & Hn1 & Hp1 & Hok1).
    destruct r1 as [[]|x|]; [| |congruence].
    + rewrite (bind_ok _ _ _ _ _ E1). rewrite (Hok1 eq_refl) in *.
      destruct size as [|size].
      * eexists (Raise ZeroDivisionError), _, (b :: chunk), [].
        split; [reflexivity|]. cbn [files out wire secure_socket].
        rewrite app_nil_r.
        split; [discriminate|]. do 3 (split; [reflexivity|]).
        split; [tauto|]. split; [reflexivity|]. split; [|discriminate].
        exists (drop 1024 rest). exact Hrest.
      * unfold progress. erewrite bind_ok by reflexivity.
        erewrite bind_ok by reflexivity.
        cbn [files out trace wire send_script secure_socket].
        match goal with |- context [send_chunks fuel ?r ?b0 ?z ?x] =>
          destruct (IH r b0 z x)
            as (r2 & v2 & p2 & l2 & E2 & Hn2 & Hf2 & Hb2 & Ho2 & Hl2 & Hw2
                & Hp2 & Hok2)
        end.
        { rewrite length_drop.
          assert (0 < List.length (take 1024 rest))%nat
            by (rewrite Et; simpl; lia).
          rewrite length_take in H. lia. }
        cbn [files out trace wire send_script secure_socket] in *.
        exists r2, v2, ((b :: chunk) ++ p2),
          (Progress (sent + List.length (b :: chunk)) (S size) :: l2).
        split; [exact E2|]. split; [exact Hn2|]. split; [exact Hf2|].
        split; [exact Hb2|].
        split; [rewrite Ho2, <- app_assoc; reflexivity|].
        split; [intros [H|H]; [discriminate | now apply Hl2]|].
        split; [rewrite Hw2, <- app_assoc; reflexivity|].
        split.
        { rewrite Hrest. now apply prefix_app. }
        intros Hr. rewrite (Hok2 Hr). now rewrite <- Hrest.
    + rewrite (bind_raise _ _ _ _ _ E1).
      eexists (Raise x), _, p1, []. split; [reflexivity|].
      cbn [files out wire secure_socket]. rewrite app_nil_r.
      split; [discriminate|]. do 3 (split; [reflexivity|]).
      split; [tauto|]. split; [reflexivity|]. split; [|discriminate].
      destruct Hp1 as (k & Hk). exists (k ++ drop 1024 rest).
      rewrite Hrest at 1. rewrite Hk. now rewrite <- app_assoc.
Qed.

(** What a run of the transfer proper leaves behind, whatever the
    socket does. *)
Lemma stream_file_any e (path : pystr) content v :
  files v !! path = Some content ->
  exists r v' p l,
    stream_file e path v = (r, v')
    /\ r <> Stuck
    /\ files v' = files v /\ secure_socket v' = secure_socket v
    /\ out v' = out v ++ l /\ wire v' = wire v ++ p
    /\ (forall name hdr,
          Utf8.encode (file_name_of path) = Some name ->
          BigEndian.to_bytes4 (N.of_nat (List.length name)) = Some hdr ->
          p `prefix_of` hdr ++ name ++ content)
    /\ (In SentOk l ->
        r = Ok tt /\
        exists name hdr,
          Utf8.encode (file_name_of path) = Some name
          /\ BigEndian.to_bytes4 (N.of_nat (List.length name)) = Some hdr
          /\ p = hdr ++ name ++ content).
Proof.
  intros Hfv. unfold stream_file.
  erewrite bind_ok by reflexivity.
  destruct (connect_err e) as [x|]; cbn [may_raise].
  { erewrite bind_raise by reflexivity.
    eexists (Raise x), _, [], []. split; [reflexivity|].
    cbn [files out wire secure_socket]. rewrite !app_nil_r.
    split; [discriminate|]. do 4 (split; [reflexivity|]).
    split; [intros; apply prefix_nil | no_success]. }
  do 4 (erewrite bind_ok by reflexivity).
  erewrite bind_ok
    by (unfold getsize; cbn [files]; rewrite Hfv; reflexivity).
  cbn [files out trace wire send_script secure_socket].
  unfold encode.
  destruct (Utf8.encode (file_name_of path)) as [name|] eqn:Henc.
  2:{ erewrite bind_raise by reflexivity.
      eexists (Raise UnicodeEncodeError), _, [],
        [Connected; UsingCipher; TLSVersion].
      split; [reflexivity|]. cbn [files out wire secure_socket].
      rewrite !app_nil_r, <- !app_assoc.
      split; [discriminate|]. do 4 (split; [reflexivity|]).
      split; [intros; apply prefix_nil | no_success]. }
  erewrite bind_ok by reflexivity.
  unfold to_bytes4.
  destruct (BigEndian.to_bytes4 (N.of_nat (List.length name)))
    as [hdr|] eqn:Hhdr.
  2:{ erewrite bind_raise by reflexivity.
      eexists (Raise OverflowError), _, [],
        [Connected; UsingCipher; TLSVersion].
      split; [reflexivity|]. cbn [files out wire secure_socket].
      rewrite !app_nil_r, <- !app_assoc.
      split; [discriminate|]. do 4 (split; [reflexivity|]).
      split; [intros; apply prefix_nil | no_success]. }
  erewrite bind_ok by reflexivity.
  match goal with |- context [bind (sendall hdr) _ ?x] =>
    destruct (sendall_any hdr x) as (r1 & s1 & p1 & E1 & Hn1 & Hp1 & Hok1)
  end.
  cbn [files out trace wire send_script secure_socket] in E1.
  destruct r1 as [[]|x|]; [| |congruence].
  2:{ rewrite (bind_raise _ _ _ _ _ E1).
      eexists (Raise x), _, p1, [Connected; UsingCipher; TLSVersion].
      split; [reflexivity|]. cbn [files out wire secure_socket].
      rewrite <- !app_assoc.
      split; [discriminate|]. do 4 (split; [reflexivity|]).
      split; [|no_success].
      intros name' hdr' [= <-] Hh. rewrite Hhdr in Hh.
      injection Hh as <-. destruct Hp1 as (k & ->).
      exists (k ++ name ++ content). now rewrite <- app_assoc. }
  rewrite (bind_ok _ _ _ _ _ E1). rewrite (Hok1 eq_refl) in *.
  erewrite bind_ok by reflexivity.
  match goal with |- context [bind (sendall name) _ ?x] =>
    destruct (sendall_any name x) as (r2 & s2 & p2 & E2 & Hn2 & Hp2 & Hok2)
  end.
  cbn [files out trace wire send_script secure_socket] in E2.
  destruct r2 as [[]|x|]; [| |congruence].
  2:{ rewrite (bind_raise _ _ _ _ _ E2).
      eexists (Raise x), _, (hdr ++ p2), [Connected; UsingCipher; TLSVersion].
      split; [reflexivity|]. cbn [files out wire secure_socket].
      rewrite <- !app_assoc.
      split; [discriminate|]. do 4 (split; [reflexivity|]).
      split; [|no_success].
      intros name' hdr' [= <-] Hh. rewrite Hhdr in Hh.
      injection Hh as <-. destruct Hp2 as (k & ->).
      exists (k ++ content). now rewrite <- !app_assoc. }
  rewrite (bind_ok _ _ _ _ _ E2). rewrite (Hok2 eq_refl) in *.
  erewrite bind_ok
    by (unfold open_rb; cbn [files]; rewrite Hfv; reflexivity).
  match goal with |- context [bind (send_chunks ?f ?r ?b ?z) _ ?x] =>
    destruct (send_chunks_any f r b z x)
      as (r3 & v3 & p3 & l3 & E3 & Hn3 & Hf3 & Hb3 & Ho3 & Hl3 & Hw3 & Hp3
          & Hok3); [lia|]
  end.
  cbn [files out trace wire send_script secure_socket] in Hf3, Hb3, Ho3, Hw3.
  destruct r3 as [[]|x|]; [| |congruence].
  2:{ rewrite (bind_raise _ _ _ _ _ E3).
      exists (Raise x), v3, (hdr ++ name ++ p3),
        ([Connected; UsingCipher; TLSVersion] ++ l3).
      split; [reflexivity|]. split; [discriminate|].
      split; [exact Hf3|]. split; [exact Hb3|].
      split; [rewrite Ho3, <- !app_assoc; reflexivity|].
      split; [rewrite Hw3, <- !app_assoc; reflexivity|].
      split.
      - intros name' hdr' [= <-] Hh. rewrite Hhdr in Hh.
        injection Hh as <-. now do 2 apply prefix_app.
      - intros H. exfalso.
        repeat (destruct H as [H|H]; try discriminate). now apply Hl3. }
  rewrite (bind_ok _ _ _ _ _ E3). rewrite (Hok3 eq_refl) in *.
  erewrite bind_ok by reflexivity.
  exists (Ok tt),
    (mkWorld (files v3) ((out v3 ++ [Newline]) ++ [SentOk]) (trace v3)
       (wire v3) (send_script v3) (secure_socket v3)),
    (hdr ++ name ++ content),
    ([Connected; UsingCipher; TLSVersion] ++ l3 ++ [Newline; SentOk]).
  split; [reflexivity|]. split; [discriminate|].
  cbn [files out wire secure_socket].
  split; [exact Hf3|]. split; [exact Hb3|].
  split; [rewrite Ho3, <- !app_assoc; reflexivity|].
  split; [rewrite Hw3, <- !app_assoc; reflexivity|].
  split.
  - intros name' hdr' [= <-] Hh. rewrite Hhdr in Hh. now injection Hh as <-.
  - intros _. split; [reflexivity|]. now exists name, hdr.
Qed.

(** The [except] clauses of [send_file] print one line for an exception,
    and never the line of success. *)
Lemma guarded_lines (m : M world unit) w :
  fst (m w) <> Stuck ->
  exists l,
    try_except m
      [(is_SSLError, fun x => print (SSLErrorLine x));
       (is_ConnectionError, fun x => print (ConnectionErrorLine x));
       (is_Exception, fun x => print (ErrorLine x))] w
    = (Ok tt,
       mkWorld (files (snd (m w))) (out (snd (m w)) ++ l) (trace (snd (m w)))
               (wire (snd (m w))) (send_script (snd (m w)))
               (secure_socket (snd (m w))))
    /\ ~ In SentOk l.
Proof.
  intros Hn. unfold try_except.
  destruct (m w) as [[[]|x|] [f o t wi s b]]; cbn [fst snd] in *.
  - exists []. rewrite app_nil_r. now split.
  - cbn [dispatch is_Exception].
    destruct (is_SSLError x); [|destruct (is_ConnectionError x)];
      (eexists; split; [reflexivity | intros [H|[]]; discriminate]).
  - congruence.
Qed.

(** X14: "File sent successfully." is printed only after the whole frame
    has gone out.  Whatever the socket, the TLS layer and each [sendall]
    do, the bytes that [send_file] puts on the connection are a prefix of
    the frame (header, name, content); and when the line of success is
    among the lines printed, they are the whole frame and [send_file] has
    returned normally. *)
Theorem success_line_means_whole_frame (e : env) (path : pystr)
  (w : world) :
  let after := snd (send_file e path w) in
  exists l p,
    out after = out w ++ l
    /\ wire after = wire w ++ p
    /\ (forall content name hdr,
          files w !! path = Some content ->
          Utf8.encode (file_name_of path) = Some name ->
          BigEndian.to_bytes4 (N.of_nat (List.length name)) = Some hdr ->
          p `prefix_of` hdr ++ name ++ content)
    /\ (In SentOk l ->
        fst (send_file e path w) = Ok tt /\
        exists content name hdr,
          files w !! path = Some content
          /\ Utf8.encode (file_name_of path) = Some name
          /\ BigEndian.to_bytes4 (N.of_nat (List.length name)) = Some hdr
          /\ p = hdr ++ name ++ content).
Proof.
  intros after. subst after.
  destruct (files w !! path) as [content|] eqn:Hfile.
  2:{ rewrite send_file_missing by exact Hfile. cbn [fst snd out wire].
      exists [], []. rewrite !app_nil_r.
      do 2 (split; [reflexivity|]).
      split; [intros; apply prefix_nil | no_success]. }
  destruct (socket_err e) as [x|] eqn:Hsock.
  { assert (E : send_file e path w =
                (Raise x,
                 mkWorld (files w) (out w) (trace w ++ [OpSocket]) (wire w)
                   (send_script w) false)).
    { unfold send_file. erewrite bind_ok by reflexivity.
      erewrite bind_ok
        by (unfold gets; cbn [files];
            rewrite bool_decide_eq_true_2 by (rewrite Hfile; eauto);
            reflexivity).
      erewrite bind_ok by reflexivity. erewrite bind_ok by reflexivity.
      rewrite Hsock. reflexivity. }
    rewrite E. cbn [fst snd out wire]. exists [], []. rewrite !app_nil_r.
    do 2 (split; [reflexivity|]).
    split; [intros; apply prefix_nil | no_success]. }
  rewrite send_file_enter by (rewrite ?Hfile; eauto).
  set (w0 := mkWorld _ _ _ _ _ false).
  assert (Ht : exists r v p l,
    transfer e path w0 = (r, v) /\ r <> Stuck
    /\ out v = out w ++ l /\ wire v = wire w ++ p
    /\ (forall name hdr,
          Utf8.encode (file_name_of path) = Some name ->
          BigEndian.to_bytes4 (N.of_nat (List.length name)) = Some hdr ->
          p `prefix_of` hdr ++ name ++ content)
    /\ (In SentOk l ->
        r = Ok tt /\
        exists name hdr,
          Utf8.encode (file_name_of path) = Some name
          /\ BigEndian.to_bytes4 (N.of_nat (List.length name)) = Some hdr
          /\ p = hdr ++ name ++ content)).
  { unfold transfer.
    destruct (context_err e) as [x|]; cbn [may_raise].
    { erewrite bind_raise by reflexivity.
      exists (Raise x), w0, [], []. subst w0. cbn [out wire].
      rewrite !app_nil_r.
      split; [reflexivity|]. split; [discriminate|].
      do 2 (split; [reflexivity|]).
      split; [intros; apply prefix_nil | no_success]. }
    erewrite bind_ok by reflexivity.
    destruct (wrap_err e) as [x|]; cbn [may_raise].
    { erewrite bind_raise by reflexivity.
      exists (Raise x), w0, [], []. subst w0. cbn [out wire].
      rewrite !app_nil_r.
      split; [reflexivity|]. split; [discriminate|].
      do 2 (split; [reflexivity|]).
      split; [intros; apply prefix_nil | no_success]. }
    do 2 (erewrite bind_ok by reflexivity).
    match goal with |- context [stream_file e path ?x] =>
      destruct (stream_file_any e path content x Hfile)
        as (r & v & p & l & E & Hn & _ & _ & Ho & Hw & Hp & Hok)
    end.
    exists r, v, p, l. subst w0.
    cbn [files out trace wire send_script secure_socket] in Ho, Hw.
    split; [exact E|]. split; [exact Hn|]. split; [exact Ho|].
    split; [exact Hw|]. split; [exact Hp | exact Hok]. }
  destruct Ht as (r & v & p & l & Et & Hn & Ho & Hw & Hp & Hok).
  unfold try_finally.
  destruct (guarded_lines (transfer e path) w0) as (l' & -> & Hl');
    [rewrite Et; exact Hn|].
  rewrite Et. cbn [fst snd]. rewrite client_close_run.
  cbn [fst snd out wire].
  exists ((l ++ l') ++ [ClosedLine]), p.
  split; [rewrite Ho, <- !app_assoc; reflexivity|].
  split; [exact Hw|].
  split.
  - intros content' name hdr [= <-]. apply Hp.
  - intros Hin. split; [reflexivity|].
    assert (Hl : In SentOk l).
    { apply in_app_or in Hin. destruct Hin as [Hin|[Hin|[]]];
        [|discriminate].
      apply in_app_or in Hin. now destruct Hin. }
    destruct (Hok Hl) as (_ & name & hdr & H1 & H2 & H3).
    now exists content, name, hdr.
Qed.

(** X15: a file whose name does not encode.  A name with a lone
    surrogate (what Python makes of a name that is not UTF-8 on disk) is
    found by [os.path.exists], and the connection is made; then
    [file_name.encode()] raises [UnicodeEncodeError] before the first
    [sendall]: not a byte is sent, the error is printed by the last
    [except] clause, the connection is shut down and closed, and
    [send_file] returns normally. *)
Theorem unencodable_name_sends_nothing (e : env) (path : pystr)
  (content : bytes) (w : world) :
  files w !! path = Some content ->
  Utf8.encode (file_name_of path) = None ->
  reliable e ->
  send_file e path w
  = (Ok tt,
     mkWorld (files w)
       (out w ++ [Connected; UsingCipher; TLSVersion;
                  ErrorLine UnicodeEncodeError; ClosedLine])
       (trace w ++ [OpSocket; OpConnect; OpShutdown; OpClose])
       (wire w) (send_script w) true).
Proof.
  intros Hfile Henc (Hsock & Hctx & Hwrap & Hconn).
  rewrite send_file_enter by (rewrite ?Hfile; eauto).
  assert (Et : forall w0, files w0 !! path = Some content ->
    transfer e path w0
    = (Raise UnicodeEncodeError,
       mkWorld (files w0) (out w0 ++ [Connected; UsingCipher; TLSVersion])
         (trace w0 ++ [OpConnect]) (wire w0) (send_script w0) true)).
  { intros w0 Hf0. unfold transfer, stream_file.
    rewrite Hctx, Hwrap, Hconn. cbn [may_raise].
    do 8 (erewrite bind_ok by reflexivity).
    erewrite bind_ok
      by (unfold getsize; cbn [files]; rewrite Hf0; reflexivity).
    unfold encode. rewrite Henc.
    erewrite bind_raise by reflexivity.
    cbn [files out trace wire send_script secure_socket].
    rewrite <- !app_assoc. reflexivity. }
  unfold try_finally, try_except. rewrite Et by exact Hfile.
  cbn [dispatch is_SSLError is_ConnectionError is_Exception].
  unfold print at 1, modify.
  cbn [files out trace wire send_script secure_socket].
  rewrite client_close_run.
  cbn [files out trace wire send_script secure_socket].
  rewrite <- !app_assoc. reflexivity.
Qed.

Lemma file_is_sent_in_chunks_witness :
  Client.out
    (snd (Client.send_file Scenario.calm (Scenario.text "big.bin")
            (Client.mkWorld
               {[ Scenario.text "big.bin" := List.repeat x2e 2500 ]}
               [] [] [] [] false)))
  = [Connected; UsingCipher; TLSVersion; Progress 1024 2500;
     Progress 2048 2500; Progress 2500 2500; Newline; SentOk; ClosedLine].
Proof.
  exact (proj1 (proj2
    (file_is_sent_in_chunks Scenario.calm
       (Client.mkWorld
          {[ Scenario.text "big.bin" := List.repeat x2e 2500 ]}
          [] [] [] [] false)
       (Scenario.text "big.bin") (List.repeat x2e 2500)
       (List.map byte_of_N (Scenario.text "big.bin")) [x00; x00; x00; x07]
       eq_refl eq_refl eq_refl
       (conj eq_refl (conj eq_refl (conj eq_refl eq_refl)))
       ltac:(constructor)))).
Defined.

Lemma unencodable_name_sends_nothing_witness :
  Client.send_file Scenario.calm [0x61; 0xDC80]
    (Client.mkWorld {[ [0x61; 0xDC80] := Scenario.report ]} [] [] [] [] false)
  = (Ok tt,
     Client.mkWorld {[ [0x61; 0xDC80] := Scenario.report ]}
       [Connected; UsingCipher; TLSVersion; ErrorLine UnicodeEncodeError;
        ClosedLine]
       [OpSocket; OpConnect; OpShutdown; OpClose] [] [] true).
Proof.
  exact (unencodable_name_sends_nothing Scenario.calm [0x61; 0xDC80]
           Scenario.report
           (Client.mkWorld {[ [0x61; 0xDC80] := Scenario.report ]}
              [] [] [] [] false)
           eq_refl eq_refl
           (conj eq_refl (conj eq_refl (conj eq_refl eq_refl)))).
Defined.

End ClientExtras.

(** ** The [__main__] block of the client *)

Module ClientCliExtras.
Import Client.

Section Cli.
Variable py_int : pystr -> option Z.

(** X16: the client started with a number of arguments other than three
    prints the usage line and exits with status 1; no file is looked for
    and no socket is created. *)
Theorem client_usage (e : env) (argv : list pystr) (w : world) :
  List.length argv <> 4%nat ->
  main py_int e argv w
  = (Ok 1%Z,
     mkWorld (files w) (out w ++ [Usage]) (trace w) (wire w) (send_script w)
       (secure_socket w))
  /\ exit_status (fst (main py_int e argv w)) = Some 1%Z.
Proof.
  intros Hlen.
  destruct argv as [|a [|b [|c [|d [|x argv]]]]]; cbn in Hlen; try lia;
    now split.
Qed.

(** X17: the client started with a port that is not a number prints "Port
    should be a number." and ends with status 0; the file is not looked
    for and no socket is created. *)
Theorem client_port_not_a_number (e : env) (prog ip port_arg path : pystr)
  (w : world) :
  py_int port_arg = None ->
  main py_int e [prog; ip; port_arg; path] w
  = (Ok 0%Z,
     mkWorld (files w) (out w ++ [PortNotNumber]) (trace w) (wire w)
       (send_script w) (secure_socket w))
  /\ exit_status (fst (main py_int e [prog; ip; port_arg; path] w))
     = Some 0%Z.
Proof.
  intros Hint.
  assert (E : main py_int e [prog; ip; port_arg; path] w
              = (Ok 0%Z,
                 mkWorld (files w) (out w ++ [PortNotNumber]) (trace w)
                   (wire w) (send_script w) (secure_socket w))).
  { unfold main, try_except. rewrite Hint. reflexivity. }
  rewrite E. now split.
Qed.

(** X18: the client started with a port outside 1024..65535 ends with the
    [AssertionError] of the [__main__] block, which its [except
    ValueError] does not take: the status is 1, and nothing is printed,
    no file looked for, no socket created, also when the file is
    there. *)
Theorem client_port_out_of_range (e : env) (prog ip port_arg path : pystr)
  (port : Z) (w : world) :
  py_int port_arg = Some port ->
  (port < 1024 \/ 65535 < port)%Z ->
  main py_int e [prog; ip; port_arg; path] w
  = (Raise (AssertionError port_message), w)
  /\ exit_status (fst (main py_int e [prog; ip; port_arg; path] w))
     = Some 1%Z.
Proof.
  intros Hint Hport.
  assert (Hp : (1024 <=? port)%Z && (port <=? 65535)%Z = false).
  { apply andb_false_iff.
    destruct Hport; [left; apply Z.leb_gt | right; apply Z.leb_gt]; lia. }
  assert (E : main py_int e [prog; ip; port_arg; path] w
              = (Raise (AssertionError port_message), w)).
  { unfold main, try_except. rewrite Hint.
    unfold bind at 1. unfold bind at 1. unfold ret at 1.
    unfold bind at 1. rewrite Hp. reflexivity. }
  rewrite E. now split.
Qed.

End Cli.

Lemma client_usage_witness :
  Client.exit_status
    (fst (Client.main Client.digits_to_int Scenario.calm
            [Scenario.text "SecureNetFileXferClient.py";
             Scenario.report_path]
            Scenario.client_with_report)) = Some 1%Z.
Proof.
  exact (proj2 (client_usage Client.digits_to_int Scenario.calm
                  [Scenario.text "SecureNetFileXferClient.py";
                   Scenario.report_path]
                  Scenario.client_with_report ltac:(discriminate))).
Defined.

Lemma client_port_not_a_number_witness :
  Client.exit_status
    (fst (Client.main Client.digits_to_int Scenario.calm
            [Scenario.text "SecureNetFileXferClient.py";
             Scenario.text "127.0.0.1"; Scenario.text "https";
             Scenario.report_path]
            Scenario.client_with_report)) = Some 0%Z.
Proof.
  exact (proj2 (client_port_not_a_number Client.digits_to_int Scenario.calm
                  (Scenario.text "SecureNetFileXferClient.py")
                  (Scenario.text "127.0.0.1") (Scenario.text "https")
                  Scenario.report_path Scenario.client_with_report
                  eq_refl)).
Defined.

Lemma client_port_out_of_range_witness :
  Client.main Client.digits_to_int Scenario.calm
    [Scenario.text "SecureNetFileXferClient.py"; Scenario.text "127.0.0.1";
     Scenario.text "443"; Scenario.report_path]
    Scenario.client_with_report
  = (Raise (AssertionError Client.port_message), Scenario.client_with_report).
Proof.
  exact (proj1 (client_port_out_of_range Client.digits_to_int Scenario.calm
                  (Scenario.text "SecureNetFileXferClient.py")
                  (Scenario.text "127.0.0.1") (Scenario.text "443")
                  Scenario.report_path 443%Z Scenario.client_with_report
                  eq_refl ltac:(left; lia))).
Defined.

End ClientCliExtras.

(** ** The length field *)

Module HeaderExtras.
Import BigEndian BigEndianFacts.

Lemma byte_of_to_N (a : byte) n : n mod 256 = Byte.to_N a -> byte_of_N n = a.
Proof.
  intros H. unfold byte_of_N. rewrite H, Byte.of_to_N. reflexivity.
Qed.

Lemma to_from_bytes4 bs :
  List.length bs = 4%nat -> to_bytes4 (from_bytes bs) = Some bs.
Proof.
  intros Hlen.
  destruct bs as [|a [|b [|c [|d [|x bs]]]]]; try discriminate.
  pose proof (Byte.to_N_bounded a). pose proof (Byte.to_N_bounded b).
  pose proof (Byte.to_N_bounded c). pose proof (Byte.to_N_bounded d).
  unfold from_bytes, to_bytes4. cbn [fold_left].
  change (2 ^ 32) with 4294967296.
  change (2 ^ 24) with 16777216. change (2 ^ 16) with 65536.
  change (2 ^ 8) with 256.
  set (n := ((((0 * 256 + Byte.to_N a) * 256 + Byte.to_N b) * 256
              + Byte.to_N c) * 256 + Byte.to_N d)).
  assert (Hn : (n <? 4294967296) = true) by (apply N.ltb_lt; subst n; lia).
  rewrite Hn. f_equal.
  f_equal; [apply byte_of_to_N; subst n; lia|].
  f_equal; [apply byte_of_to_N; subst n; lia|].
  f_equal; [apply byte_of_to_N; subst n; lia|].
  f_equal. apply byte_of_to_N; subst n; lia.
Qed.

(** X19: the four-byte length field is a one-to-one code of the numbers
    below 2^32.  [n.to_bytes(4, 'big')] gives [bs] exactly when [bs] has
    four bytes and [int.from_bytes(bs, 'big')] is [n]: every header the
    client can send is read back as the length it stands for, every four
    bytes the server reads are the header of one length, and [to_bytes]
    fails exactly from 2^32 on. *)
Theorem header_is_one_to_one (n : N) (bs : bytes) :
  (to_bytes4 n = Some bs
   <-> List.length bs = 4%nat /\ from_bytes bs = n)
  /\ (to_bytes4 n = None <-> 2 ^ 32 <= n)
  /\ (List.length bs = 4%nat -> from_bytes bs < 2 ^ 32).
Proof.
  split; [split|split].
  - intros H. split; [now apply to_bytes4_length in H|].
    now apply from_to_bytes4.
  - intros [Hlen <-]. now apply to_from_bytes4.
  - unfold to_bytes4.
    destruct (N.ltb_spec n (2 ^ 32)); split; intros; (discriminate || lia
      || trivial).
  - intros Hlen. pose proof (to_from_bytes4 bs Hlen) as H.
    unfold to_bytes4 in H.
    destruct (N.ltb_spec (from_bytes bs) (2 ^ 32)); [assumption|].
    discriminate.
Qed.

End HeaderExtras.

(** ** One client after another *)

Module UploadExtras.
Import Server Stream ServerFacts SessionFacts FrameFacts.




End UploadExtras.
